(** * Century Communities scraper: link discovery and listing-page extraction

    A shallow embedding of [get_centurycommunities_api_links.py] and
    [get_centurycommunities_page.py].

    Conventions of the embedding:
    - a Python [str] is a [string]; a character is a code point below 256;
    - Python's [None] is [None] of an [option]; a function that can raise
      returns an [option] whose [None] is the raised exception, which
      [fetch_page] turns into its own [None] result in its [except] clause;
    - the parsed page ([BeautifulSoup]) is a record holding the outcome of
      every lookup the code performs on it;
    - the browser, the clock, the geocoding service and the builtin [float]
      are fields of an environment record. *)

From Stdlib Require Import ZArith Ascii String DecimalString PrimFloat.
From Stdlib Require SpecFloat FloatAxioms DecimalPos DecimalZ.
From stdpp Require Import base option list gmap strings.

Set Default Proof Using "Type".

(** ** Characters *)

Module Chr.

Definition code (c : ascii) : N := N_of_ascii c.

(** [str.isspace] on one character, restricted to code points below 256. *)
Definition is_space (c : ascii) : bool :=
  let n := code c in
  ((9 <=? n) && (n <=? 13) || (28 <=? n) && (n <=? 32)
   || (n =? 133) || (n =? 160))%N.

(** [\d] of a [str] pattern. *)
Definition is_digit (c : ascii) : bool :=
  let n := code c in ((48 <=? n) && (n <=? 57))%N.

Definition is_upper_az (c : ascii) : bool :=
  let n := code c in ((65 <=? n) && (n <=? 90))%N.

(** [str.lower] on one character. *)
Definition lower (c : ascii) : ascii :=
  let n := code c in
  if ((65 <=? n) && (n <=? 90) || (192 <=? n) && (n <=? 222) && negb (n =? 215))%N
  then ascii_of_N (n + 32) else c.

Definition eqb (a b : ascii) : bool := Ascii.eqb a b.

End Chr.

(** ** Python string methods, on lists of characters *)

Module PyStr.

Definition chars (s : string) : list ascii := list_ascii_of_string s.
Definition text (l : list ascii) : string := string_of_list_ascii l.

Fixpoint lstrip (l : list ascii) : list ascii :=
  match l with
  | c :: l' => if Chr.is_space c then lstrip l' else l
  | [] => []
  end.

Definition strip_chars (l : list ascii) : list ascii :=
  rev (lstrip (rev (lstrip l))).

(** [s.strip()] *)
Definition strip (s : string) : string := text (strip_chars (chars s)).

(** [s.lower()] *)
Definition lower (s : string) : string := text (map Chr.lower (chars s)).

(** [s.startswith(p)] *)
Fixpoint startswith_chars (p l : list ascii) : bool :=
  match p, l with
  | [], _ => true
  | a :: p', b :: l' => Chr.eqb a b && startswith_chars p' l'
  | _ :: _, [] => false
  end.

Definition startswith (s p : string) : bool :=
  startswith_chars (chars p) (chars s).

(** [s.split(sep)] for a non-empty separator: the fields between the
    non-overlapping occurrences of [sep], scanned from the left.  [skip]
    counts the characters of a separator still to be passed over, [cur]
    holds the current field reversed. *)
Fixpoint split_go (sep : list ascii) (l : list ascii) (skip : nat)
    (cur : list ascii) : list (list ascii) :=
  match l with
  | [] => [rev cur]
  | c :: l' =>
      match skip with
      | S n => split_go sep l' n cur
      | O =>
          if startswith_chars sep l
          then rev cur :: split_go sep l' (length sep - 1) []
          else split_go sep l' 0 (c :: cur)
      end
  end.

Definition split (s sep : string) : list string :=
  map text (split_go (chars sep) (chars s) 0 []).

(** [s.split()]: the maximal runs of characters that are not whitespace. *)
Fixpoint split_ws_go (l : list ascii) (cur : list ascii) : list (list ascii) :=
  match l with
  | [] => match cur with [] => [] | _ => [rev cur] end
  | c :: l' =>
      if Chr.is_space c
      then match cur with
           | [] => split_ws_go l' []
           | _ => rev cur :: split_ws_go l' []
           end
      else split_ws_go l' (c :: cur)
  end.

Definition split_ws (s : string) : list string :=
  map text (split_ws_go (chars s) []).

(** [sep.join(parts)] *)
Fixpoint join (sep : string) (parts : list string) : string :=
  match parts with
  | [] => ""
  | [p] => p
  | p :: rest => p +:+ sep +:+ join sep rest
  end.

(** [s.replace(c, '')] for a one-character [c]. *)
Definition remove_chr (c : ascii) (s : string) : string :=
  text (filter (fun x => Chr.eqb x c = false) (chars s)).

(** Truth value of a string: non-empty. *)
Definition truthy (s : string) : bool :=
  match s with EmptyString => false | String _ _ => true end.

(** [l[-1]] and [l[-2]]; [None] is the [IndexError]. *)
Definition last_item {A} (l : list A) : option A := last l.
Definition second_last {A} (l : list A) : option A :=
  match rev l with
  | _ :: x :: _ => Some x
  | _ => None
  end.

End PyStr.

(** ** The fragment of Python's [re] the scripts use

    Every repetition in the scripts' patterns ranges over a character class,
    so [Star] takes a class.  The matcher is the backtracking matcher of
    [re]: alternatives in order, repetitions greedy, the first complete match
    wins; [search] tries the start positions from the left. *)

Module Re.

Inductive re : Type :=
| Cls (p : ascii -> bool)
| Eps
| Seq (r1 r2 : re)
| Alt (r1 r2 : re)
| Star (p : ascii -> bool)
| Grp (n : nat) (r : re).

Definition Plus (p : ascii -> bool) : re := Seq (Cls p) (Star p).
Definition Opt (r : re) : re := Alt r Eps.
Definition chr (c : ascii) : re := Cls (Chr.eqb c).
(** a literal character under [re.IGNORECASE] *)
Definition chr_i (c : ascii) : re :=
  Cls (fun x => Chr.eqb (Chr.lower x) (Chr.lower c)).

Fixpoint lit (s : string) : re :=
  match s with
  | EmptyString => Eps
  | String c s' => Seq (chr c) (lit s')
  end.

Fixpoint lit_i (s : string) : re :=
  match s with
  | EmptyString => Eps
  | String c s' => Seq (chr_i c) (lit_i s')
  end.

(** Captured groups, most recent binding first. *)
Definition caps : Type := list (nat * list ascii).

Fixpoint group (n : nat) (c : caps) : option (list ascii) :=
  match c with
  | [] => None
  | (i, u) :: c' => if Nat.eqb i n then Some u else group n c'
  end.

Section Matcher.
Context {A : Type}.

Fixpoint star (p : ascii -> bool) (s : list ascii)
      (k : list ascii -> option A) : option A :=
    match s with
    | c :: s' =>
        if p c
        then match star p s' k with
             | Some x => Some x
             | None => k s
             end
        else k s
    | [] => k []
    end.

  (** [run r s c k]: match [r] at the head of [s] with the groups [c] bound
      so far, and hand the rest of the input to [k]; [None] backtracks. *)
Fixpoint run (r : re) (s : list ascii) (c : caps)
      (k : list ascii -> caps -> option A) : option A :=
    match r with
    | Cls p =>
        match s with
        | a :: s' => if p a then k s' c else None
        | [] => None
        end
    | Eps => k s c
    | Seq r1 r2 => run r1 s c (fun s1 c1 => run r2 s1 c1 k)
    | Alt r1 r2 =>
        match run r1 s c k with
        | Some x => Some x
        | None => run r2 s c k
        end
    | Star p => star p s (fun s' => k s' c)
    | Grp n r1 =>
        run r1 s c
          (fun s' c' => k s' ((n, take (length s - length s') s) :: c'))
    end.
End Matcher.

(** A match object: where the match starts, the matched text (group 0),
    the groups, and the input after the match. *)
Record match_obj : Type := MatchObj {
  m_before : list ascii;
  m_whole : list ascii;
  m_groups : caps;
  m_after : list ascii
}.

Definition match_at (r : re) (s : list ascii) : option (list ascii * caps) :=
  run r s [] (fun s' c => Some (s', c)).

(** [re.search]: [before] holds the skipped characters, reversed. *)
Fixpoint search_from (r : re) (before : list ascii) (s : list ascii)
    : option match_obj :=
  match match_at r s with
  | Some (s', c) =>
      Some (MatchObj (rev before) (take (length s - length s') s) c s')
  | None =>
      match s with
      | [] => None
      | a :: s' => search_from r (a :: before) s'
      end
  end.

Definition search (r : re) (s : string) : option match_obj :=
  search_from r [] (PyStr.chars s).

(** [m.group(n)] for a group that took part in the match. *)
Definition group_text (n : nat) (m : match_obj) : option string :=
  match n with
  | O => Some (PyStr.text (m_whole m))
  | _ => PyStr.text <$> group n (m_groups m)
  end.

(** The language of a pattern, with the groups a match binds. *)
Inductive cmatch : re -> list ascii -> caps -> caps -> Prop :=
| cm_cls p a c : p a = true -> cmatch (Cls p) [a] c c
| cm_eps c : cmatch Eps [] c c
| cm_seq r1 r2 u1 u2 c0 c1 c2 :
    cmatch r1 u1 c0 c1 -> cmatch r2 u2 c1 c2 ->
    cmatch (Seq r1 r2) (u1 ++ u2) c0 c2
| cm_alt_l r1 r2 u c c' : cmatch r1 u c c' -> cmatch (Alt r1 r2) u c c'
| cm_alt_r r1 r2 u c c' : cmatch r2 u c c' -> cmatch (Alt r1 r2) u c c'
| cm_star p u c : forallb p u = true -> cmatch (Star p) u c c
| cm_grp n r u c c' : cmatch r u c c' -> cmatch (Grp n r) u c ((n, u) :: c').

Inductive matches : re -> list ascii -> Prop :=
| ma_cls p a : p a = true -> matches (Cls p) [a]
| ma_eps : matches Eps []
| ma_seq r1 r2 u1 u2 :
    matches r1 u1 -> matches r2 u2 -> matches (Seq r1 r2) (u1 ++ u2)
| ma_alt_l r1 r2 u : matches r1 u -> matches (Alt r1 r2) u
| ma_alt_r r1 r2 u : matches r2 u -> matches (Alt r1 r2) u
| ma_star p u : forallb p u = true -> matches (Star p) u
| ma_grp n r u : matches r u -> matches (Grp n r) u.

(** [r] matches somewhere in [s]: at offset [length pre]. *)
Definition occurs_at (r : re) (s : list ascii) (pre : list ascii) : Prop :=
  exists u post, s = pre ++ u ++ post /\ matches r u.

Definition occurs (r : re) (s : list ascii) : Prop :=
  exists pre, occurs_at r s pre.

End Re.

(** ** Field extractors ([get_centurycommunities_page.py], lines 70-92) *)

Definition digit_or_comma (c : ascii) : bool :=
  Chr.is_digit c || Chr.eqb c ",".

(** [r'\$[\d,]+'] *)
Definition price_re : Re.re :=
  Re.Seq (Re.chr "$") (Re.Plus digit_or_comma).

(** the tail of the bedroom pattern: [\s*(?:Bedroom|Bed|BR|br)] *)
Definition bed_unit_re : Re.re :=
  Re.Seq (Re.Star Chr.is_space)
    (Re.Alt (Re.lit_i "Bedroom")
       (Re.Alt (Re.lit_i "Bed") (Re.Alt (Re.lit_i "BR") (Re.lit_i "br")))).

(** [r'(\d+)\s*(?:Bedroom|Bed|BR|br)'] with [re.IGNORECASE] *)
Definition beds_re : Re.re :=
  Re.Seq (Re.Grp 1 (Re.Plus Chr.is_digit)) bed_unit_re.

(** [\d+(?:\.\d+)?] *)
Definition decimal_re : Re.re :=
  Re.Seq (Re.Plus Chr.is_digit)
    (Re.Opt (Re.Seq (Re.chr ".") (Re.Plus Chr.is_digit))).

(** the tail of the bathroom pattern: [\s*(?:Bathroom|Bath|BA|ba)] *)
Definition bath_unit_re : Re.re :=
  Re.Seq (Re.Star Chr.is_space)
    (Re.Alt (Re.lit_i "Bathroom")
       (Re.Alt (Re.lit_i "Bath") (Re.Alt (Re.lit_i "BA") (Re.lit_i "ba")))).

(** [r'(\d+(?:\.\d+)?)\s*(?:Bathroom|Bath|BA|ba)'] with [re.IGNORECASE] *)
Definition baths_re : Re.re :=
  Re.Seq (Re.Grp 1 decimal_re) bath_unit_re.

(** the tail of the square-footage pattern: [\s*sq(?:\.|uare)?\s*ft] *)
Definition sqft_unit_re : Re.re :=
  Re.Seq (Re.Star Chr.is_space)
    (Re.Seq (Re.lit "sq")
       (Re.Seq (Re.Opt (Re.Alt (Re.chr ".") (Re.lit "uare")))
          (Re.Seq (Re.Star Chr.is_space) (Re.lit "ft")))).

(** [r'([\d,]+)\s*sq(?:\.|uare)?\s*ft'] *)
Definition sqft_re : Re.re :=
  Re.Seq (Re.Grp 1 (Re.Plus digit_or_comma)) sqft_unit_re.

(** The argument of an extractor: [None] is Python's [None]. *)
Definition extract_price (text : option string) : option string :=
  match text with
  | None => None
  | Some t =>
      if negb (PyStr.truthy t) then None
      else
        match Re.search price_re t with
        | Some m => Re.group_text 0 m
        | None => None
        end
  end.

Definition extract_beds_baths (text : option string)
    : option string * option string :=
  match text with
  | None => (None, None)
  | Some t =>
      if negb (PyStr.truthy t) then (None, None)
      else
        let beds_match := Re.search beds_re t in
        let baths_match := Re.search baths_re t in
        let beds := match beds_match with
                    | Some m => Re.group_text 1 m
                    | None => None
                    end in
        let baths := match baths_match with
                     | Some m => Re.group_text 1 m
                     | None => None
                     end in
        (beds, baths)
  end.

Definition extract_sqft (text : option string) : option string :=
  match text with
  | None => None
  | Some t =>
      if negb (PyStr.truthy t) then None
      else
        match Re.search sqft_re (PyStr.lower t) with
        | Some m => PyStr.remove_chr "," <$> Re.group_text 1 m
        | None => None
        end
  end.

(** ** Numbers: [int], [min], [max] and number formatting *)

Module PyNum.

Definition digit_val (c : ascii) : Z := Z.of_N (Chr.code c - 48).

(** The digits of an [int] literal: single underscores may separate digits.
    [seen] tells that the previous character was a digit. *)
Fixpoint int_digits (l : list ascii) (acc : Z) (seen : bool) : option Z :=
  match l with
  | [] => if seen then Some acc else None
  | c :: l' =>
      if Chr.is_digit c then int_digits l' (10 * acc + digit_val c)%Z true
      else if Chr.eqb c "_" && seen then int_digits l' acc false
      else None
  end.

(** [sys.int_info.default_max_str_digits]: a text with more digits than
    this is refused by [int]. *)
Definition max_str_digits : N := 4300.

(** The digits of a literal, its underscores not counted. *)
Definition digit_count (l : list ascii) : N :=
  N.of_nat (length (filter (fun c => Chr.is_digit c = true) l)).

(** The literal after the sign: its digits are read unless they are more
    than [max_str_digits], leading zeros included. *)
Definition int_literal (l : list ascii) : option Z :=
  if (digit_count l <=? max_str_digits)%N then int_digits l 0%Z false
  else None.

(** [int(s)] on a string; [None] is the [ValueError]. *)
Definition int (s : string) : option Z :=
  match PyStr.strip_chars (PyStr.chars s) with
  | "+"%char :: l => int_literal l
  | "-"%char :: l => Z.opp <$> int_literal l
  | l => int_literal l
  end.

Definition digits (n : Z) : list ascii :=
  PyStr.chars (NilZero.string_of_uint (N.to_uint (Z.abs_N n))).

Definition sign (n : Z) : list ascii :=
  if (n <? 0)%Z then ["-"%char] else [].

(** [str(n)] and [f"{n}"] for an [int].  The numbers formatted here were
    read by [int], so that their numerals stay within [max_str_digits] and
    the conversion is never refused. *)
Definition format_int (n : Z) : string :=
  PyStr.text (sign n ++ digits n).

(** Commas between groups of three digits; the digits come least
    significant first and [k] digits are still due before the next comma. *)
Fixpoint commas_rev (l : list ascii) (k : nat) : list ascii :=
  match l with
  | [] => []
  | d :: l' =>
      match k with
      | O => ","%char :: d :: commas_rev l' 2
      | S k' => d :: commas_rev l' k'
      end
  end.

(** [f"{n:,}"] for an [int] *)
Definition format_int_commas (n : Z) : string :=
  PyStr.text (sign n ++ rev (commas_rev (rev (digits n)) 3)).

(** [min(x :: l)] and [max(x :: l)]: the builtin keeps its current choice
    unless the next item is strictly smaller (greater). *)
Definition min_from {A} (lt : A -> A -> bool) (x : A) (l : list A) : A :=
  fold_left (fun cur y => if lt y cur then y else cur) l x.

Definition max_from {A} (lt : A -> A -> bool) (x : A) (l : list A) : A :=
  fold_left (fun cur y => if lt cur y then y else cur) l x.

(** Truth value of a [float]: it is not zero. *)
Definition float_truthy (x : float) : bool := negb (PrimFloat.eqb x 0%float).

Definition float_neq (x y : float) : bool := negb (PrimFloat.eqb x y).

End PyNum.

(** A failing step aborts the computation: the exception propagates. *)
Notation "'let?' x ':=' m 'in' k" :=
  (match m with Some x => k | None => None end)
  (at level 10, x pattern, m at level 100, k at level 200,
   format "'[v' 'let?'  x  ':='  m  'in' '/' k ']'").

Definition origin : string := "https://www.centurycommunities.com".

(** [if not href.startswith('http'): href = origin + href] *)
Definition absolute (href : string) : string :=
  if negb (PyStr.startswith href "http") then origin +:+ href else href.

(** ** Link discovery ([get_centurycommunities_api_links.py]) *)

Module Links.

(** One [century-card product-card card] element: [None] when the card has
    no [h2.card-title]; otherwise the [href] of the first anchor in the
    title, [None] when there is no anchor or no [href]. *)
Definition community_card : Type := option (option string).

(** What loading a region page gives: [None] when [driver.get], saving the
    markup or parsing raised; otherwise the cards of the page. *)
Definition region_page : Type := option (list community_card).

(** the body of [for card in community_cards] *)
Definition visit_card (community_links : list string) (card : community_card)
    : list string :=
  match card with
  | Some (Some href) =>
      if PyStr.truthy href then
        let href := absolute href in
        if bool_decide (href ∈ community_links) then community_links
        else community_links ++ [href]
      else community_links
  | Some None => community_links
  | None => community_links
  end.

(** the body of [for url in city_links]; a failing region is skipped *)
Definition visit_region (browser : string -> region_page)
    (community_links : list string) (url : string) : list string :=
  match browser url with
  | Some community_cards => fold_left visit_card community_cards community_links
  | None => community_links
  end.

Definition collect (browser : string -> region_page)
    (city_links : list string) : list string :=
  fold_left (visit_region browser) city_links [].

(** [list(set(community_links))]: the elements of the set, in the order
    the set enumerates them. *)
Definition get_community_links (browser : string -> region_page)
    (city_links : list string) : list string :=
  elements (list_to_set (collect browser city_links) : gset string).

(** The listing URLs found on the region pages that loaded. *)
Definition discovered (browser : string -> region_page)
    (city_links : list string) (href : string) : Prop :=
  exists url cards raw,
    url ∈ city_links /\ browser url = Some cards /\
    Some (Some raw) ∈ cards /\ PyStr.truthy raw = true /\
    href = absolute raw.

End Links.

(** ** The listing page ([get_centurycommunities_page.py]) *)

(** *** What the code reads from the markup *)

(** One [li.floor_plan_contain.card.quick-move-in-card].  An outer [None]
    is a [find] that returned [None]; for an element followed by a second
    lookup the inner option is the outcome of that second lookup. *)
Record Card : Type := {
  c_title : option string;          (* text of span.title *)
  c_link : option (option string);  (* a.btn.btn-primary, its href *)
  c_price : option string;          (* text of span.price *)
  c_beds : option (option string);  (* img[alt=Bedrooms], text of the next span *)
  c_baths : option (option string); (* img[alt=Bathrooms], text of the next span *)
  c_sqft : option (option string);  (* img[alt=Square Footage], text of the next span *)
  c_img : option (option string);   (* img.js-img, its src *)
  c_street : option string;         (* text of h3.street-number *)
  c_flags : list string             (* texts of div.custom-flag1-icon / custom-flag2-icon *)
}.

(** One category section under [section.communities-block]. *)
Record NearbySection : Type := {
  ns_heading : option (option string);  (* h3, text of its span *)
  ns_places : option (list string)      (* div.description, texts of its p *)
}.

Record Page : Type := {
  p_listing_h1 : option (option string);   (* div.community_listing_details, text of its h1 *)
  p_price : option string;                 (* text of the first span.price *)
  p_address : option string;               (* text of p.community-page-address *)
  p_scripts : list (option string);        (* script.string of every script *)
  p_map : option (string * string);        (* data-lat, data-lng of the map div *)
  p_phone : option (option string);        (* a.cells.phone, text of its span *)
  p_overview : option (option string);     (* section.overview-communities-block, text of its first p *)
  p_description : option (option string);  (* div.community-description, text of its first p *)
  p_carousel : option (list (option string)); (* div.carousel, src of each img *)
  p_cards : list Card;
  p_nearby : option (list NearbySection)
}.

(** One [.list-group-item] of a floor-plan page: its text, and the [src] of
    the image of the pane it activates; an outer [None] when activating the
    tab or finding the image raised. *)
Record Tab : Type := {
  tab_text : string;
  tab_img : option (option string)
}.

Inductive geo_result : Type :=
| GeoFound (latitude longitude : float)
| GeoNotFound
| GeoError.  (* GeocoderTimedOut or GeocoderServiceError *)

(** The collaborators of [fetch_page]. *)
Record Env : Type := {
  now : string;                                  (* datetime.now().isoformat() *)
  browse : string -> option Page;                (* driver.get, page_source, parse; None: raised *)
  floorplan_tabs : string -> option (list Tab);  (* the tabs of a floor-plan page; None: raised *)
  gallery : string -> option (list (option (option string)));
      (* the carousel items of a homesite page, each with its img and the
         img's src; None: the gallery never appeared, or loading raised *)
  geocode : string -> geo_result;
  py_float : string -> option float;             (* float(s); None: ValueError *)
  float_str : float -> string                    (* f"{x}" *)
}.

(** *** The record *)

Record FloorplanImage : Type := {
  fi_name : string;
  fi_image_url : string
}.

Record HomeplanDetails : Type := {
  hd_price : string;
  hd_beds : string;
  hd_baths : string;
  hd_sqft : string;
  hd_status : string;
  hd_image_url : string
}.

Record Homeplan : Type := {
  hp_name : string;
  hp_url : string;
  hp_details : HomeplanDetails;
  hp_includedFeatures : list string;
  hp_floorplan_images : list FloorplanImage
}.

Record Homesite : Type := {
  hs_name : option string;
  hs_plan : option string;
  hs_id : option string;
  hs_address : option string;
  hs_price : option string;
  hs_beds : option string;
  hs_baths : option string;
  hs_sqft : option string;
  hs_status : string;
  hs_image_url : option string;
  hs_url : option string;
  hs_latitude : option float;
  hs_longitude : option float;
  hs_overview : option string;
  hs_images : list string
}.

Record NearbyPlace : Type := {
  np_name : string;
  np_category : string;
  np_distance : option string;
  np_rating : option string;
  np_reviews : option string
}.

Record AddressParts : Type := {
  city : option string;
  state : option string;
  market : option string
}.

Record Location : Type := {
  latitude : option float;
  longitude : option float;
  loc_address : AddressParts
}.

Record Details : Type := {
  price_range : option string;
  sqft_range : option string;
  bed_range : option string;
  bath_range : option string;
  stories_range : option string;
  community_count : Z
}.

Record Community : Type := {
  timestamp : string;
  builder : string;
  name : option string;
  status : string;
  url : string;
  price_from : option string;
  address : option string;
  phone : option string;
  description : option string;
  images : list string;
  location : Location;
  details : Details;
  amenities : list string;
  homeplans : list Homeplan;
  homesites : list Homesite;
  nearbyplaces : list NearbyPlace;
  collections : list string
}.

(** *** Small helpers of the page code *)

Definition newline : string := String (ascii_of_nat 10) EmptyString.
Definition nbsp : string := String (ascii_of_nat 160) EmptyString.

Fixpoint contains_chars (p l : list ascii) : bool :=
  PyStr.startswith_chars p l
  || match l with
     | [] => false
     | _ :: l' => contains_chars p l'
     end.

(** [p in s] *)
Definition contains (s p : string) : bool :=
  contains_chars (PyStr.chars p) (PyStr.chars s).

(** [[part.strip() for part in t.split('\n') if part.strip()]] *)
Definition nonblank_lines (t : string) : list string :=
  filter (fun part => PyStr.truthy part = true)
    (map PyStr.strip (PyStr.split t newline)).

(** [t.split()[0]]; [None] is the [IndexError]. *)
Definition first_word (t : string) : option string :=
  head (PyStr.split_ws t).

(** [' '.join(t.strip().split())] *)
Definition squeeze (t : string) : string :=
  PyStr.join " " (PyStr.split_ws (PyStr.strip t)).

(** *** Geocoding fallback (lines 26-55) *)

(** [re.sub(r',+', ',', address)]: [in_run] tells that the previous
    character was a comma. *)
Fixpoint collapse_commas (l : list ascii) (in_run : bool) : list ascii :=
  match l with
  | [] => []
  | c :: l' =>
      if Chr.eqb c ","
      then if in_run then collapse_commas l' true
           else c :: collapse_commas l' true
      else c :: collapse_commas l' false
  end.

(** [r'([^,]+),\s*([A-Z]{2})'] *)
Definition city_state_re : Re.re :=
  Re.Seq (Re.Grp 1 (Re.Plus (fun c => negb (Chr.eqb c ","))))
    (Re.Seq (Re.chr ",")
       (Re.Seq (Re.Star Chr.is_space)
          (Re.Grp 2 (Re.Seq (Re.Cls Chr.is_upper_az) (Re.Cls Chr.is_upper_az))))).

Definition located (r : geo_result) : option float * option float :=
  match r with
  | GeoFound lat lon => (Some lat, Some lon)
  | GeoNotFound => (None, None)
  | GeoError => (None, None)
  end.

Definition get_coordinates (env : Env) (address : string)
    : option float * option float :=
  let clean_address :=
    PyStr.strip (PyStr.text (collapse_commas (PyStr.chars address) false)) in
  match geocode env clean_address with
  | GeoFound lat lon => (Some lat, Some lon)
  | GeoError => (None, None)
  | GeoNotFound =>
      match Re.search city_state_re clean_address with
      | Some m =>
          match Re.group_text 1 m, Re.group_text 2 m with
          | Some g1, Some g2 =>
              let city_state := g1 +:+ ", " +:+ g2 in
              located (geocode env city_state)
          | _, _ => (None, None)
          end
      | None => (None, None)
      end
  end.

(** *** Floor-plan and homesite detail pages (lines 106-163, 216-257) *)

Definition tab_image (tab : Tab) : list FloorplanImage :=
  if contains (tab_text tab) "Options" then []
  else
    let tab_text := PyStr.strip (tab_text tab) in
    match tab_img tab with
    | Some (Some img_url) =>
        if PyStr.truthy img_url && negb (PyStr.startswith img_url "data:")
        then [{| fi_name := tab_text +:+ " Floorplan";
                 fi_image_url := absolute img_url |}]
        else []
    | Some None => []
    | None => []
    end.

Definition get_floorplan_images (env : Env) (url : string)
    : list FloorplanImage :=
  match floorplan_tabs env url with
  | Some tabs => flat_map tab_image tabs
  | None => []
  end.

Fixpoint carousel_images (items : list (option (option string)))
    (count : nat) : list string :=
  match items with
  | [] => []
  | item :: rest =>
      if 12 <=? count then []
      else
        match item with
        | Some (Some src) =>
            if PyStr.truthy src
            then absolute src :: carousel_images rest (count + 1)
            else carousel_images rest count
        | _ => carousel_images rest count
        end
  end.

Definition get_homesite_images (env : Env) (url : string) : list string :=
  match gallery env url with
  | Some carousel_items => carousel_images carousel_items 0
  | None => []
  end.

(** *** Floor plans (lines 165-214) *)

Definition homeplan_of (env : Env) (name : string) (card : Card)
    : option Homeplan :=
  let? link := c_link card in
  let? href := link in
  let url := absolute href in
  let? price := c_price card in
  let? beds_img := c_beds card in
  let? beds := beds_img in
  let? baths_img := c_baths card in
  let? baths := baths_img in
  let? sqft_img := c_sqft card in
  let? sqft := sqft_img in
  let? img := c_img card in
  let image_url := default "" img in
  let image_url :=
    if PyStr.truthy image_url && negb (PyStr.startswith image_url "http")
    then origin +:+ image_url else image_url in
  Some {| hp_name := name;
          hp_url := url;
          hp_details :=
            {| hd_price := PyStr.strip price;
               hd_beds := PyStr.strip beds;
               hd_baths := PyStr.strip baths;
               hd_sqft := PyStr.strip sqft;
               hd_status := "Actively selling";
               hd_image_url := image_url |};
          hp_includedFeatures := [];
          hp_floorplan_images := get_floorplan_images env url |}.

(** the loop over the cards, with the names seen so far *)
Fixpoint homeplans_from (env : Env) (cards : list Card)
    (seen_models : gset string) : option (list Homeplan) :=
  match cards with
  | [] => Some []
  | card :: rest =>
      let? title := c_title card in
      let name := PyStr.strip title in
      if bool_decide (name ∈ seen_models) then homeplans_from env rest seen_models
      else
        let? homeplan := homeplan_of env name card in
        let? more := homeplans_from env rest ({[name]} ∪ seen_models) in
        Some (homeplan :: more)
  end.

Definition extract_homeplans (env : Env) (p : Page) : option (list Homeplan) :=
  homeplans_from env (p_cards p) ∅.

(** *** Quick move-in homes (lines 427-523) *)

(** The variables the loop carries from one card to the next: [url] is the
    function's own variable, which the loop assigns only for a card that
    has a details link. *)
Record LoopState : Type := {
  ls_url : string;
  ls_sqft_values : list Z;
  ls_bed_values : list Z;
  ls_bath_values : list float;
  ls_homesites : list Homesite
}.

(** A spec line: the text of the span after the icon, its first word, and
    the number read from that word by [parse]. *)
Definition spec_value {N : Type} (parse : string -> option N)
    (clean : string -> string) (span : option string) : option (string * N) :=
  let? t := span in
  let? word := first_word (PyStr.strip t) in
  let num := clean word in
  let? n := parse num in
  Some (num, n).

(** [url.split('/')[-2].split('---')[0]] *)
Definition lot_id_of (url : string) : option string :=
  let? segment := PyStr.second_last (PyStr.split url "/") in
  head (PyStr.split segment "---").

(** lines 452-457: the street text of the card, when it has one *)
Definition street_field (qmi : Card) : option (option string) :=
  match c_street qmi with
  | Some t =>
      let? street := head (PyStr.split (PyStr.strip t) "|") in
      Some (Some (PyStr.strip street))
  | None => Some None
  end.

(** lines 469-489: one spec line and the list its number is appended to *)
Definition spec_field {N : Type} (parse : string -> option N)
    (clean : string -> string) (elem : option (option string))
    (values : list N) : option (option string * list N) :=
  match elem with
  | Some span =>
      let? (num, n) := spec_value parse clean span in
      Some (Some num, values ++ [n])
  | None => Some (None, values)
  end.

(** lines 491-498 *)
Definition image_field (qmi : Card) : option string :=
  match c_img qmi with
  | Some (Some src) =>
      if PyStr.truthy src then Some (absolute src) else None
  | _ => None
  end.

(** lines 500-509: the only place that assigns [url]; the result is the
    variable [url] after the block, the homesite's [url] field and its
    [images] *)
Definition link_field (env : Env) (url : string) (image : option string)
    (qmi : Card) : option (string * option string * list string) :=
  match c_link qmi with
  | Some a =>
      let? href := a in
      let url := absolute href in
      Some (url, Some url, get_homesite_images env url)
  | None =>
      Some (url, None,
            match image with Some img_url => [img_url] | None => [] end)
  end.

(** lines 511-514: [if url:] reads the variable, not the homesite's field *)
Definition lot_field (url : string) : option (option string) :=
  if PyStr.truthy url
  then let? lot := lot_id_of url in Some (Some lot)
  else Some None.

(** lines 516-520 *)
Definition overview_field (qmi : Card) : option string :=
  match c_flags qmi with
  | [] => None
  | flags => Some (PyStr.join " " (map PyStr.strip flags))
  end.

Definition homesite_step (env : Env) (lat lon : option float)
    (st : LoopState) (qmi : Card) : option LoopState :=
  let? full_address := street_field qmi in
  let? beds := spec_field PyNum.int id (c_beds qmi) (ls_bed_values st) in
  let? baths :=
    spec_field (py_float env) id (c_baths qmi) (ls_bath_values st) in
  let? sqft :=
    spec_field PyNum.int (PyStr.remove_chr ",") (c_sqft qmi)
      (ls_sqft_values st) in
  let image := image_field qmi in
  let? link := link_field env (ls_url st) image qmi in
  let? lot_id := lot_field link.1.1 in
  let homesite :=
    {| hs_name := full_address;
       hs_plan := PyStr.strip <$> c_title qmi;
       hs_id := lot_id;
       hs_address := (fun a => a +:+ ", McDonough, GA") <$> full_address;
       hs_price := PyStr.strip <$> c_price qmi;
       hs_beds := beds.1;
       hs_baths := baths.1;
       hs_sqft := sqft.1;
       hs_status := "Move-in Ready";
       hs_image_url := image;
       hs_url := link.1.2;
       hs_latitude := lat;
       hs_longitude := lon;
       hs_overview := overview_field qmi;
       hs_images := link.2 |} in
  Some {| ls_url := link.1.1;
          ls_sqft_values := sqft.2;
          ls_bed_values := beds.2;
          ls_bath_values := baths.2;
          ls_homesites := ls_homesites st ++ [homesite] |}.

Fixpoint homesites_loop (env : Env) (lat lon : option float)
    (qmi_containers : list Card) (st : LoopState) : option LoopState :=
  match qmi_containers with
  | [] => Some st
  | qmi :: rest =>
      let? st' := homesite_step env lat lon st qmi in
      homesites_loop env lat lon rest st'
  end.

(** *** Aggregate ranges (lines 525-545) *)

Definition sqft_range_of (sqft_values : list Z) : option string :=
  match sqft_values with
  | [] => None
  | x :: l =>
      let min_sqft := PyNum.min_from Z.ltb x l in
      let max_sqft := PyNum.max_from Z.ltb x l in
      Some (if negb (min_sqft =? max_sqft)%Z
            then PyNum.format_int_commas min_sqft +:+ " - "
                 +:+ PyNum.format_int_commas max_sqft +:+ " sq ft"
            else PyNum.format_int_commas min_sqft +:+ " sq ft")
  end.

Definition bed_range_of (bed_values : list Z) : option string :=
  match bed_values with
  | [] => None
  | x :: l =>
      let min_beds := PyNum.min_from Z.ltb x l in
      let max_beds := PyNum.max_from Z.ltb x l in
      Some (if negb (min_beds =? max_beds)%Z
            then PyNum.format_int min_beds +:+ " - "
                 +:+ PyNum.format_int max_beds +:+ " Beds"
            else PyNum.format_int min_beds +:+ " Beds")
  end.

Definition bath_range_of (env : Env) (bath_values : list float)
    : option string :=
  match bath_values with
  | [] => None
  | x :: l =>
      let min_baths := PyNum.min_from PrimFloat.ltb x l in
      let max_baths := PyNum.max_from PrimFloat.ltb x l in
      Some (if PyNum.float_neq min_baths max_baths
            then float_str env min_baths +:+ " - "
                 +:+ float_str env max_baths +:+ " Baths"
            else float_str env min_baths +:+ " Baths")
  end.

Definition stories_range_of (sqft_values : list Z) : option string :=
  match sqft_values with
  | [] => None
  | x :: l =>
      let max_sqft := PyNum.max_from Z.ltb x l in
      let stories := if (2000 <? max_sqft)%Z then 2%Z else 1%Z in
      Some (PyNum.format_int stories +:+ " Story")
  end.

(** *** The community's own fields (lines 317-422) *)

Definition community_name_of (p : Page) : option (option string) :=
  let? name_elem := p_listing_h1 p in
  match name_elem with
  | Some t =>
      let? first := head (nonblank_lines t) in
      Some (Some first)
  | None => Some None
  end.

Definition price_from_of (p : Page) : option string :=
  match p_price p with
  | Some t =>
      match extract_price (Some (PyStr.strip t)) with
      | Some price =>
          if PyStr.truthy price then Some ("From " +:+ price) else None
      | None => None
      end
  | None => None
  end.

Definition no_address_parts : AddressParts :=
  {| city := None; state := None; market := None |}.

(** lines 342-349 *)
Definition parse_city_state (address_parts : list string) : AddressParts :=
  if 2 <=? length address_parts then
    match last address_parts with
    | Some last_part =>
        match PyStr.split last_part "," with
        | c0 :: c1 :: _ =>
            let state_zip := PyStr.split_ws (PyStr.strip c1) in
            {| city := Some (PyStr.strip c0);
               state := head state_zip;
               market := Some "Atlanta Metro" |}
        | _ => no_address_parts
        end
    | None => no_address_parts
    end
  else no_address_parts.

(** the double quote character *)
Definition dquote : ascii := ascii_of_nat 34.

Definition coord_sep (c : ascii) : bool :=
  Chr.eqb c dquote || Chr.is_space c || Chr.eqb c ":".

Definition coord_char (c : ascii) : bool :=
  Chr.is_digit c || Chr.eqb c "." || Chr.eqb c "-".

(** [r'latitude["\s:]+([0-9.-]+)'] and [r'longitude["\s:]+([0-9.-]+)'] *)
Definition coord_re (key : string) : Re.re :=
  Re.Seq (Re.lit key)
    (Re.Seq (Re.Plus coord_sep) (Re.Grp 1 (Re.Plus coord_char))).

(** The scan of the script tags: the outer [None] is a [float] that raised,
    the inner one a scan that found no script with both keys. *)
Fixpoint scan_scripts (env : Env) (script_tags : list (option string))
    : option (option (float * float)) :=
  match script_tags with
  | [] => Some None
  | script :: rest =>
      match script with
      | Some s =>
          if PyStr.truthy s then
            match Re.search (coord_re "latitude") s,
                  Re.search (coord_re "longitude") s with
            | Some lat_match, Some lon_match =>
                let? g_lat := Re.group_text 1 lat_match in
                let? lat := py_float env g_lat in
                let? g_lon := Re.group_text 1 lon_match in
                let? lon := py_float env g_lon in
                Some (Some (lat, lon))
            | _, _ => scan_scripts env rest
            end
          else scan_scripts env rest
      | None => scan_scripts env rest
      end
  end.

Definition opt_truthy (x : option float) : bool :=
  match x with
  | Some v => PyNum.float_truthy v
  | None => false
  end.

(** lines 379-385: what the geocoding fallback leaves in the record *)
Definition geocoded (env : Env) (address : string)
    : option float * option float :=
  let '(lat, lon) := get_coordinates env address in
  if opt_truthy lat && opt_truthy lon then (lat, lon) else (None, None).

(** lines 351-385 *)
Definition resolve_coordinates (env : Env) (p : Page) (address : string)
    : option (option float * option float) :=
  let? in_source := scan_scripts env (p_scripts p) in
  match in_source with
  | Some (lat, lon) => Some (Some lat, Some lon)
  | None =>
      match p_map p with
      | Some (data_lat, data_lng) =>
          let? lat := py_float env data_lat in
          let? lon := py_float env data_lng in
          Some (Some lat, Some lon)
      | None => Some (geocoded env address)
      end
  end.

(** lines 335-387: the address string and the location *)
Definition location_of (env : Env) (p : Page)
    : option (option string * Location) :=
  match p_address p with
  | Some t =>
      let address_parts := nonblank_lines t in
      let address := PyStr.join ", " address_parts in
      let? (lat, lon) := resolve_coordinates env p address in
      Some (Some address,
            {| latitude := lat; longitude := lon;
               loc_address := parse_city_state address_parts |})
  | None =>
      Some (None,
            {| latitude := None; longitude := None;
               loc_address := no_address_parts |})
  end.

Definition phone_of (p : Page) : option (option string) :=
  match p_phone p with
  | Some span =>
      let? t := span in
      Some (Some (PyStr.strip t))
  | None => Some None
  end.

Definition description_of (p : Page) : option string :=
  let overview :=
    match p_overview p with
    | Some (Some t) => Some (squeeze t)
    | _ => None
    end in
  if match overview with Some d => PyStr.truthy d | None => false end
  then overview
  else
    match p_description p with
    | Some (Some t) => Some (squeeze t)
    | _ => overview
    end.

Fixpoint first_valid_src (imgs : list (option string)) : option string :=
  match imgs with
  | [] => None
  | img :: rest =>
      match img with
      | Some src =>
          if PyStr.truthy src && negb (PyStr.startswith src "data:")
          then Some (absolute src)
          else first_valid_src rest
      | None => first_valid_src rest
      end
  end.

Definition get_first_valid_image (container : option (list (option string)))
    : option string :=
  match container with
  | Some imgs => first_valid_src imgs
  | None => None
  end.

(** *** Nearby places (lines 547-568) *)

Definition places_of (category_name : string) (names : list string)
    : list NearbyPlace :=
  flat_map
    (fun t =>
       let place_name := PyStr.strip t in
       if PyStr.truthy place_name && negb (String.eqb place_name nbsp)
       then [{| np_name := place_name; np_category := category_name;
                np_distance := None; np_rating := None; np_reviews := None |}]
       else [])
    names.

Definition section_places (s : NearbySection) : option (list NearbyPlace) :=
  match ns_heading s with
  | Some span =>
      let? t := span in
      let category_name := PyStr.strip t in
      match ns_places s with
      | Some names => Some (places_of category_name names)
      | None => Some []
      end
  | None => Some []
  end.

Fixpoint sections_places (l : list NearbySection) : option (list NearbyPlace) :=
  match l with
  | [] => Some []
  | s :: rest =>
      let? here := section_places s in
      let? more := sections_places rest in
      Some (here ++ more)
  end.

Definition nearby_places (p : Page) : option (list NearbyPlace) :=
  match p_nearby p with
  | Some sections => sections_places sections
  | None => Some []
  end.

(** *** [fetch_page] (lines 259-585)

    [None] is the [return None] of the [except] clause.  Writing the markup
    and the JSON file to disk is left out. *)
Definition fetch_page (env : Env) (url : string) : option Community :=
  let? community_name := PyStr.second_last (PyStr.split url "/") in
  let? p := browse env url in
  let? name := community_name_of p in
  let price_from := price_from_of p in
  let? (address, location) := location_of env p in
  let? phone := phone_of p in
  let description := description_of p in
  let images :=
    match get_first_valid_image (p_carousel p) with
    | Some main_image => if PyStr.truthy main_image then [main_image] else []
    | None => []
    end in
  let? homeplans := extract_homeplans env p in
  let? st :=
    homesites_loop env (latitude location) (longitude location) (p_cards p)
      {| ls_url := url; ls_sqft_values := []; ls_bed_values := [];
         ls_bath_values := []; ls_homesites := [] |} in
  let? nearbyplaces := nearby_places p in
  Some {| timestamp := now env;
          builder := "Century Communities";
          name := name;
          status := "Active";
          url := url;
          price_from := price_from;
          address := address;
          phone := phone;
          description := description;
          images := images;
          location := location;
          details :=
            {| price_range := price_from;
               sqft_range := sqft_range_of (ls_sqft_values st);
               bed_range := bed_range_of (ls_bed_values st);
               bath_range := bath_range_of env (ls_bath_values st);
               stories_range := stories_range_of (ls_sqft_values st);
               community_count := 1 |};
          amenities := [];
          homeplans := homeplans;
          homesites := ls_homesites st;
          nearbyplaces := nearbyplaces;
          collections := [] |}.

(** ** Vocabulary of the properties *)

(** The numbers the homesites of a record carry in a field. *)
Definition sqft_carried (hs : list Homesite) : list Z :=
  omap (fun h => hs_sqft h ≫= PyNum.int) hs.

Definition beds_carried (hs : list Homesite) : list Z :=
  omap (fun h => hs_beds h ≫= PyNum.int) hs.

Definition baths_carried (env : Env) (hs : list Homesite) : list float :=
  omap (fun h => hs_baths h ≫= py_float env) hs.

(** The street text of a card's [h3.street-number]: what stands before the
    first [|], stripped. *)
Definition street_text (t : string) (street : string) : Prop :=
  exists field, head (PyStr.split (PyStr.strip t) "|") = Some field /\
                street = PyStr.strip field.

(** What the loop makes of one card, as far as the properties below go. *)
Record built_from (env : Env) (lat lon : option float)
    (qmi : Card) (h : Homesite) : Prop := {
  bf_address_some : forall t, c_street qmi = Some t ->
    exists street, street_text t street /\
      hs_name h = Some street /\
      hs_address h = Some (street +:+ ", McDonough, GA");
  bf_address_none : c_street qmi = None ->
    hs_name h = None /\ hs_address h = None;
  bf_url : hs_url h = (c_link qmi ≫= id) ≫= (fun href => Some (absolute href));
  bf_link_id : forall href, c_link qmi = Some (Some href) ->
    hs_id h = (if PyStr.truthy (absolute href)
               then lot_id_of (absolute href) else None);
  bf_latitude : hs_latitude h = lat;
  bf_longitude : hs_longitude h = lon
}.

(** ["{lo} - {hi}<unit>"], or ["{lo}<unit>"] when the two do not differ *)
Definition span_text (differ : bool) (lo hi unit : string) : string :=
  if differ then lo +:+ " - " +:+ hi +:+ unit else lo +:+ unit.

Definition is_min (m : Z) (l : list Z) : Prop :=
  m ∈ l /\ forall v, v ∈ l -> (m <= v)%Z.

Definition is_max (m : Z) (l : list Z) : Prop :=
  m ∈ l /\ forall v, v ∈ l -> (v <= m)%Z.

(** A float that is a number: it is equal to itself, which NaN is not. *)
Definition is_number (x : float) : bool := PrimFloat.eqb x x.

(** [m] is a member of [l] that no member is below (above), for floats. *)
Definition is_least (m : float) (l : list float) : Prop :=
  m ∈ l /\ forall v, v ∈ l -> PrimFloat.leb m v = true.

Definition is_greatest (m : float) (l : list float) : Prop :=
  m ∈ l /\ forall v, v ∈ l -> PrimFloat.leb v m = true.

(** The integer a text denotes as a decimal numeral, in the reading of the
    standard library. *)
Definition numeral_value (s : string) : option Z :=
  Z.of_int <$> NilZero.int_of_string s.

(** The initial state of the loop over the quick move-in cards. *)
Definition loop_start (url : string) : LoopState :=
  {| ls_url := url; ls_sqft_values := []; ls_bed_values := [];
     ls_bath_values := []; ls_homesites := [] |}.

(** *** Vocabulary for the extractors *)

Fixpoint no_groups (r : Re.re) : bool :=
  match r with
  | Re.Grp _ _ => false
  | Re.Seq a b => no_groups a && no_groups b
  | Re.Alt a b => no_groups a && no_groups b
  | _ => true
  end.

(** [v] is the text of the leftmost match of [r] in [s]. *)
Definition leftmost_match (r : Re.re) (s v : list ascii) : Prop :=
  exists pre post,
    s = pre ++ v ++ post /\ Re.matches r v /\
    forall p, Re.occurs_at r s p -> length pre <= length p.

(** [v] is what the group [g] takes at the leftmost place of [s] at which
    [g] followed by [tail] matches. *)
Definition leading_group (g tail : Re.re) (s v : list ascii) : Prop :=
  exists pre rest post,
    s = pre ++ v ++ rest ++ post /\
    Re.matches g v /\ Re.matches tail rest /\
    forall p, Re.occurs_at (Re.Seq (Re.Grp 1 g) tail) s p ->
              length pre <= length p.

(** The square-footage tokens the pattern accepts, spelled out: optional
    whitespace, "sq", then nothing or "." or "uare", optional whitespace,
    "ft". *)
Definition sqft_token (rest : list ascii) : Prop :=
  exists ws1 mid ws2,
    forallb Chr.is_space ws1 = true /\ forallb Chr.is_space ws2 = true /\
    (mid = [] \/ mid = PyStr.chars "." \/ mid = PyStr.chars "uare") /\
    rest = ws1 ++ PyStr.chars "sq" ++ mid ++ ws2 ++ PyStr.chars "ft".

(** A digit-and-comma group: a non-empty run of digits and commas. *)
Definition digit_group (g : list ascii) : Prop :=
  g <> [] /\ forallb digit_or_comma g = true.

(** In [s], after [pre], stands the digit-and-comma group [g] followed by
    a square-footage token. *)
Definition sqft_occurrence (s pre g : list ascii) : Prop :=
  exists rest post,
    s = pre ++ g ++ rest ++ post /\ digit_group g /\ sqft_token rest.

(** ** Fixtures *)

Module Fixture.

(** [float] on the few literals the fixtures use *)
Definition float_of (s : string) : option float :=
  if String.eqb s "2" then Some 2%float
  else if String.eqb s "2.5" then Some 2.5%float
  else if String.eqb s "3" then Some 3%float
  else if String.eqb s "33.5" then Some 33.5%float
  else if String.eqb s "-84.25" then Some (-84.25)%float
  else None.

Definition str_of (x : float) : string :=
  if PrimFloat.eqb x 2%float then "2.0"
  else if PrimFloat.eqb x 2.5%float then "2.5"
  else if PrimFloat.eqb x 3%float then "3.0"
  else "?".

Definition listing_url : string :=
  "https://www.centurycommunities.com/find-your-new-home/georgia/atlanta-metro/mcdonough2/oakhurst-manor/".

Definition card (title : string) (link : option string) (price : option string)
    (sqft : string) (street : option string) : Card :=
  {| c_title := Some title;
     c_link := Some <$> link;
     c_price := price;
     c_beds := Some (Some "4 Beds");
     c_baths := Some (Some "2.5 Baths");
     c_sqft := Some (Some sqft);
     c_img := Some (Some "/media/plan.jpg");
     c_street := street;
     c_flags := [] |}.

Definition page (cards : list Card) : Page :=
  {| p_listing_h1 := Some (Some "Oakhurst Manor");
     p_price := Some "From $312,990";
     p_address := Some ("100 Oak St" +:+ newline +:+ "Denver, CO 80014");
     p_scripts := [];
     p_map := None;
     p_phone := None;
     p_overview := None;
     p_description := None;
     p_carousel := None;
     p_cards := cards;
     p_nearby := None |}.

Definition env (p : Page) (geo : geo_result) : Env :=
  {| now := "2024-01-01T00:00:00";
     browse := fun _ => Some p;
     floorplan_tabs := fun _ => Some [];
     gallery := fun _ => None;
     geocode := fun _ => geo;
     py_float := float_of;
     float_str := str_of |}.

(** two floor-plan cards with the same name, one move-in-ready home *)
Definition one_home : Page :=
  page [card "Avery" (Some "/homes/lot-12---avery/") (Some "$350,000")
          "1,950 sq ft" (Some "12 Elm Way | Lot 12")].

(** three move-in-ready homes of 1800, 2200 and 1800 sq ft *)
Definition three_homes : Page :=
  page [card "Avery" (Some "/homes/lot-12---avery/") (Some "$350,000")
          "1,800 sq ft" (Some "12 Elm Way | Lot 12");
        card "Birch" (Some "/homes/lot-13---birch/") (Some "$390,000")
          "2,200 sq ft" (Some "13 Elm Way | Lot 13");
        card "Cedar" (Some "/homes/lot-14---cedar/") (Some "$355,000")
          "1,800 sq ft" (Some "14 Elm Way | Lot 14")].

(** a floor-plan card without a price element *)
Definition no_price : Page :=
  page [card "Avery" (Some "/homes/lot-12---avery/") None
          "1,950 sq ft" (Some "12 Elm Way | Lot 12")].

(** two cards of the same plan, the second without a details link *)
Definition no_link : Page :=
  page [card "Avery" (Some "/homes/lot-12---avery/") (Some "$350,000")
          "1,950 sq ft" (Some "12 Elm Way | Lot 12");
        card "Avery" None (Some "$352,000")
          "1,950 sq ft" (Some "15 Elm Way | Lot 15")].

End Fixture.

(** ** The state selector ([get_city_links], lines 36-82 of the link script) *)

Module Regions.

(** One [option] element of the state selector: [option.get('value')]. *)
Definition state_option : Type := option string.

(** What loading the home page gives: [None] when loading, saving or
    parsing raised; otherwise the outcome of the lookup of the selector,
    [None] when the page has none, else the options in document order. *)
Definition root_page : Type := option (option (list state_option)).

(** the body of [for option in options] *)
Definition visit_option (city_links : list string) (opt : state_option)
    : list string :=
  match opt with
  | Some href =>
      if PyStr.truthy href && negb (String.eqb href "0") then
        let href := absolute href in
        if bool_decide (href ∈ city_links) then city_links
        else city_links ++ [href]
      else city_links
  | None => city_links
  end.

Definition get_city_links (root : root_page) : list string :=
  match root with
  | Some (Some select_options) =>
      let options := drop 1 select_options in
      fold_left visit_option options []
  | Some None => []
  | None => []
  end.

(** [main] of the link script (lines 134-158): the list written to
    [centurycommunities_links.json]; [None] when nothing is written.  The
    browser is taken to start: a failure of [setup_driver] itself is not
    modelled. *)
Definition main (root : root_page) (browser : string -> Links.region_page)
    : option (list string) :=
  let city_links := get_city_links root in
  match city_links with
  | [] => None
  | _ =>
      let community_links := Links.get_community_links browser city_links in
      match community_links with
      | [] => None
      | _ => Some community_links
      end
  end.

(** The link an option stands for, when the loop keeps it. *)
Definition option_link (opt : state_option) : option string :=
  match opt with
  | Some href =>
      if PyStr.truthy href && negb (String.eqb href "0")
      then Some (absolute href) else None
  | None => None
  end.

(** The region URLs the selector offers: the normalised values of its
    options after the first. *)
Definition offered (root : root_page) (href : string) : Prop :=
  exists select_options opt,
    root = Some (Some select_options) /\
    opt ∈ drop 1 select_options /\
    option_link opt = Some href.

End Regions.

(** ** Further vocabulary *)

(** A URL the scripts regard as complete. *)
Definition is_absolute (u : string) : Prop :=
  PyStr.startswith u "http" = true.

(** The image a carousel item of a homesite page contributes, if any. *)
Definition carousel_src (item : option (option string)) : option string :=
  match item with
  | Some (Some src) => if PyStr.truthy src then Some (absolute src) else None
  | Some None => None
  | None => None
  end.

(** The image an [img] of the main carousel stands for, if any: its
    completed [src], unless that is missing, empty or a [data:] URI. *)
Definition usable_src (img : option string) : option string :=
  match img with
  | Some src =>
      if PyStr.truthy src && negb (PyStr.startswith src "data:")
      then Some (absolute src) else None
  | None => None
  end.

(** The plan name a card shows: the stripped text of its title. *)
Definition card_name (card : Card) : option string :=
  PyStr.strip <$> c_title card.

Definition present {A} (x : option A) : bool :=
  match x with Some _ => true | None => false end.

(** The card has every element [extract_homeplans] reads without a guard
    after the title: the details link with its [href], the price, the three
    spec icons each followed by a span, and the plan image. *)
Definition plan_card_complete (card : Card) : bool :=
  present (c_link card ≫= id) && present (c_price card)
  && present (c_beds card ≫= id) && present (c_baths card ≫= id)
  && present (c_sqft card ≫= id) && present (c_img card).

(** [card] stands in [cards] after [pre], and no card of [pre] shows the
    name [name]. *)
Definition first_named (name : string) (cards pre : list Card) (card : Card)
    : Prop :=
  exists post,
    cards = pre ++ card :: post /\
    card_name card = Some name /\
    Some name ∉ map card_name pre.

(** What the loop over the quick move-in cards copies from a card into
    its homesite, the address and the identifier apart. *)
Record shown_as (env : Env) (qmi : Card) (h : Homesite) : Prop := {
  sa_plan : hs_plan h = card_name qmi;
  sa_price : hs_price h = PyStr.strip <$> c_price qmi;
  sa_status : hs_status h = "Move-in Ready";
  sa_image_url : hs_image_url h = image_field qmi;
  sa_overview : hs_overview h = overview_field qmi;
  sa_href : c_link qmi <> Some None;
  sa_url : hs_url h = absolute <$> (c_link qmi ≫= id);
  sa_images_linked : forall href, c_link qmi = Some (Some href) ->
    hs_images h = get_homesite_images env (absolute href);
  sa_images_unlinked : c_link qmi = None ->
    hs_images h = option_list (image_field qmi)
}.

(** A field that holds a complete URL, when it holds one. *)
Definition absolute_if_any (u : option string) : Prop :=
  match u with Some u => is_absolute u | None => True end.

(** Every link of a floor plan is complete; the plan image may be the
    empty string, which stands for a missing [src]. *)
Definition plan_links_absolute (hp : Homeplan) : Prop :=
  is_absolute (hp_url hp) /\
  (hd_image_url (hp_details hp) = "" \/
   is_absolute (hd_image_url (hp_details hp))) /\
  Forall (fun fi => is_absolute (fi_image_url fi)) (hp_floorplan_images hp).

(** Every link of a homesite is complete, and it has at most twelve
    images. *)
Definition homesite_links_absolute (h : Homesite) : Prop :=
  absolute_if_any (hs_url h) /\
  absolute_if_any (hs_image_url h) /\
  Forall is_absolute (hs_images h) /\
  length (hs_images h) <= 12.

(** A text without whitespace at either end. *)
Definition stripped (s : string) : Prop := PyStr.strip s = s.

Definition stripped_if_any (o : option string) : Prop :=
  match o with Some s => stripped s | None => True end.

(** A nearby place as the code records it: a name, a category, and
    nothing else. *)
Definition plain_place (category_name place_name : string) : NearbyPlace :=
  {| np_name := place_name; np_category := category_name;
     np_distance := None; np_rating := None; np_reviews := None |}.

Definition place_well_formed (n : NearbyPlace) : Prop :=
  np_name n <> "" /\ stripped (np_name n) /\ stripped (np_category n) /\
  np_distance n = None /\ np_rating n = None /\ np_reviews n = None.

(** The texts of a floor plan are stripped. *)
Definition plan_texts_stripped (hp : Homeplan) : Prop :=
  stripped (hp_name hp) /\
  stripped (hd_price (hp_details hp)) /\ stripped (hd_beds (hp_details hp)) /\
  stripped (hd_baths (hp_details hp)) /\ stripped (hd_sqft (hp_details hp)).

(** The texts of a homesite that are copied from the card are stripped. *)
Definition homesite_texts_stripped (h : Homesite) : Prop :=
  stripped_if_any (hs_name h) /\ stripped_if_any (hs_plan h) /\
  stripped_if_any (hs_price h).

(** ** A page with every optional part *)

Module Sample.

Definition page : Page :=
  {| p_listing_h1 :=
       Some (Some (newline +:+ "  Oakhurst Manor " +:+ newline +:+ "McDonough"));
     p_price := Some " From $312,990 ";
     p_address := Some ("100 Oak St" +:+ newline +:+ "McDonough, GA 30253");
     p_scripts := [None; Some "var zoom = 12;"];
     p_map := None;
     p_phone := Some (Some " 770-555-0100 ");
     p_overview := Some (Some ("  A  quiet" +:+ newline +:+ " community. "));
     p_description := Some (Some "Homes near the lake.");
     p_carousel :=
       Some [None; Some "data:image/gif;base64,R0"; Some "/media/main.jpg"];
     p_cards := p_cards Fixture.no_link;
     p_nearby :=
       Some [ {| ns_heading := Some (Some " Schools ");
                 ns_places :=
                   Some ["Oak Elementary"; nbsp; "  "; " Pine High "] |};
              {| ns_heading := None; ns_places := Some ["Lake Park"] |};
              {| ns_heading := Some (Some "Dining"); ns_places := None |} ] |}.

Definition env : Env :=
  {| now := "2024-01-01T00:00:00";
     browse := fun _ => Some page;
     floorplan_tabs := fun _ =>
       Some [ {| tab_text := " First Floor ";
                 tab_img := Some (Some "/media/first.png") |};
              {| tab_text := "Options"; tab_img := Some (Some "/media/o.png") |};
              {| tab_text := "Second Floor"; tab_img := None |} ];
     gallery := fun _ =>
       Some [Some (Some "/media/g1.jpg"); Some None; None;
             Some (Some "https://cdn.example.com/g2.jpg")];
     geocode := fun _ => GeoNotFound;
     py_float := Fixture.float_of;
     float_str := Fixture.str_of |}.

End Sample.

(** *** The values the extractors return *)

(** A dollar sign followed by digits and commas. *)
Definition price_shaped (v : string) : Prop :=
  exists amount, PyStr.chars v = "$"%char :: amount /\ digit_group amount.

(** Digits only, possibly none. *)
Definition digits_only (v : list ascii) : Prop :=
  forallb Chr.is_digit v = true.

(** A text with no more characters than [int] accepts digits. *)
Definition within_digit_limit (v : string) : Prop :=
  (N.of_nat (length (PyStr.chars v)) <= PyNum.max_str_digits)%N.

(** A text [int] reads as a number that is not negative. *)
Definition reads_as_natural (v : string) : Prop :=
  exists n, PyNum.int v = Some n /\ (0 <= n)%Z.

(** Digits, optionally followed by a point and more digits. *)
Definition decimal_shaped (v : string) : Prop :=
  exists whole frac,
    PyStr.chars v = whole ++ frac /\
    whole <> [] /\ digits_only whole /\
    (frac = [] \/
     exists after, frac = "."%char :: after /\ after <> [] /\ digits_only after).

(** One spec line of a card and the homesite's value for it: without the
    icon there is no value; with it, the span after it exists, the first
    word of its stripped text, passed through [clean], is the value, and
    [parse] reads that value. *)
Definition spec_read {N : Type} (parse : string -> option N)
    (clean : string -> string) (elem : option (option string))
    (value : option string) : Prop :=
  match elem with
  | None => value = None
  | Some span =>
      exists t word,
        span = Some t /\
        first_word (PyStr.strip t) = Some word /\
        value = Some (clean word) /\
        is_Some (parse (clean word))
  end.

Definition specs_read (env : Env) (qmi : Card) (h : Homesite) : Prop :=
  spec_read PyNum.int id (c_beds qmi) (hs_beds h) /\
  spec_read (py_float env) id (c_baths qmi) (hs_baths h) /\
  spec_read PyNum.int (PyStr.remove_chr ",") (c_sqft qmi) (hs_sqft h).

Module Unaddressed.

(** the sample page without its address element, but with a map *)
Definition page : Page :=
  {| p_listing_h1 := p_listing_h1 Sample.page;
     p_price := p_price Sample.page;
     p_address := None;
     p_scripts := [Some "latitude: 33.5, longitude: -84.25"];
     p_map := Some ("33.5", "-84.25");
     p_phone := p_phone Sample.page;
     p_overview := p_overview Sample.page;
     p_description := p_description Sample.page;
     p_carousel := p_carousel Sample.page;
     p_cards := p_cards Sample.page;
     p_nearby := p_nearby Sample.page |}.

Definition env : Env :=
  {| now := now Sample.env;
     browse := fun _ => Some page;
     floorplan_tabs := floorplan_tabs Sample.env;
     gallery := gallery Sample.env;
     geocode := fun _ => GeoFound 33.5%float (-84.25)%float;
     py_float := py_float Sample.env;
     float_str := float_str Sample.env |}.

End Unaddressed.

(** [re.sub(r',+', ',', address).strip()] (line 31): the address as the
    geocoding service gets it. *)
Definition clean_address (address : string) : string :=
  PyStr.strip (PyStr.text (collapse_commas (PyStr.chars address) false)).

(** ** Pages whose homes differ in bedrooms and bathrooms *)

Module Varied.

(** [float] and [f"{x}"] of [Fixture], together with [nan] *)
Definition float_of (s : string) : option float :=
  if String.eqb s "nan" then Some PrimFloat.nan else Fixture.float_of s.

Definition str_of (x : float) : string :=
  if PrimFloat.eqb x x then Fixture.str_of x else "nan".

Definition card (title href beds baths sqft : string) : Card :=
  {| c_title := Some title;
     c_link := Some (Some href);
     c_price := Some "$350,000";
     c_beds := Some (Some beds);
     c_baths := Some (Some baths);
     c_sqft := Some (Some sqft);
     c_img := Some (Some "/media/plan.jpg");
     c_street := Some "12 Elm Way | Lot 12";
     c_flags := [] |}.

Definition env (p : Page) : Env :=
  {| now := "2024-01-01T00:00:00";
     browse := fun _ => Some p;
     floorplan_tabs := fun _ => Some [];
     gallery := fun _ => None;
     geocode := fun _ => GeoNotFound;
     py_float := float_of;
     float_str := str_of |}.

(** three homes of 3, 4, 3 bedrooms and 2, 3, 2.5 bathrooms *)
Definition three_homes : Page :=
  Fixture.page
    [card "Avery" "/homes/lot-12---avery/" "3 Beds" "2 Baths" "1,800 sq ft";
     card "Birch" "/homes/lot-13---birch/" "4 Beds" "3 Baths" "2,200 sq ft";
     card "Cedar" "/homes/lot-14---cedar/" "3 Beds" "2.5 Baths" "1,800 sq ft"].

(** one home whose bathrooms read [nan] *)
Definition nan_home : Page :=
  Fixture.page
    [card "Avery" "/homes/lot-12---avery/" "3 Beds" "nan Baths" "1,800 sq ft"].

(** the first of three homes reads [nan], the others 2 and 3 bathrooms *)
Definition nan_first : Page :=
  Fixture.page
    [card "Avery" "/homes/lot-12---avery/" "3 Beds" "nan Baths" "1,800 sq ft";
     card "Birch" "/homes/lot-13---birch/" "4 Beds" "2 Baths" "2,200 sq ft";
     card "Cedar" "/homes/lot-14---cedar/" "3 Beds" "3 Baths" "1,800 sq ft"].

End Varied.

(** * Properties *)

(** ** Sanity checks of the string helpers *)

Example split_slash :
  PyStr.split "https://x.com/a/lot7---main-st/" "/"
  = ["https:"; ""; "x.com"; "a"; "lot7---main-st"; ""].
Proof. reflexivity. Qed.

Example split_dashes :
  PyStr.split "lot7---main-st---x" "---" = ["lot7"; "main-st"; "x"].
Proof. reflexivity. Qed.

Example split_ws_ex : PyStr.split_ws "  3   Beds " = ["3"; "Beds"].
Proof. reflexivity. Qed.

Example strip_ex : PyStr.strip "  a b  " = "a b".
Proof. reflexivity. Qed.

(** [int] refuses a literal of more than 4300 digits, its leading zeros
    counted, its sign, underscores and surrounding whitespace not. *)
Example int_limit :
  PyNum.int (PyStr.text (repeat "1"%char 4301)) = None /\
  PyNum.int (PyStr.text (repeat "0"%char 4301)) = None /\
  PyNum.int " -12_000 " = Some (-12000)%Z /\
  PyNum.int "1__2" = None.
Proof. vm_compute. repeat split. Qed.

(** ** The matcher against the language of a pattern *)

Module ReFacts.
Import Re.

Lemma take_consumed {A} (u s' : list A) :
  take (length (u ++ s') - length s') (u ++ s') = u.
Proof.
  rewrite length_app, Nat.add_sub. apply take_app_length.
Qed.

Lemma cmatch_matches r u c c' : cmatch r u c c' -> matches r u.
Proof. induction 1; eauto using matches. Qed.

Section Run.
Context {A : Type}.
Implicit Types (k : list ascii -> caps -> option A).

Lemma star_sound p s (k : list ascii -> option A) x :
    star p s k = Some x ->
    exists u s', s = u ++ s' /\ forallb p u = true /\ k s' = Some x.
  Proof.
    induction s as [|a s IH]; simpl; intros H.
    - exists [], []. auto.
    - destruct (p a) eqn:Hp.
      + destruct (star p s k) as [y|] eqn:Hs.
        * injection H as ->. destruct (IH eq_refl) as (u & s' & -> & Hu & Hk).
          exists (a :: u), s'. simpl. rewrite Hp, Hu. auto.
        * exists [], (a :: s). auto.
      + exists [], (a :: s). auto.
  Qed.

Lemma star_here p s (k : list ascii -> option A) :
    is_Some (k s) -> is_Some (star p s k).
  Proof.
    destruct s as [|a s]; simpl; [done|]. intros Hk.
    destruct (p a); [|done]. destruct (star p s k); eauto.
  Qed.

Lemma star_complete p u s' (k : list ascii -> option A) :
    forallb p u = true -> is_Some (k s') -> is_Some (star p (u ++ s') k).
  Proof.
    induction u as [|a u IH]; simpl; intros Hu Hk.
    - by apply star_here.
    - apply andb_true_iff in Hu as [-> Hu].
      destruct (IH Hu Hk) as [y ->]. eauto.
  Qed.

Lemma run_sound r : forall s c k x,
    run r s c k = Some x ->
    exists u s' c', s = u ++ s' /\ cmatch r u c c' /\ k s' c' = Some x.
  Proof.
    induction r as [p| |r1 IH1 r2 IH2|r1 IH1 r2 IH2|p|n r1 IH1];
      simpl; intros s c k x H.
    - destruct s as [|a s]; [done|]. destruct (p a) eqn:Hp; [|done].
      exists [a], s, c. eauto using cmatch.
    - exists [], s, c. eauto using cmatch.
    - apply IH1 in H as (u1 & s1 & c1 & -> & H1 & H).
      apply IH2 in H as (u2 & s2 & c2 & -> & H2 & H).
      exists (u1 ++ u2), s2, c2. rewrite <- app_assoc. eauto using cmatch.
    - destruct (run r1 s c k) as [y|] eqn:Hr1.
      + injection H as ->. apply IH1 in Hr1 as (u & s' & c' & ? & ? & ?).
        exists u, s', c'. eauto using cmatch.
      + apply IH2 in H as (u & s' & c' & ? & ? & ?).
        exists u, s', c'. eauto using cmatch.
    - apply star_sound in H as (u & s' & -> & Hu & Hk).
      exists u, s', c. eauto using cmatch.
    - apply IH1 in H as (u & s' & c' & -> & H1 & H).
      rewrite take_consumed in H.
      exists u, s', ((n, u) :: c'). eauto using cmatch.
  Qed.

Lemma run_complete r u :
    matches r u ->
    forall s' c k, (forall c', is_Some (k s' c')) ->
    is_Some (run r (u ++ s') c k).
  Proof.
    induction 1 as [p a Hp| |r1 r2 u1 u2 _ IH1 _ IH2|r1 r2 u _ IH
                   |r1 r2 u _ IH|p u Hu|n r u _ IH];
      simpl; intros s' c k Hk.
    - rewrite Hp. apply Hk.
    - apply Hk.
    - rewrite <- app_assoc. apply IH1. intros c'. by apply IH2.
    - destruct (IH s' c k Hk) as [y ->]. eauto.
    - destruct (run r1 (u ++ s') c k); eauto.
    - apply star_complete; [done|]. apply Hk.
    - apply IH. intros c'. apply Hk.
  Qed.
End Run.

Lemma match_at_sound r s s' c :
  match_at r s = Some (s', c) ->
  exists u, s = u ++ s' /\ cmatch r u [] c.
Proof.
  unfold match_at. intros H.
  apply run_sound in H as (u & s1 & c1 & -> & Hm & [= -> ->]). eauto.
Qed.

Lemma match_at_none r s : match_at r s = None -> ~ occurs_at r s [].
Proof.
  intros H (u & post & -> & Hm). simpl in H.
  destruct (run_complete r u Hm post [] (fun s' c => Some (s', c))) as [y Hy].
  - intros c'. eauto.
  - unfold match_at in H. congruence.
Qed.

Lemma occurs_at_cons r a s p :
  occurs_at r (a :: s) (a :: p) <-> occurs_at r s p.
Proof.
  split; intros (u & post & E & Hm); exists u, post; split; auto.
  - simpl in E. congruence.
  - simpl. congruence.
Qed.

Lemma occurs_at_head r a s p : occurs_at r (a :: s) p ->
  p = [] \/ exists p', p = a :: p' /\ occurs_at r s p'.
Proof.
  intros H. destruct p as [|b p]; [by left|right].
  destruct H as (u & post & E & Hm). injection E as <- E.
  exists p. split; [done|]. by exists u, post.
Qed.

(** What [search] returns: a match of the pattern, at the leftmost offset
    at which the pattern matches at all. *)
Lemma search_from_sound r : forall s b m,
  search_from r b s = Some m ->
  exists pre,
    m_before m = rev b ++ pre /\
    s = pre ++ m_whole m ++ m_after m /\
    cmatch r (m_whole m) [] (m_groups m) /\
    forall p, occurs_at r s p -> length pre <= length p.
Proof.
  induction s as [|a s IH]; intros b m; cbn [search_from].
  - destruct (match_at r []) as [[s' c]|] eqn:Hm; [|done].
    intros [= <-]. cbn [m_before m_whole m_groups m_after].
    apply match_at_sound in Hm as (u & E & Hc).
    exists []. rewrite app_nil_r. split; [done|].
    symmetry in E. apply app_eq_nil in E as [-> ->].
    simpl. repeat split; auto. intros p _. simpl. lia.
  - destruct (match_at r (a :: s)) as [[s' c]|] eqn:Hm.
    + intros [= <-]. cbn [m_before m_whole m_groups m_after].
      apply match_at_sound in Hm as (u & E & Hc).
      exists []. rewrite app_nil_r. split; [done|].
      change (S (length s)) with (length (a :: s)).
      rewrite E, take_consumed. simpl. repeat split; auto.
      intros p _. lia.
    + intros H. apply IH in H as (pre & E1 & E2 & Hc & Hleft).
      exists (a :: pre). simpl in E1. rewrite <- app_assoc in E1.
      split; [done|]. split; [simpl; congruence|]. split; [done|].
      intros p Hp. destruct (occurs_at_head _ _ _ _ Hp) as [->|(p' & -> & Hp')].
      * by apply match_at_none in Hm.
      * simpl. apply Hleft in Hp'. lia.
Qed.

Lemma search_from_none r : forall s b,
  search_from r b s = None -> ~ occurs r s.
Proof.
  induction s as [|a s IH]; intros b; simpl.
  - destruct (match_at r []) as [[s' c]|] eqn:Hm; [done|].
    intros _ (p & Hp). apply match_at_none in Hm. apply Hm.
    destruct Hp as (u & post & E & Hu).
    destruct p; [|done]. by exists u, post.
  - destruct (match_at r (a :: s)) as [[s' c]|] eqn:Hm; [done|].
    intros H (p & Hp). destruct (occurs_at_head _ _ _ _ Hp) as [->|(p' & -> & Hp')].
    + by apply match_at_none in Hm.
    + apply (IH _ H). by exists p'.
Qed.

Lemma search_none_iff r s :
  search r s = None <-> ~ occurs r (PyStr.chars s).
Proof.
  split; [apply search_from_none|].
  intros Hno. destruct (search r s) as [m|] eqn:Hs; [|done].
  exfalso. apply Hno. apply search_from_sound in Hs as (pre & _ & E & Hc & _).
  exists pre, (m_whole m), (m_after m). eauto using cmatch_matches.
Qed.

End ReFacts.

(** ** [min] and [max] over integers *)

Module NumFacts.
Import PyNum.

Lemma min_from_Z l : forall x,
  min_from Z.ltb x l ∈ x :: l /\
  forall v, v ∈ x :: l -> (min_from Z.ltb x l <= v)%Z.
Proof.
  induction l as [|y l IH]; intros x; simpl.
  - split; [left|]. intros v Hv%list_elem_of_singleton. lia.
  - destruct (IH (if (y <? x)%Z then y else x)) as [Hin Hle].
    fold (min_from Z.ltb (if (y <? x)%Z then y else x) l) in *.
    split.
    + apply elem_of_cons in Hin as [->|Hin].
      * destruct (y <? x)%Z; [right; left|left].
      * right; by right.
    + intros v Hv.
      assert (Hm : (min_from Z.ltb (if (y <? x)%Z then y else x) l
                    <= (if (y <? x)%Z then y else x))%Z)
        by (apply Hle; left).
      apply elem_of_cons in Hv as [Hv|Hv].
      * destruct (Z.ltb_spec y x); lia.
      * apply elem_of_cons in Hv as [Hv|Hv].
        -- destruct (Z.ltb_spec y x); lia.
        -- apply Hle. by right.
Qed.

Lemma max_from_Z l : forall x,
  max_from Z.ltb x l ∈ x :: l /\
  forall v, v ∈ x :: l -> (v <= max_from Z.ltb x l)%Z.
Proof.
  induction l as [|y l IH]; intros x; simpl.
  - split; [left|]. intros v Hv%list_elem_of_singleton. lia.
  - destruct (IH (if (x <? y)%Z then y else x)) as [Hin Hle].
    fold (max_from Z.ltb (if (x <? y)%Z then y else x) l) in *.
    split.
    + apply elem_of_cons in Hin as [->|Hin].
      * destruct (x <? y)%Z; [right; left|left].
      * right; by right.
    + intros v Hv.
      assert (Hm : ((if (x <? y)%Z then y else x)
                    <= max_from Z.ltb (if (x <? y)%Z then y else x) l)%Z)
        by (apply Hle; left).
      apply elem_of_cons in Hv as [Hv|Hv].
      * destruct (Z.ltb_spec x y); lia.
      * apply elem_of_cons in Hv as [Hv|Hv].
        -- destruct (Z.ltb_spec x y); lia.
        -- apply Hle. by right.
Qed.

End NumFacts.

(** ** The loop over the quick move-in cards *)

Module LoopFacts.

Lemma spec_field_inv {N} (parse : string -> option N) clean elem values o values' :
  spec_field parse clean elem values = Some (o, values') ->
  values' = values ++ option_list (o ≫= parse) /\
  (elem = None -> o = None).
Proof.
  unfold spec_field, spec_value. intros H.
  destruct elem as [span|];
    [|simplify_eq; simpl; by rewrite app_nil_r].
  destruct span as [t|]; [|done].
  destruct (first_word (PyStr.strip t)) as [word|]; [|done].
  destruct (parse (clean word)) as [n|] eqn:Hn; [|done].
  simplify_eq. simpl. rewrite Hn. by split.
Qed.

Lemma street_field_inv qmi o :
  street_field qmi = Some o ->
  match c_street qmi with
  | Some t => exists street, street_text t street /\ o = Some street
  | None => o = None
  end.
Proof.
  unfold street_field, street_text. destruct (c_street qmi) as [t|].
  - destruct (head _) as [field|] eqn:Hf; [|done]. intros [= <-]. eauto.
  - by intros [= <-].
Qed.

Lemma link_field_inv env url image qmi url' hs_url' imgs :
  link_field env url image qmi = Some (url', hs_url', imgs) ->
  hs_url' = (c_link qmi ≫= id) ≫= (fun href => Some (absolute href)) /\
  (forall href, c_link qmi = Some (Some href) -> url' = absolute href) /\
  (c_link qmi = None -> url' = url).
Proof.
  unfold link_field. destruct (c_link qmi) as [[href|]|]; [| done |].
  - intros [= <- <- <-]. repeat split; [|done]. by intros ? [= <-].
  - intros [= <- <- <-]. by repeat split.
Qed.

Lemma homesite_step_inv env lat lon st qmi st' :
  homesite_step env lat lon st qmi = Some st' ->
  exists h,
    ls_homesites st' = ls_homesites st ++ [h] /\
    ls_sqft_values st' = ls_sqft_values st ++ sqft_carried [h] /\
    ls_bed_values st' = ls_bed_values st ++ beds_carried [h] /\
    ls_bath_values st' = ls_bath_values st ++ baths_carried env [h] /\
    built_from env lat lon qmi h.
Proof.
  unfold homesite_step. intros H. cbv zeta in H.
  destruct (street_field qmi) as [full_address|] eqn:Hstreet; [|done].
  destruct (spec_field PyNum.int id _ _) as [[beds bedv]|] eqn:Hbeds; [|done].
  destruct (spec_field (py_float env) id _ _) as [[baths bathv]|] eqn:Hbaths;
    [|done].
  destruct (spec_field PyNum.int (PyStr.remove_chr ",") _ _)
    as [[sqft sqftv]|] eqn:Hsqft; [|done].
  destruct (link_field _ _ _ _) as [[[url' hs_url'] imgs]|] eqn:Hlink; [|done].
  destruct (lot_field _) as [lot|] eqn:Hlot; [|done].
  injection H as <-. simpl in *.
  apply spec_field_inv in Hbeds as [-> _], Hbaths as [-> _], Hsqft as [-> _].
  apply street_field_inv in Hstreet.
  apply link_field_inv in Hlink as (Hurl & Hhref & _).
  eexists. split; [reflexivity|].
  unfold sqft_carried, beds_carried, baths_carried. simpl.
  split; [by destruct (sqft ≫= PyNum.int)|].
  split; [by destruct (beds ≫= PyNum.int)|].
  split; [by destruct (baths ≫= py_float env)|].
  split; simpl; try done.
  - intros t Ht. rewrite Ht in Hstreet.
    destruct Hstreet as (street & Hst & ->). eauto.
  - intros Hnone. rewrite Hnone in Hstreet. by subst.
  - intros href Hh. rewrite (Hhref _ Hh) in Hlot.
    unfold lot_field in Hlot. destruct (PyStr.truthy (absolute href)).
    + destruct (lot_id_of (absolute href)); by simplify_eq.
    + by simplify_eq.
Qed.

Lemma carried_cons {N} (f : Homesite -> option N) h hs :
  omap f (h :: hs) = omap f [h] ++ omap f hs.
Proof. simpl. by destruct (f h). Qed.

Lemma homesites_loop_inv env lat lon cards : forall st st',
  homesites_loop env lat lon cards st = Some st' ->
  exists hs,
    ls_homesites st' = ls_homesites st ++ hs /\
    ls_sqft_values st' = ls_sqft_values st ++ sqft_carried hs /\
    ls_bed_values st' = ls_bed_values st ++ beds_carried hs /\
    ls_bath_values st' = ls_bath_values st ++ baths_carried env hs /\
    Forall2 (built_from env lat lon) cards hs.
Proof.
  induction cards as [|qmi rest IH]; intros st st'; simpl.
  - intros [= <-]. exists []. rewrite !app_nil_r. repeat split. constructor.
  - destruct (homesite_step env lat lon st qmi) as [st1|] eqn:Hstep; [|done].
    intros Hrest.
    apply homesite_step_inv in Hstep as (h & Hh & Hs & Hb & Ha & Hbuilt).
    apply IH in Hrest as (hs & Hhs & Hs' & Hb' & Ha' & Hall).
    exists (h :: hs).
    unfold sqft_carried, beds_carried, baths_carried in *.
    rewrite !(carried_cons _ h hs), !app_assoc.
    rewrite Hhs, Hs', Hb', Ha', Hh, Hs, Hb, Ha, <- !app_assoc.
    repeat split. by constructor.
Qed.

(** What a successful [fetch_page] went through. *)
Lemma fetch_page_inv env url r :
  fetch_page env url = Some r ->
  exists p a,
    browse env url = Some p /\
    location_of env p = Some (a, location r) /\
    address r = a /\
    Forall2 (built_from env (latitude (location r)) (longitude (location r)))
      (p_cards p) (homesites r) /\
    sqft_range (details r) = sqft_range_of (sqft_carried (homesites r)) /\
    bed_range (details r) = bed_range_of (beds_carried (homesites r)) /\
    bath_range (details r)
      = bath_range_of env (baths_carried env (homesites r)) /\
    stories_range (details r) = stories_range_of (sqft_carried (homesites r)).
Proof.
  unfold fetch_page. intros H.
  destruct (PyStr.second_last _) as [community_name|]; [|done].
  destruct (browse env url) as [p|]; [|done].
  destruct (community_name_of p) as [nm|]; [|done].
  destruct (location_of env p) as [[a loc]|] eqn:Hloc; [|done].
  destruct (phone_of p) as [ph|]; [|done].
  destruct (extract_homeplans env p) as [plans|]; [|done].
  destruct (homesites_loop _ _ _ _ _) as [st|] eqn:Hloop; [|done].
  destruct (nearby_places p) as [near|]; [|done].
  injection H as <-. simpl.
  apply homesites_loop_inv in Hloop as (hs & Hhs & Hs & Hb & Ha & Hall).
  simpl in *. subst. rewrite Hs, Hb, Ha.
  exists p, a. by repeat split.
Qed.

End LoopFacts.

(** ** Order of the floats that are numbers *)

Module FloatFacts.
Import SpecFloat PyNum.

Ltac sf_compare :=
  repeat match goal with
         | H : context [Z.compare ?a ?b] |- _ => destruct (Z.compare_spec a b)
         | |- context [Z.compare ?a ?b] => destruct (Z.compare_spec a b)
         | H : context [Pos.compare_cont Eq ?a ?b] |- _ =>
             change (Pos.compare_cont Eq a b) with (Pos.compare a b) in *;
             destruct (Pos.compare_spec a b)
         | |- context [Pos.compare_cont Eq ?a ?b] =>
             change (Pos.compare_cont Eq a b) with (Pos.compare a b) in *;
             destruct (Pos.compare_spec a b)
         end;
  simpl in *; try done; try lia.

Ltac sf_cases :=
  unfold SFeqb, SFltb, SFleb, SFcompare;
  repeat match goal with
         | x : spec_float |- _ => destruct x as [[]|[]| |[] ? ?]
         end;
  simpl; try done; intros; sf_compare.

Lemma SFleb_refl a : SFeqb a a = true -> SFleb a a = true.
Proof. revert a. intros a. sf_cases. Qed.

Lemma SFleb_total a b :
  SFeqb a a = true -> SFeqb b b = true -> SFltb b a = false -> SFleb a b = true.
Proof. sf_cases. Qed.

Lemma SFlt_le_trans a b c :
  SFltb a b = true -> SFleb b c = true -> SFleb a c = true.
Proof. sf_cases. Qed.

Lemma SFle_trans a b c :
  SFleb a b = true -> SFleb b c = true -> SFleb a c = true.
Proof. sf_cases. Qed.

Lemma SFle_lt_trans a b c :
  SFleb a b = true -> SFltb b c = true -> SFleb a c = true.
Proof. sf_cases. Qed.

Lemma leb_refl x : is_number x = true -> PrimFloat.leb x x = true.
Proof. unfold is_number. rewrite FloatAxioms.eqb_spec, FloatAxioms.leb_spec. apply SFleb_refl. Qed.

Lemma leb_total x y :
  is_number x = true -> is_number y = true ->
  PrimFloat.ltb y x = false -> PrimFloat.leb x y = true.
Proof.
  unfold is_number. rewrite !FloatAxioms.eqb_spec, FloatAxioms.ltb_spec, FloatAxioms.leb_spec. apply SFleb_total.
Qed.

Lemma lt_le_trans x y z :
  PrimFloat.ltb x y = true -> PrimFloat.leb y z = true ->
  PrimFloat.leb x z = true.
Proof.
  rewrite FloatAxioms.ltb_spec, !FloatAxioms.leb_spec. apply SFlt_le_trans.
Qed.

Lemma le_lt_trans x y z :
  PrimFloat.leb x y = true -> PrimFloat.ltb y z = true ->
  PrimFloat.leb x z = true.
Proof.
  rewrite FloatAxioms.ltb_spec, !FloatAxioms.leb_spec. apply SFle_lt_trans.
Qed.

Lemma le_trans x y z :
  PrimFloat.leb x y = true -> PrimFloat.leb y z = true ->
  PrimFloat.leb x z = true.
Proof. rewrite !FloatAxioms.leb_spec. apply SFle_trans. Qed.

(** The builtins choose a member of the list, whatever the values. *)
Lemma min_from_elem {A} (lt : A -> A -> bool) l : forall x,
  min_from lt x l ∈ x :: l.
Proof.
  unfold min_from. induction l as [|y l IH]; intros x; simpl; [by left|].
  destruct (lt y x).
  - right. apply IH.
  - specialize (IH x). apply elem_of_cons in IH as [->|?]; [by left|].
    by right; right.
Qed.

Lemma max_from_elem {A} (lt : A -> A -> bool) l : forall x,
  max_from lt x l ∈ x :: l.
Proof.
  unfold max_from. induction l as [|y l IH]; intros x; simpl; [by left|].
  destruct (lt x y).
  - right. apply IH.
  - specialize (IH x). apply elem_of_cons in IH as [->|?]; [by left|].
    by right; right.
Qed.

(** On numbers, [min] gives a lower bound and [max] an upper bound. *)
Lemma min_from_float l : forall x,
  is_number x = true -> forallb is_number l = true ->
  PrimFloat.leb (min_from PrimFloat.ltb x l) x = true /\
  forall v, v ∈ l -> PrimFloat.leb (min_from PrimFloat.ltb x l) v = true.
Proof.
  unfold min_from. induction l as [|y l IH]; intros x Hx Hl; simpl.
  - split; [by apply leb_refl|]. by intros v ?%elem_of_nil.
  - simpl in Hl. apply andb_true_iff in Hl as [Hy Hl].
    destruct (PrimFloat.ltb y x) eqn:Hlt.
    + destruct (IH y Hy Hl) as [Hm Hall]. split.
      * eapply le_lt_trans; eauto.
      * intros v [->|Hv]%elem_of_cons; auto.
    + destruct (IH x Hx Hl) as [Hm Hall]. split; [done|].
      intros v [->|Hv]%elem_of_cons; [|auto].
      eapply le_trans; [exact Hm|]. by apply leb_total.
Qed.

Lemma max_from_float l : forall x,
  is_number x = true -> forallb is_number l = true ->
  PrimFloat.leb x (max_from PrimFloat.ltb x l) = true /\
  forall v, v ∈ l -> PrimFloat.leb v (max_from PrimFloat.ltb x l) = true.
Proof.
  unfold max_from. induction l as [|y l IH]; intros x Hx Hl; simpl.
  - split; [by apply leb_refl|]. by intros v ?%elem_of_nil.
  - simpl in Hl. apply andb_true_iff in Hl as [Hy Hl].
    destruct (PrimFloat.ltb x y) eqn:Hlt.
    + destruct (IH y Hy Hl) as [Hm Hall]. split.
      * eapply le_trans; [|exact Hm]. eapply lt_le_trans; [exact Hlt|].
        by apply leb_refl.
      * intros v [->|Hv]%elem_of_cons; auto.
    + destruct (IH x Hx Hl) as [Hm Hall]. split; [done|].
      intros v [->|Hv]%elem_of_cons; [|auto].
      eapply le_trans; [|exact Hm]. by apply leb_total.
Qed.

End FloatFacts.

(** ** Decimal numerals *)

Module NumeralFacts.
Import PyNum.

Lemma to_uint_nonnil p : Pos.to_uint p <> Decimal.Nil.
Proof. apply DecimalPos.Unsigned.to_uint_nonnil. Qed.

Lemma format_int_numeral n :
  format_int n = NilZero.string_of_int (Z.to_int n).
Proof.
  unfold format_int, sign, digits, PyStr.text, PyStr.chars.
  destruct n as [|p|p]; simpl.
  - reflexivity.
  - by rewrite string_of_list_ascii_of_string.
  - by rewrite string_of_list_ascii_of_string.
Qed.

Lemma format_int_value n : numeral_value (format_int n) = Some n.
Proof.
  unfold numeral_value. rewrite format_int_numeral, NilZero.isi.
  - simpl. by rewrite DecimalZ.of_to.
  - destruct n; simpl; try done. intros [= H]. by apply to_uint_nonnil in H.
  - destruct n; simpl; try done. intros [= H]. by apply to_uint_nonnil in H.
Qed.

Lemma uint_chars d c :
  c ∈ PyStr.chars (NilEmpty.string_of_uint d) -> Chr.eqb c "," = false.
Proof.
  unfold PyStr.chars.
  induction d as [|d IH|d IH|d IH|d IH|d IH|d IH|d IH|d IH|d IH|d IH]; simpl;
    [by intros ?%elem_of_nil|..];
    (intros [->|?]%elem_of_cons; [reflexivity|by apply IH]).
Qed.

Lemma digits_no_comma n c : c ∈ digits n -> Chr.eqb c "," = false.
Proof.
  unfold digits, NilZero.string_of_uint.
  destruct (N.to_uint _) eqn:E; try (rewrite <- E; apply uint_chars).
  simpl. by intros ->%list_elem_of_singleton.
Qed.

Lemma sign_no_comma n c : c ∈ sign n -> Chr.eqb c "," = false.
Proof.
  unfold sign. destruct (n <? 0)%Z; [|by intros ?%elem_of_nil].
  by intros ->%list_elem_of_singleton.
Qed.

Local Abbreviation plain := (fun c : ascii => Chr.eqb c "," = false).

Lemma filter_plain l : Forall plain l -> filter plain l = l.
Proof.
  induction 1 as [|c l Hc _ IH]; [done|].
  rewrite filter_cons, decide_True by done. by rewrite IH.
Qed.

Lemma commas_rev_plain l : forall k,
  Forall plain l -> filter plain (commas_rev l k) = l.
Proof.
  induction l as [|d l IH]; intros k Hl; [done|].
  apply Forall_cons in Hl as [Hd Hl]. cbn [commas_rev].
  destruct k as [|k].
  - rewrite filter_cons, decide_False by done.
    rewrite filter_cons, decide_True by done. by rewrite IH.
  - rewrite filter_cons, decide_True by done. by rewrite IH.
Qed.

Lemma filter_rev_plain l : filter plain (rev l) = rev (filter plain l).
Proof.
  induction l as [|c l IH]; [done|]. simpl.
  rewrite filter_app, IH, !filter_cons, filter_nil.
  destruct (decide (Chr.eqb c "," = false)); simpl; [done|].
  by rewrite app_nil_r.
Qed.

Lemma format_int_commas_plain n :
  PyStr.remove_chr "," (format_int_commas n) = format_int n.
Proof.
  unfold PyStr.remove_chr, format_int_commas, format_int.
  unfold PyStr.chars, PyStr.text.
  rewrite list_ascii_of_string_of_list_ascii. f_equal.
  rewrite filter_app, filter_rev_plain, commas_rev_plain, rev_involutive.
  - rewrite filter_plain; [done|].
    apply Forall_forall. intros c. apply sign_no_comma.
  - apply Forall_forall. intros c Hc. apply (digits_no_comma n).
    apply list_elem_of_In. apply in_rev. by apply list_elem_of_In.
Qed.

End NumeralFacts.

(** ** Aggregate ranges and the stories estimate *)

Section Ranges.
Import PyNum.

Lemma sqft_range_of_spec sq :
  match sq with
  | [] => sqft_range_of sq = None
  | _ :: _ =>
      exists lo hi, is_min lo sq /\ is_max hi sq /\
        sqft_range_of sq
        = Some (span_text (negb (lo =? hi)%Z) (format_int_commas lo)
                  (format_int_commas hi) " sq ft")
  end.
Proof.
  destruct sq as [|x l]; [done|].
  exists (min_from Z.ltb x l), (max_from Z.ltb x l).
  split; [apply NumFacts.min_from_Z|]. split; [apply NumFacts.max_from_Z|].
  unfold sqft_range_of, span_text. by destruct (negb _).
Qed.

Lemma bed_range_of_spec bd :
  match bd with
  | [] => bed_range_of bd = None
  | _ :: _ =>
      exists lo hi, is_min lo bd /\ is_max hi bd /\
        bed_range_of bd
        = Some (span_text (negb (lo =? hi)%Z) (format_int lo)
                  (format_int hi) " Beds")
  end.
Proof.
  destruct bd as [|x l]; [done|].
  exists (min_from Z.ltb x l), (max_from Z.ltb x l).
  split; [apply NumFacts.min_from_Z|]. split; [apply NumFacts.max_from_Z|].
  unfold bed_range_of, span_text. by destruct (negb _).
Qed.

Lemma bath_range_of_spec env ba :
  match ba with
  | [] => bath_range_of env ba = None
  | x :: l =>
      let lo := min_from PrimFloat.ltb x l in
      let hi := max_from PrimFloat.ltb x l in
      lo ∈ ba /\ hi ∈ ba /\
      (forallb is_number ba = true -> is_least lo ba /\ is_greatest hi ba) /\
      bath_range_of env ba
      = Some (span_text (negb (PrimFloat.eqb lo hi)) (float_str env lo)
                (float_str env hi) " Baths")
  end.
Proof.
  destruct ba as [|x l]; [done|]. cbv zeta.
  pose proof (FloatFacts.min_from_elem PrimFloat.ltb l x) as Hlo.
  pose proof (FloatFacts.max_from_elem PrimFloat.ltb l x) as Hhi.
  split; [done|]. split; [done|]. split.
  - intros [Hx Hl]%andb_true_iff.
    destruct (FloatFacts.min_from_float l x Hx Hl) as [Hmx Hml].
    destruct (FloatFacts.max_from_float l x Hx Hl) as [Hxm Hlm].
    split; (split; [done|]); intros v [->|Hv]%elem_of_cons; auto.
  - unfold bath_range_of, span_text, float_neq. by destruct (negb _).
Qed.

(** C2, as the claim states it, fails for the bathrooms when a value is
    not a number.  [float] reads the text [nan], and Python's [min], [max]
    and [!=] then give a range that is not collapsed although the page has
    a single home, and a range that leaves out the 2 and 3 bathrooms of the
    other homes. *)
Lemma bath_range_with_nan :
  (exists r,
     fetch_page (Varied.env Varied.nan_home) Fixture.listing_url = Some r /\
     baths_carried (Varied.env Varied.nan_home) (homesites r)
     = [PrimFloat.nan] /\
     bath_range (details r) = Some "nan - nan Baths") /\
  (exists r,
     fetch_page (Varied.env Varied.nan_first) Fixture.listing_url = Some r /\
     baths_carried (Varied.env Varied.nan_first) (homesites r)
     = [PrimFloat.nan; 2%float; 3%float] /\
     bath_range (details r) = Some "nan - nan Baths").
Proof.
  split; eexists; (split; [vm_compute; reflexivity|]);
    split; vm_compute; reflexivity.
Qed.

(** C2, amended.  The record's aggregate ranges are taken over the numbers
    its homesites carry in the field: the range is absent when no homesite
    carries one; otherwise it reads "{min} - {max} <unit>" when the minimum
    and the maximum differ and "{min} <unit>" when they are equal, with
    thousands separators in the square footage.  For the square footage and
    the bedrooms the minimum is the least and the maximum the greatest
    carried value.  For the bathrooms the two are carried values, the least
    and the greatest when every carried value is a number, and "equal" is
    equality of floats.  The plain format writes the decimal numeral of the
    integer, and the format with separators the same numeral with commas
    added.  Square footages 1800, 2200, 1800 give "1,800 - 2,200 sq ft", and
    1800, 1800 give "1,800 sq ft"; bedrooms 3, 4, 3 give "3 - 4 Beds" and
    4, 4 give "4 Beds"; bathrooms 2, 3, 2.5 give "2.0 - 3.0 Baths" and
    2.5, 2.5 give "2.5 Baths". *)
Theorem aggregate_ranges env url r :
  fetch_page env url = Some r ->
  let sq := sqft_carried (homesites r) in
  let bd := beds_carried (homesites r) in
  let ba := baths_carried env (homesites r) in
  match sq with
  | [] => sqft_range (details r) = None
  | _ :: _ =>
      exists lo hi, is_min lo sq /\ is_max hi sq /\
        sqft_range (details r)
        = Some (span_text (negb (lo =? hi)%Z) (format_int_commas lo)
                  (format_int_commas hi) " sq ft")
  end /\
  match bd with
  | [] => bed_range (details r) = None
  | _ :: _ =>
      exists lo hi, is_min lo bd /\ is_max hi bd /\
        bed_range (details r)
        = Some (span_text (negb (lo =? hi)%Z) (format_int lo)
                  (format_int hi) " Beds")
  end /\
  match ba with
  | [] => bath_range (details r) = None
  | x :: l =>
      let lo := min_from PrimFloat.ltb x l in
      let hi := max_from PrimFloat.ltb x l in
      lo ∈ ba /\ hi ∈ ba /\
      (forallb is_number ba = true -> is_least lo ba /\ is_greatest hi ba) /\
      bath_range (details r)
      = Some (span_text (negb (PrimFloat.eqb lo hi)) (float_str env lo)
                (float_str env hi) " Baths")
  end /\
  (forall n, numeral_value (format_int n) = Some n) /\
  (forall n, PyStr.remove_chr "," (format_int_commas n) = format_int n) /\
  (sq = [1800; 2200; 1800]%Z ->
   sqft_range (details r) = Some "1,800 - 2,200 sq ft") /\
  (sq = [1800; 1800]%Z -> sqft_range (details r) = Some "1,800 sq ft") /\
  (bd = [3; 4; 3]%Z -> bed_range (details r) = Some "3 - 4 Beds") /\
  (bd = [4; 4]%Z -> bed_range (details r) = Some "4 Beds") /\
  (ba = [2%float; 3%float; 2.5%float] ->
   float_str env 2%float = "2.0" -> float_str env 3%float = "3.0" ->
   bath_range (details r) = Some "2.0 - 3.0 Baths") /\
  (ba = [2.5%float; 2.5%float] ->
   float_str env 2.5%float = "2.5" ->
   bath_range (details r) = Some "2.5 Baths").
Proof.
  intros H sq bd ba.
  apply LoopFacts.fetch_page_inv in H
    as (p & a & _ & _ & _ & _ & Hs & Hb & Ha & _).
  rewrite Hs, Hb, Ha. fold sq bd ba.
  split; [apply sqft_range_of_spec|].
  split; [apply bed_range_of_spec|].
  split; [apply bath_range_of_spec|].
  split; [apply NumeralFacts.format_int_value|].
  split; [apply NumeralFacts.format_int_commas_plain|].
  split; [by intros ->|]. split; [by intros ->|].
  split; [by intros ->|]. split; [by intros ->|]. split.
  - intros -> H2 H3. unfold bath_range_of.
    replace (min_from PrimFloat.ltb 2%float [3%float; 2.5%float])
      with 2%float by (vm_compute; reflexivity).
    replace (max_from PrimFloat.ltb 2%float [3%float; 2.5%float])
      with 3%float by (vm_compute; reflexivity).
    replace (float_neq 2 3) with true by (vm_compute; reflexivity).
    cbv zeta. by rewrite H2, H3.
  - intros -> H25. unfold bath_range_of.
    replace (min_from PrimFloat.ltb 2.5%float [2.5%float])
      with 2.5%float by (vm_compute; reflexivity).
    replace (max_from PrimFloat.ltb 2.5%float [2.5%float])
      with 2.5%float by (vm_compute; reflexivity).
    replace (float_neq 2.5 2.5) with false by (vm_compute; reflexivity).
    cbv zeta. by rewrite H25.
Qed.

Lemma aggregate_ranges_witness :
  exists r,
    fetch_page (Varied.env Varied.three_homes) Fixture.listing_url = Some r /\
    sqft_carried (homesites r) = [1800; 2200; 1800]%Z /\
    sqft_range (details r) = Some "1,800 - 2,200 sq ft" /\
    bed_range (details r) = Some "3 - 4 Beds" /\
    bath_range (details r) = Some "2.0 - 3.0 Baths" /\
    is_least 2%float [2%float; 3%float; 2.5%float] /\
    is_greatest 3%float [2%float; 3%float; 2.5%float].
Proof.
  eexists. split; [vm_compute; reflexivity|].
  split; [vm_compute; reflexivity|].
  destruct (aggregate_ranges (Varied.env Varied.three_homes)
              Fixture.listing_url _ ltac:(vm_compute; reflexivity))
    as (_ & _ & Hbath & _ & _ & Hsq & _ & Hbd & _ & Hba & _).
  split; [apply Hsq; vm_compute; reflexivity|].
  split; [apply Hbd; vm_compute; reflexivity|].
  split; [apply Hba; vm_compute; reflexivity|].
  match type of Hbath with
  | match ?ba with _ => _ end =>
      replace ba with [2%float; 3%float; 2.5%float] in Hbath
        by (vm_compute; reflexivity)
  end.
  cbv zeta in Hbath. destruct Hbath as (_ & _ & Hord & _).
  replace (min_from PrimFloat.ltb 2%float [3%float; 2.5%float])
    with 2%float in Hord by (vm_compute; reflexivity).
  replace (max_from PrimFloat.ltb 2%float [3%float; 2.5%float])
    with 3%float in Hord by (vm_compute; reflexivity).
  apply Hord. vm_compute. reflexivity.
Defined.

(** C8.  The stories estimate is absent when no homesite carries a square
    footage; otherwise it is "2 Story" when the largest square footage is
    strictly greater than 2000 and "1 Story" when it is not.  A single
    homesite of 1950 sq ft gives "1 Story". *)
Theorem stories_estimate env url r :
  fetch_page env url = Some r ->
  let sq := sqft_carried (homesites r) in
  match sq with
  | [] => stories_range (details r) = None
  | _ :: _ =>
      exists hi, is_max hi sq /\
        stories_range (details r)
        = Some (if (2000 <? hi)%Z then "2 Story" else "1 Story")
  end /\
  (sq = [1950%Z] -> stories_range (details r) = Some "1 Story").
Proof.
  intros H sq.
  apply LoopFacts.fetch_page_inv in H
    as (p & a & _ & _ & _ & _ & _ & _ & _ & Hst).
  rewrite Hst. fold sq. split; [|intros ->; reflexivity].
  destruct sq as [|x l]; [done|].
  exists (max_from Z.ltb x l). split; [apply NumFacts.max_from_Z|].
  unfold stories_range_of. by destruct (2000 <? _)%Z.
Qed.

Lemma stories_estimate_witness :
  exists r,
    fetch_page (Fixture.env Fixture.one_home GeoNotFound)
      Fixture.listing_url = Some r /\
    sqft_carried (homesites r) = [1950%Z] /\
    length (homeplans r) = 1 /\
    sqft_range (details r) = Some "1,950 sq ft" /\
    stories_range (details r) = Some "1 Story".
Proof.
  eexists. split; [vm_compute; reflexivity|].
  split; [vm_compute; reflexivity|].
  split; [vm_compute; reflexivity|].
  split; [vm_compute; reflexivity|].
  eapply (stories_estimate (Fixture.env Fixture.one_home GeoNotFound)
            Fixture.listing_url); vm_compute; reflexivity.
Defined.

End Ranges.

(** ** Hardcoded market and city, geocoded coordinates *)

Section Location.

Lemma parse_city_state_market parts last_part :
  2 <= length parts ->
  last parts = Some last_part ->
  2 <= length (PyStr.split last_part ",") ->
  market (parse_city_state parts) = Some "Atlanta Metro".
Proof.
  intros Hlen Hlast Hsplit. unfold parse_city_state.
  destruct (2 <=? length parts) eqn:Hle; [|apply Nat.leb_gt in Hle; lia].
  rewrite Hlast.
  destruct (PyStr.split last_part ",") as [|c0 [|c1 rest]]; simpl in *;
    [lia|lia|done].
Qed.

(** C9.  Whenever the address read from the page has at least two parts
    and its last part splits at a comma into at least two pieces, the
    record's market is the constant "Atlanta Metro"; and the address of
    every homesite whose card has a street heading is that street text
    followed by the constant ", McDonough, GA".  Neither depends on the
    city, state or market the page shows. *)
Theorem hardcoded_market_and_city env url r p :
  fetch_page env url = Some r ->
  browse env url = Some p ->
  (forall t last_part,
     p_address p = Some t ->
     2 <= length (nonblank_lines t) ->
     last (nonblank_lines t) = Some last_part ->
     2 <= length (PyStr.split last_part ",") ->
     market (loc_address (location r)) = Some "Atlanta Metro") /\
  Forall2
    (fun card h =>
       forall t, c_street card = Some t ->
         exists street, street_text t street /\
           hs_address h = Some (street +:+ ", McDonough, GA"))
    (p_cards p) (homesites r).
Proof.
  intros H Hp.
  apply LoopFacts.fetch_page_inv in H
    as (p' & a & Hp' & Hloc & _ & Hall & _).
  rewrite Hp in Hp'. injection Hp' as <-. split.
  - intros t last_part Ht Hlen Hlast Hsplit.
    unfold location_of in Hloc. rewrite Ht in Hloc.
    destruct (resolve_coordinates _ _ _) as [[lat lon]|]; [|done].
    injection Hloc as _ <-. simpl.
    by apply (parse_city_state_market _ last_part).
  - eapply Forall2_impl; [exact Hall|].
    intros card h Hb t Ht.
    destruct (bf_address_some _ _ _ _ _ Hb t Ht) as (street & ? & _ & ?).
    eauto.
Qed.

Lemma hardcoded_market_and_city_witness :
  exists r,
    fetch_page (Fixture.env Fixture.one_home GeoNotFound)
      Fixture.listing_url = Some r /\
    address r = Some "100 Oak St, Denver, CO 80014" /\
    city (loc_address (location r)) = Some "Denver" /\
    market (loc_address (location r)) = Some "Atlanta Metro".
Proof.
  eexists. split; [vm_compute; reflexivity|].
  split; [vm_compute; reflexivity|].
  split; [vm_compute; reflexivity|].
  eapply (hardcoded_market_and_city
            (Fixture.env Fixture.one_home GeoNotFound)
            Fixture.listing_url _ Fixture.one_home);
    vm_compute; (reflexivity || lia).
Defined.

(** C10.  When neither the scripts nor a map element give coordinates, the
    record takes them from the geocoding fallback, and keeps them only when
    both are truthy: a found pair is stored when both of its coordinates
    are non-zero, and a found pair with a coordinate equal to 0.0 leaves
    latitude and longitude absent, as does a lookup that found nothing. *)
Theorem geocoded_zero_discarded env url r p t :
  fetch_page env url = Some r ->
  browse env url = Some p ->
  p_address p = Some t ->
  scan_scripts env (p_scripts p) = Some None ->
  p_map p = None ->
  let found := get_coordinates env (PyStr.join ", " (nonblank_lines t)) in
  (forall lat lon, found = (Some lat, Some lon) ->
     PyNum.float_truthy lat = true -> PyNum.float_truthy lon = true ->
     latitude (location r) = Some lat /\ longitude (location r) = Some lon) /\
  (forall lat lon, found = (Some lat, Some lon) ->
     PyNum.float_truthy lat = false \/ PyNum.float_truthy lon = false ->
     latitude (location r) = None /\ longitude (location r) = None) /\
  (found = (None, None) ->
     latitude (location r) = None /\ longitude (location r) = None) /\
  PyNum.float_truthy 0%float = false.
Proof.
  intros H Hp Ht Hscan Hmap found.
  apply LoopFacts.fetch_page_inv in H as (p' & a & Hp' & Hloc & _).
  rewrite Hp in Hp'. injection Hp' as <-.
  unfold location_of in Hloc. rewrite Ht in Hloc.
  unfold resolve_coordinates in Hloc. rewrite Hscan, Hmap in Hloc.
  unfold geocoded in Hloc. fold found in Hloc.
  destruct found as [lat0 lon0].
  assert (Hzero : forall x y : float,
            PyNum.float_truthy x = false \/ PyNum.float_truthy y = false ->
            PyNum.float_truthy x && PyNum.float_truthy y = false).
  { intros x y [-> | ->]; [done|apply andb_false_r]. }
  split; [|split; [|split; [|done]]].
  - intros lat lon [= -> ->] Hlat Hlon. simpl in Hloc.
    rewrite Hlat, Hlon in Hloc. simpl in Hloc. by injection Hloc as _ <-.
  - intros lat lon [= -> ->] Hz. simpl in Hloc.
    rewrite (Hzero _ _ Hz) in Hloc. by injection Hloc as _ <-.
  - intros [= -> ->]. simpl in Hloc. by injection Hloc as _ <-.
Qed.

Lemma geocoded_zero_discarded_witness :
  exists r,
    fetch_page (Fixture.env Fixture.one_home (GeoFound 0 (-84.25)))
      Fixture.listing_url = Some r /\
    get_coordinates (Fixture.env Fixture.one_home (GeoFound 0 (-84.25)))
      "100 Oak St, Denver, CO 80014" = (Some 0%float, Some (-84.25)%float) /\
    latitude (location r) = None /\ longitude (location r) = None.
Proof.
  eexists. split; [vm_compute; reflexivity|].
  split; [vm_compute; reflexivity|].
  destruct (geocoded_zero_discarded
              (Fixture.env Fixture.one_home (GeoFound 0 (-84.25)))
              Fixture.listing_url _ Fixture.one_home
              ("100 Oak St" +:+ newline +:+ "Denver, CO 80014")
              ltac:(vm_compute; reflexivity)
              eq_refl eq_refl eq_refl eq_refl) as (_ & Hzero & _).
  apply (Hzero 0%float (-84.25)%float).
  - vm_compute; reflexivity.
  - left. vm_compute; reflexivity.
Defined.

End Location.

(** ** Cards with a missing element *)

Section MissingElements.

(** C1.  On a page whose only floor-plan card has no price element, the
    loop over the quick move-in cards stores an absent price and goes on,
    but [extract_homeplans] raises on the same card, so that [fetch_page]
    returns no record at all. *)
Theorem missing_price_aborts_record :
  let env := Fixture.env Fixture.no_price GeoNotFound in
  fetch_page env Fixture.listing_url = None /\
  extract_homeplans env Fixture.no_price = None /\
  (map hs_price <$>
     (ls_homesites <$>
        homesites_loop env None None (p_cards Fixture.no_price)
          (loop_start Fixture.listing_url)))
  = Some [None].
Proof. vm_compute. repeat split. Qed.

(** With the price element present the same page yields a record. *)
Lemma present_price_yields_record :
  is_Some (fetch_page (Fixture.env Fixture.one_home GeoNotFound)
             Fixture.listing_url).
Proof. vm_compute. eauto. Qed.

(** C4.  On a page with two cards of the same plan, the second without a
    details link, the second homesite has no url of its own, and yet gets
    the identifier parsed from the first homesite's url. *)
Theorem linkless_card_takes_previous_id :
  let env := Fixture.env Fixture.no_link GeoNotFound in
  (map (fun h => (hs_url h, hs_id h)) <$>
     (homesites <$> fetch_page env Fixture.listing_url))
  = Some
      [(Some "https://www.centurycommunities.com/homes/lot-12---avery/",
        Some "lot-12");
       (None, Some "lot-12")].
Proof. vm_compute. reflexivity. Qed.

(** A card with a details link gets the identifier of its own url. *)
Lemma linked_card_id env url r p :
  fetch_page env url = Some r ->
  browse env url = Some p ->
  Forall2
    (fun card h =>
       forall href, c_link card = Some (Some href) ->
         hs_url h = Some (absolute href) /\
         hs_id h = (if PyStr.truthy (absolute href)
                    then lot_id_of (absolute href) else None))
    (p_cards p) (homesites r).
Proof.
  intros H Hp.
  apply LoopFacts.fetch_page_inv in H as (p' & a & Hp' & _ & _ & Hall & _).
  rewrite Hp in Hp'. injection Hp' as <-.
  eapply Forall2_impl; [exact Hall|].
  intros card h Hb href Hh. split.
  - rewrite (bf_url _ _ _ _ _ Hb), Hh. reflexivity.
  - by apply (bf_link_id _ _ _ _ _ Hb).
Qed.

End MissingElements.

(** ** Link discovery *)

Module LinkFacts.
Import Links.

Lemma visit_card_elem links card x :
  x ∈ visit_card links card <->
  x ∈ links \/
  exists raw, card = Some (Some raw) /\ PyStr.truthy raw = true /\
              x = absolute raw.
Proof.
  unfold visit_card. destruct card as [[raw|]|].
  - destruct (PyStr.truthy raw) eqn:Ht.
    + case_bool_decide as Hin.
      * split; [by left|]. intros [?|(raw' & [= <-] & _ & ->)]; done.
      * rewrite elem_of_app, list_elem_of_singleton. split.
        -- intros [? | ->]; [by left|right; eauto].
        -- intros [?|(raw' & [= <-] & _ & ->)]; [by left|by right].
    + split; [by left|]. intros [?|(raw' & [= <-] & ? & _)]; [done|congruence].
  - split; [by left|]. by intros [?|(raw' & ? & _)].
  - split; [by left|]. by intros [?|(raw' & ? & _)].
Qed.

Lemma visit_cards_elem cards : forall links x,
  x ∈ fold_left visit_card cards links <->
  x ∈ links \/
  exists raw, Some (Some raw) ∈ cards /\ PyStr.truthy raw = true /\
              x = absolute raw.
Proof.
  induction cards as [|card cards IH]; intros links x; simpl.
  - split; [by left|]. intros [?|(raw & Hin & _)]; [done|].
    by apply elem_of_nil in Hin.
  - rewrite IH, visit_card_elem. split.
    + intros [[?|(raw & -> & ? & ->)]|(raw & ? & ? & ->)].
      * by left.
      * right. exists raw. split; [left|done].
      * right. exists raw. split; [by right|done].
    + intros [?|(raw & Hin & ? & ->)]; [by left; left|].
      apply elem_of_cons in Hin as [<-|Hin].
      * left; right. eauto.
      * right. eauto.
Qed.

Lemma collect_elem browser city_links : forall links x,
  x ∈ fold_left (visit_region browser) city_links links <->
  x ∈ links \/ discovered browser city_links x.
Proof.
  induction city_links as [|url urls IH]; intros links x; simpl.
  - split; [by left|]. intros [?|(url & cards & raw & Hin & _)]; [done|].
    by apply elem_of_nil in Hin.
  - rewrite IH. unfold visit_region.
    destruct (browser url) as [cards|] eqn:Hb.
    + rewrite visit_cards_elem. split.
      * intros [[?|(raw & ? & ? & ->)]|(u & cs & raw & ? & ? & ? & ? & ->)].
        -- by left.
        -- right. exists url, cards, raw. split; [left|done].
        -- right. exists u, cs, raw. split; [by right|done].
      * intros [?|(u & cs & raw & Hin & Hu & ? & ? & ->)]; [by left; left|].
        apply elem_of_cons in Hin as [->|Hin].
        -- left; right. rewrite Hb in Hu. injection Hu as <-. eauto.
        -- right. exists u, cs, raw. done.
    + split.
      * intros [?|(u & cs & raw & ? & ? & ? & ? & ->)]; [by left|].
        right. exists u, cs, raw. split; [by right|done].
      * intros [?|(u & cs & raw & Hin & Hu & ? & ? & ->)]; [by left|].
        apply elem_of_cons in Hin as [->|Hin]; [congruence|].
        right. exists u, cs, raw. done.
Qed.

(** C5.  For every list of region URLs, the list returned by
    [get_community_links] has no duplicates, and holds exactly the listing
    URLs discovered on the region pages that loaded, all regions taken
    together.  Nothing is stated about the order of the list. *)
Theorem community_links_global_dedup browser city_links :
  NoDup (get_community_links browser city_links) /\
  forall href,
    href ∈ get_community_links browser city_links <->
    discovered browser city_links href.
Proof.
  unfold get_community_links. split; [apply NoDup_elements|].
  intros href. rewrite elem_of_elements, elem_of_list_to_set.
  unfold collect. rewrite collect_elem. split; [|by right].
  intros [Hnil|?]; [|done]. by apply elem_of_nil in Hnil.
Qed.

End LinkFacts.

(** ** The field extractors *)

Module ExtractFacts.
Import Re ReFacts.

Lemma chars_text l : PyStr.chars (PyStr.text l) = l.
Proof. apply list_ascii_of_string_of_list_ascii. Qed.

Lemma text_chars s : PyStr.text (PyStr.chars s) = s.
Proof. apply string_of_list_ascii_of_string. Qed.

Lemma cmatch_no_groups r u c c' :
  cmatch r u c c' -> no_groups r = true -> c' = c.
Proof.
  induction 1 as [| |r1 r2 u1 u2 c0 c1 c2 _ IH1 _ IH2| | | |]; simpl;
    intros Hn; try done; try auto.
  apply andb_true_iff in Hn as [Hn1 Hn2].
  rewrite (IH2 Hn2). auto.
  all: apply andb_true_iff in Hn as [Hn1 Hn2]; auto.
Qed.

Lemma cmatch_seq_inv r1 r2 u c c' :
  cmatch (Seq r1 r2) u c c' ->
  exists u1 u2 c1, u = u1 ++ u2 /\ cmatch r1 u1 c c1 /\ cmatch r2 u2 c1 c'.
Proof. inversion 1; subst; eauto 10. Qed.

Lemma cmatch_grp_inv n r u c c' :
  cmatch (Grp n r) u c c' -> exists c1, c' = (n, u) :: c1 /\ cmatch r u c c1.
Proof. inversion 1; subst; eauto. Qed.

Lemma search_whole r s m :
  search r s = Some m -> leftmost_match r (PyStr.chars s) (m_whole m).
Proof.
  intros H. apply search_from_sound in H as (pre & _ & E & Hc & Hleft).
  exists pre, (m_after m). eauto using cmatch_matches.
Qed.

Lemma search_group1 g tail s m :
  no_groups tail = true ->
  search (Seq (Grp 1 g) tail) s = Some m ->
  exists v, group 1 (m_groups m) = Some v /\
            leading_group g tail (PyStr.chars s) v.
Proof.
  intros Hn H. apply search_from_sound in H as (pre & _ & E & Hc & Hleft).
  apply cmatch_seq_inv in Hc as (u1 & u2 & c1 & Eu & Hg & Ht).
  apply cmatch_grp_inv in Hg as (c0 & -> & Hg).
  pose proof (cmatch_matches _ _ _ _ Ht) as Htail.
  apply cmatch_no_groups in Ht; [|done].
  exists u1. split; [by rewrite Ht|].
  exists pre, u2, (m_after m).
  split; [by rewrite E, Eu, <- !app_assoc|].
  eauto using cmatch_matches.
Qed.

Lemma not_occurs_empty r : search r "" = None -> ~ occurs r [].
Proof. intros H. by apply search_none_iff in H. Qed.

Lemma extract_price_spec t :
  match extract_price (Some t) with
  | None => ~ occurs price_re (PyStr.chars t)
  | Some v => leftmost_match price_re (PyStr.chars t) (PyStr.chars v)
  end.
Proof.
  unfold extract_price. destruct t as [|a t].
  - apply not_occurs_empty. vm_compute. reflexivity.
  - cbn [PyStr.truthy negb]. destruct (search price_re _) as [m|] eqn:Hs.
    + cbn [group_text]. rewrite chars_text. by apply search_whole.
    + by apply search_none_iff.
Qed.

Lemma group1_spec g tail t :
  no_groups tail = true ->
  match match search (Seq (Grp 1 g) tail) t with
        | Some m => group_text 1 m
        | None => None
        end
  with
  | None => ~ occurs (Seq (Grp 1 g) tail) (PyStr.chars t)
  | Some v => leading_group g tail (PyStr.chars t) (PyStr.chars v)
  end.
Proof.
  intros Hn. destruct (search _ t) as [m|] eqn:Hs.
  - destruct (search_group1 _ _ _ _ Hn Hs) as (v & Hv & Hlead).
    cbn [group_text]. rewrite Hv. simpl. by rewrite chars_text.
  - by apply search_none_iff.
Qed.

Lemma extract_beds_spec t :
  match (extract_beds_baths (Some t)).1 with
  | None => ~ occurs beds_re (PyStr.chars t)
  | Some v =>
      leading_group (Plus Chr.is_digit) bed_unit_re (PyStr.chars t)
        (PyStr.chars v)
  end.
Proof.
  unfold extract_beds_baths. destruct t as [|a t].
  - apply not_occurs_empty. vm_compute. reflexivity.
  - cbn [PyStr.truthy negb fst]. by apply group1_spec.
Qed.

Lemma extract_baths_spec t :
  match (extract_beds_baths (Some t)).2 with
  | None => ~ occurs baths_re (PyStr.chars t)
  | Some v =>
      leading_group decimal_re bath_unit_re (PyStr.chars t) (PyStr.chars v)
  end.
Proof.
  unfold extract_beds_baths. destruct t as [|a t].
  - apply not_occurs_empty. vm_compute. reflexivity.
  - cbn [PyStr.truthy negb snd]. by apply group1_spec.
Qed.

Lemma extract_sqft_spec t :
  match extract_sqft (Some t) with
  | None => ~ occurs sqft_re (PyStr.chars (PyStr.lower t))
  | Some v =>
      exists g,
        leading_group (Plus digit_or_comma) sqft_unit_re
          (PyStr.chars (PyStr.lower t)) g /\
        v = PyStr.remove_chr "," (PyStr.text g)
  end.
Proof.
  unfold extract_sqft. destruct t as [|a t].
  - apply not_occurs_empty. vm_compute. reflexivity.
  - cbn [PyStr.truthy negb].
    pose proof (group1_spec (Plus digit_or_comma) sqft_unit_re
                  (PyStr.lower (String a t)) eq_refl) as H.
    fold sqft_re in H.
    destruct (search sqft_re (PyStr.lower (String a t))) as [m|].
    + destruct (group_text 1 m) as [v|]; simpl.
      * exists (PyStr.chars v). by rewrite text_chars.
      * done.
    + done.
Qed.

Lemma matches_seq r1 r2 u :
  matches (Seq r1 r2) u <->
  exists u1 u2, u = u1 ++ u2 /\ matches r1 u1 /\ matches r2 u2.
Proof.
  split; [inversion 1; subst; eauto|].
  intros (u1 & u2 & -> & ? & ?). by constructor.
Qed.

Lemma matches_alt r1 r2 u :
  matches (Alt r1 r2) u <-> matches r1 u \/ matches r2 u.
Proof.
  split; [inversion 1; subst; eauto|].
  intros [?|?]; [by apply ma_alt_l|by apply ma_alt_r].
Qed.

Lemma matches_star p u : matches (Star p) u <-> forallb p u = true.
Proof. split; [by inversion 1|by constructor]. Qed.

Lemma matches_eps u : matches Eps u <-> u = [].
Proof. split; [by inversion 1|intros ->; constructor]. Qed.

Lemma matches_chr c u : matches (chr c) u <-> u = [c].
Proof.
  unfold chr, Chr.eqb. split.
  - inversion 1 as [p a Hp| | | | | |]; subst.
    apply Ascii.eqb_eq in Hp. by subst.
  - intros ->. constructor. apply Ascii.eqb_refl.
Qed.

Lemma matches_lit s : forall u, matches (lit s) u <-> u = PyStr.chars s.
Proof.
  induction s as [|c s IH]; intros u; simpl.
  - apply matches_eps.
  - rewrite matches_seq. split.
    + intros (u1 & u2 & -> & ->%matches_chr & ->%IH). reflexivity.
    + intros ->. exists [c], (PyStr.chars s).
      split; [done|]. split; [by apply matches_chr|by apply IH].
Qed.

(** The tail of the square-footage pattern matches the spelled-out tokens
    and nothing else. *)
Lemma sqft_unit_token rest : matches sqft_unit_re rest <-> sqft_token rest.
Proof.
  unfold sqft_unit_re, sqft_token, Opt. split.
  - intros H.
    apply matches_seq in H as (ws1 & r1 & -> & Hws1%matches_star & H).
    apply matches_seq in H as (sq & r2 & -> & ->%matches_lit & H).
    apply matches_seq in H as (mid & r3 & -> & Hmid & H).
    apply matches_seq in H as (ws2 & ft & -> & Hws2%matches_star & Hft).
    apply matches_lit in Hft as ->.
    exists ws1, mid, ws2. repeat split; try done.
    apply matches_alt in Hmid as [Hmid| ->%matches_eps]; [|by left].
    apply matches_alt in Hmid as [->%matches_chr| ->%matches_lit];
      right; [by left|by right].
  - intros (ws1 & mid & ws2 & Hws1 & Hws2 & Hmid & ->).
    apply matches_seq. exists ws1, (PyStr.chars "sq" ++ mid ++ ws2 ++ PyStr.chars "ft").
    split; [done|]. split; [by apply matches_star|].
    apply matches_seq. exists (PyStr.chars "sq"), (mid ++ ws2 ++ PyStr.chars "ft").
    split; [done|]. split; [by apply matches_lit|].
    apply matches_seq. exists mid, (ws2 ++ PyStr.chars "ft").
    split; [done|]. split.
    + apply matches_alt. destruct Hmid as [->|[->| ->]].
      * right. by apply matches_eps.
      * left. apply matches_alt. left. by apply matches_chr.
      * left. apply matches_alt. right. by apply matches_lit.
    + apply matches_seq. exists ws2, (PyStr.chars "ft").
      split; [done|]. split; [by apply matches_star|by apply matches_lit].
Qed.

Lemma matches_grp n r u : matches (Grp n r) u <-> matches r u.
Proof. split; [by inversion 1|by constructor]. Qed.

Lemma matches_plus p u :
  matches (Plus p) u <-> u <> [] /\ forallb p u = true.
Proof.
  unfold Plus. rewrite matches_seq. split.
  - intros (u1 & u2 & -> & H1 & H2%matches_star).
    inversion H1 as [q a Hp| | | | | |]; subst. simpl. by rewrite Hp, H2.
  - intros [Hne Hall]. destruct u as [|a u]; [done|].
    simpl in Hall. apply andb_true_iff in Hall as [Ha Hu].
    exists [a], u. split; [done|].
    split; [by constructor|by apply matches_star].
Qed.

Lemma sqft_occurs_at s p :
  occurs_at sqft_re s p <-> exists g, sqft_occurrence s p g.
Proof.
  unfold occurs_at, sqft_occurrence, sqft_re, digit_group. split.
  - intros (u & post & -> & H).
    apply matches_seq in H as (g & rest & -> & Hg%matches_grp & Hr).
    apply matches_plus in Hg. apply sqft_unit_token in Hr.
    exists g, rest, post. by rewrite <- !app_assoc.
  - intros (g & rest & post & -> & Hg & Hr).
    exists (g ++ rest), post. rewrite <- !app_assoc. split; [done|].
    apply matches_seq. exists g, rest. split; [done|].
    split; [by apply matches_grp, matches_plus|by apply sqft_unit_token].
Qed.

End ExtractFacts.

Section Extractors.
Import Re ExtractFacts.

(** C7.  The extractors on the reference inputs. *)
Theorem reference_outputs :
  extract_sqft (Some "2,450 sq ft") = Some "2450" /\
  extract_price (Some "Starting at $312,990 for...") = Some "$312,990" /\
  extract_beds_baths (Some "4 Bedroom, 3.5 Bath") = (Some "4", Some "3.5").
Proof. vm_compute. repeat split. Qed.

(** C3, as the claim states it, fails: a digit-and-comma group followed by
    "square feet" is not recognised. *)
Lemma extract_sqft_square_feet :
  extract_sqft (Some "2,450 square feet") = None /\
  extract_sqft (Some "2,450 Square Feet") <> Some "2450".
Proof. vm_compute. split; [reflexivity|discriminate]. Qed.

(** C3, amended.  The tokens [extract_sqft] recognises are, in the
    lower-cased text and after optional whitespace: "sq", then nothing,
    "." or "uare", then optional whitespace, then "ft" (so "sq ft", "sqft",
    "sq. ft" and "square ft", but not "square feet").  When the text has a
    digit-and-comma group followed by such a token, the result is the group
    of the leftmost such place with its commas removed; the result is
    absent exactly when the text has no such place. *)
Theorem extract_sqft_tokens t :
  let s := PyStr.chars (PyStr.lower t) in
  match extract_sqft (Some t) with
  | None => forall pre g, ~ sqft_occurrence s pre g
  | Some v =>
      exists pre g,
        sqft_occurrence s pre g /\
        v = PyStr.remove_chr "," (PyStr.text g) /\
        forall pre' g', sqft_occurrence s pre' g' -> length pre <= length pre'
  end /\
  extract_sqft (Some "2,450 sq ft") = Some "2450" /\
  extract_sqft (Some "2,450 SqFt") = Some "2450" /\
  extract_sqft (Some "2,450 Sq. Ft") = Some "2450" /\
  extract_sqft (Some "2,450 Square Ft") = Some "2450".
Proof.
  intros s. split; [|vm_compute; repeat split].
  pose proof (extract_sqft_spec t) as H. fold s in H.
  destruct (extract_sqft (Some t)) as [v|].
  - destruct H as (g & (pre & rest & post & E & Hg & Hr & Hleft) & ->).
    exists pre, g. split; [|split; [done|]].
    + exists rest, post. split; [done|].
      split; [by apply matches_plus|by apply sqft_unit_token].
    + intros pre' g' Hocc. apply Hleft. fold sqft_re.
      apply sqft_occurs_at. eauto.
  - intros pre g Hocc. apply H. exists pre. apply sqft_occurs_at. eauto.
Qed.

(** C6.  Each extractor returns its absence marker on [None] and on the
    empty string; on every other string it returns a value for a field
    exactly when the field's pattern occurs in the text (the lower-cased
    text for the square footage), and the value then comes from the
    leftmost occurrence.  The extractors are total functions: no input
    makes them raise. *)
Theorem extractors_absence_and_first_match :
  (extract_price None = None /\
   extract_beds_baths None = (None, None) /\
   extract_sqft None = None) /\
  (extract_price (Some "") = None /\
   extract_beds_baths (Some "") = (None, None) /\
   extract_sqft (Some "") = None) /\
  forall t : string,
    match extract_price (Some t) with
    | None => ~ occurs price_re (PyStr.chars t)
    | Some v => leftmost_match price_re (PyStr.chars t) (PyStr.chars v)
    end /\
    match (extract_beds_baths (Some t)).1 with
    | None => ~ occurs beds_re (PyStr.chars t)
    | Some v =>
        leading_group (Plus Chr.is_digit) bed_unit_re (PyStr.chars t)
          (PyStr.chars v)
    end /\
    match (extract_beds_baths (Some t)).2 with
    | None => ~ occurs baths_re (PyStr.chars t)
    | Some v =>
        leading_group decimal_re bath_unit_re (PyStr.chars t) (PyStr.chars v)
    end /\
    match extract_sqft (Some t) with
    | None => ~ occurs sqft_re (PyStr.chars (PyStr.lower t))
    | Some v =>
        exists g,
          leading_group (Plus digit_or_comma) sqft_unit_re
            (PyStr.chars (PyStr.lower t)) g /\
          v = PyStr.remove_chr "," (PyStr.text g)
    end.
Proof.
  split; [done|]. split; [done|]. intros t.
  split; [apply extract_price_spec|].
  split; [apply extract_beds_spec|].
  split; [apply extract_baths_spec|apply extract_sqft_spec].
Qed.

(** The first of several matches is the one taken. *)
Example first_of_several :
  extract_price (Some "was $1,000 now $900") = Some "$1,000" /\
  extract_beds_baths (Some "3 Bed or 4 Bed, 2 Bath or 2.5 Bath")
  = (Some "3", Some "2") /\
  extract_sqft (Some "1,800 sq ft to 2,200 sq ft") = Some "1800".
Proof. vm_compute. repeat split. Qed.

End Extractors.

(** * Further properties *)

(** ** Completing a relative link *)

Module UrlFacts.

Lemma chars_append a b :
  PyStr.chars (a +:+ b) = PyStr.chars a ++ PyStr.chars b.
Proof.
  unfold PyStr.chars. induction a as [|c a IH]; simpl; [done|].
  by rewrite IH.
Qed.

Lemma origin_absolute href : is_absolute (origin +:+ href).
Proof.
  unfold is_absolute, PyStr.startswith. rewrite chars_append. reflexivity.
Qed.

Lemma absolute_is_absolute href : is_absolute (absolute href).
Proof.
  unfold absolute.
  destruct (PyStr.startswith href "http") eqn:E; simpl; [done|].
  apply origin_absolute.
Qed.

(** A complete URL does not start with [data:]. *)
Lemma absolute_not_data u :
  is_absolute u -> PyStr.startswith u "data:" = false.
Proof.
  unfold is_absolute, PyStr.startswith.
  destruct (PyStr.chars u) as [|c l]; [done|].
  cbn [PyStr.chars list_ascii_of_string PyStr.startswith_chars]. unfold Chr.eqb.
  destruct (Ascii.eqb "h" c) eqn:E; [|done].
  apply Ascii.eqb_eq in E as <-. done.
Qed.

End UrlFacts.

(** X1.  Completing a link always gives a URL that starts with [http]:
    the link itself, or the link with the site's origin in front.
    Completing twice is completing once. *)
Theorem absolute_http href :
  PyStr.startswith (absolute href) "http" = true /\
  (absolute href = href \/ absolute href = origin +:+ href) /\
  absolute (absolute href) = absolute href.
Proof.
  pose proof (UrlFacts.absolute_is_absolute href) as Habs.
  split; [exact Habs|]. split.
  - unfold absolute. destruct (PyStr.startswith href "http"); auto.
  - unfold absolute at 1. unfold is_absolute in Habs. by rewrite Habs.
Qed.

(** ** The state selector *)

Module RegionFacts.
Import Regions.

Lemma visit_option_elem links opt x :
  x ∈ visit_option links opt <-> x ∈ links \/ option_link opt = Some x.
Proof.
  unfold visit_option, option_link. destruct opt as [href|].
  - destruct (PyStr.truthy href && negb (String.eqb href "0")).
    + case_bool_decide as Hin.
      * split; [by left|]. by intros [?|[= <-]].
      * rewrite elem_of_app, list_elem_of_singleton. split.
        -- intros [? | ->]; [by left|by right].
        -- intros [?|[= <-]]; [by left|by right].
    + split; [by left|]. by intros [?|?].
  - split; [by left|]. by intros [?|?].
Qed.

Lemma visit_options_elem opts : forall links x,
  x ∈ fold_left visit_option opts links <->
  x ∈ links \/ exists opt, opt ∈ opts /\ option_link opt = Some x.
Proof.
  induction opts as [|opt opts IH]; intros links x; simpl.
  - split; [by left|]. intros [?|(opt & Hin & _)]; [done|].
    by apply elem_of_nil in Hin.
  - rewrite IH, visit_option_elem. split.
    + intros [[?|?]|(o & ? & ?)].
      * by left.
      * right. exists opt. split; [left|done].
      * right. exists o. split; [by right|done].
    + intros [?|(o & Hin & ?)]; [by left; left|].
      apply elem_of_cons in Hin as [->|Hin].
      * by left; right.
      * right. eauto.
Qed.

Lemma visit_option_NoDup links opt :
  NoDup links -> NoDup (visit_option links opt).
Proof.
  intros Hnd. unfold visit_option. destruct opt as [href|]; [|done].
  destruct (PyStr.truthy href && negb (String.eqb href "0")); [|done].
  case_bool_decide as Hin; [done|].
  apply NoDup_app. split; [done|]. split; [|apply NoDup_singleton].
  intros x Hx ->%list_elem_of_singleton. done.
Qed.

Lemma visit_options_NoDup opts : forall links,
  NoDup links -> NoDup (fold_left visit_option opts links).
Proof.
  induction opts as [|opt opts IH]; intros links Hnd; simpl; [done|].
  by apply IH, visit_option_NoDup.
Qed.

(** The loop only appends, and what it appends follows the options. *)
Lemma visit_options_order opts : forall links,
  exists added,
    fold_left visit_option opts links = links ++ added /\
    sublist added (omap option_link opts).
Proof.
  induction opts as [|opt opts IH]; intros links; simpl.
  - exists []. by rewrite app_nil_r.
  - destruct (IH (visit_option links opt)) as (added & -> & Hsub).
    unfold visit_option, option_link.
    destruct opt as [href|]; [|by exists added].
    destruct (PyStr.truthy href && negb (String.eqb href "0"));
      [|by exists added].
    case_bool_decide as Hin.
    + exists added. split; [done|]. by apply sublist_cons.
    + exists (absolute href :: added). rewrite <- app_assoc.
      split; [done|]. by apply sublist_skip.
Qed.

End RegionFacts.

(** X2.  The region links read from the state selector have no duplicates
    and are exactly the links the selector offers: the completed values of
    its options after the first, a missing or empty value and the value
    ["0"] left out.  When the page has no selector, or loading it fails,
    there are none. *)
Theorem city_links_offered root :
  NoDup (Regions.get_city_links root) /\
  forall href,
    href ∈ Regions.get_city_links root <-> Regions.offered root href.
Proof.
  unfold Regions.get_city_links, Regions.offered. split.
  - destruct root as [[opts|]|]; try apply NoDup_nil_2.
    apply RegionFacts.visit_options_NoDup, NoDup_nil_2.
  - intros href. destruct root as [[opts|]|].
    + cbv zeta. rewrite RegionFacts.visit_options_elem. split.
      * intros [Hnil|(opt & ? & ?)]; [by apply elem_of_nil in Hnil|].
        by exists opts, opt.
      * intros (opts' & opt & [= <-] & ? & ?). right. eauto.
    + split; [by intros ?%elem_of_nil|]. by intros (? & ? & ? & _).
    + split; [by intros ?%elem_of_nil|]. by intros (? & ? & ? & _).
Qed.

(** X3.  The region links come in the order of the selector's options:
    the returned list is a subsequence of the completed values of the
    options after the first. *)
Theorem city_links_in_page_order select_options :
  sublist (Regions.get_city_links (Some (Some select_options)))
    (omap Regions.option_link (drop 1 select_options)).
Proof.
  unfold Regions.get_city_links. cbv zeta.
  destruct (RegionFacts.visit_options_order (drop 1 select_options) [])
    as (added & -> & Hsub).
  done.
Qed.

(** ** What the link script writes *)

Module WrittenFacts.
Import Links.

Lemma community_links_elem browser city_links href :
  href ∈ get_community_links browser city_links <->
  discovered browser city_links href.
Proof.
  unfold get_community_links.
  rewrite elem_of_elements, elem_of_list_to_set.
  unfold collect. rewrite LinkFacts.collect_elem. split; [|by right].
  intros [Hnil|?]; [|done]. by apply elem_of_nil in Hnil.
Qed.

Lemma discovered_absolute browser city_links href :
  discovered browser city_links href -> is_absolute href.
Proof.
  intros (url & cards & raw & _ & _ & _ & _ & ->).
  apply UrlFacts.absolute_is_absolute.
Qed.

End WrittenFacts.

(** X4.  The link script writes its file only when it has something to
    write.  The list it writes is not empty, has no duplicates, holds only
    URLs that start with [http], and holds exactly the listing URLs
    discovered on the pages of the regions the state selector offers; when
    it writes nothing, no listing URL was discovered. *)
Theorem main_writes_discovered_links root browser :
  match Regions.main root browser with
  | Some links =>
      links <> [] /\ NoDup links /\ Forall is_absolute links /\
      forall href,
        href ∈ links <->
        Links.discovered browser (Regions.get_city_links root) href
  | None =>
      forall href,
        ~ Links.discovered browser (Regions.get_city_links root) href
  end.
Proof.
  unfold Regions.main. cbv zeta.
  destruct (Regions.get_city_links root) as [|region regions] eqn:Hc.
  - intros href (url & _ & _ & Hin & _). by apply elem_of_nil in Hin.
  - destruct (Links.get_community_links browser (region :: regions))
      as [|link links] eqn:Hl.
    + intros href Hd. apply WrittenFacts.community_links_elem in Hd.
      rewrite Hl in Hd. by apply elem_of_nil in Hd.
    + rewrite <- Hl. split; [by rewrite Hl|].
      split; [apply NoDup_elements|]. split.
      * apply Forall_forall. intros href Hin.
        apply WrittenFacts.community_links_elem in Hin.
        by eapply WrittenFacts.discovered_absolute.
      * intros href. apply WrittenFacts.community_links_elem.
Qed.

(** ** Images *)

Module ImageFacts.

Lemma carousel_images_take items : forall count,
  carousel_images items count = take (12 - count) (omap carousel_src items).
Proof.
  induction items as [|item rest IH]; intros count.
  - simpl. by rewrite take_nil.
  - cbn [carousel_images]. destruct (12 <=? count) eqn:Hc.
    + apply Nat.leb_le in Hc. by replace (12 - count) with 0 by lia.
    + apply Nat.leb_gt in Hc. cbn [omap list_omap]. unfold carousel_src at 1.
      destruct item as [[src|]|]; [|apply IH|apply IH].
      destruct (PyStr.truthy src); [|apply IH].
      rewrite IH. replace (12 - count) with (S (12 - (count + 1))) by lia.
      done.
Qed.

Lemma carousel_src_absolute item u :
  carousel_src item = Some u -> is_absolute u.
Proof.
  unfold carousel_src. destruct item as [[src|]|]; [|done|done].
  destruct (PyStr.truthy src); [|done].
  intros [= <-]. apply UrlFacts.absolute_is_absolute.
Qed.

Lemma homesite_images_take env url :
  get_homesite_images env url
  = take 12 (omap carousel_src (default [] (gallery env url))).
Proof.
  unfold get_homesite_images. destruct (gallery env url) as [items|]; simpl.
  - by rewrite carousel_images_take.
  - done.
Qed.

Lemma homesite_images_length env url :
  length (get_homesite_images env url) <= 12.
Proof. rewrite homesite_images_take, length_take. lia. Qed.

Lemma homesite_images_absolute env url :
  Forall is_absolute (get_homesite_images env url).
Proof.
  rewrite homesite_images_take. apply Forall_take, Forall_forall.
  intros u (item & _ & Hu)%list_elem_of_omap.
  by eapply carousel_src_absolute.
Qed.

Lemma usable_src_absolute img u : usable_src img = Some u -> is_absolute u.
Proof.
  unfold usable_src. destruct img as [src|]; [|done].
  destruct (_ && _); [|done]. intros [= <-].
  apply UrlFacts.absolute_is_absolute.
Qed.

Lemma first_valid_src_head imgs :
  first_valid_src imgs = head (omap usable_src imgs).
Proof.
  induction imgs as [|img rest IH]; simpl; [done|].
  unfold usable_src at 1. destruct img as [src|]; [|done].
  by destruct (_ && _).
Qed.

Lemma first_valid_image_absolute container u :
  get_first_valid_image container = Some u -> is_absolute u.
Proof.
  unfold get_first_valid_image. destruct container as [imgs|]; [|done].
  rewrite first_valid_src_head. intros Hh.
  apply head_Some_elem_of, list_elem_of_omap in Hh as (img & _ & Hu).
  by eapply usable_src_absolute.
Qed.

Lemma tab_image_inv tab fi :
  fi ∈ tab_image tab ->
  contains (tab_text tab) "Options" = false /\
  fi_name fi = PyStr.strip (tab_text tab) +:+ " Floorplan" /\
  exists src, tab_img tab = Some (Some src) /\
              PyStr.startswith src "data:" = false /\
              fi_image_url fi = absolute src.
Proof.
  unfold tab_image. destruct (contains _ _); [by intros ?%elem_of_nil|].
  destruct (tab_img tab) as [[src|]|]; try by intros ?%elem_of_nil.
  destruct (PyStr.truthy src); simpl; [|by intros ?%elem_of_nil].
  destruct (PyStr.startswith src "data:") eqn:Hd; simpl;
    [by intros ?%elem_of_nil|].
  intros ->%list_elem_of_singleton. simpl.
  split; [done|]. split; [done|]. by exists src.
Qed.

Lemma tab_image_length tab : length (tab_image tab) <= 1.
Proof.
  unfold tab_image. destruct (contains _ _); [simpl; lia|].
  destruct (tab_img tab) as [[src|]|]; simpl; try lia.
  destruct (_ && _); simpl; lia.
Qed.

Lemma flat_map_length_le {A B} (f : A -> list B) l :
  (forall x, length (f x) <= 1) -> length (flat_map f l) <= length l.
Proof.
  intros Hf. induction l as [|x l IH]; simpl; [lia|].
  rewrite length_app. specialize (Hf x). lia.
Qed.

End ImageFacts.

(** X5.  The images of a homesite's page are the completed sources of the
    first twelve carousel items that have an image with a non-empty source,
    in the order of the page; so there are never more than twelve, and each
    starts with [http].  When the gallery never shows up there are none. *)
Theorem homesite_images_first_twelve env url :
  get_homesite_images env url
  = take 12 (omap carousel_src (default [] (gallery env url))) /\
  length (get_homesite_images env url) <= 12 /\
  Forall is_absolute (get_homesite_images env url).
Proof.
  split; [apply ImageFacts.homesite_images_take|].
  split; [apply ImageFacts.homesite_images_length|].
  apply ImageFacts.homesite_images_absolute.
Qed.

(** X6.  The main image is the completed source of the first image of the
    carousel that has a non-empty source which is no [data:] URI, and there
    is none when the carousel is missing or holds no such image.  A main
    image starts with [http] and is never a [data:] URI itself. *)
Theorem first_valid_image_is_first_usable container :
  get_first_valid_image container
  = head (omap usable_src (default [] container)) /\
  match get_first_valid_image container with
  | Some u => is_absolute u /\ PyStr.startswith u "data:" = false
  | None => True
  end.
Proof.
  split.
  - destruct container as [imgs|]; simpl; [|done].
    apply ImageFacts.first_valid_src_head.
  - destruct (get_first_valid_image container) as [u|] eqn:Hu; [|done].
    apply ImageFacts.first_valid_image_absolute in Hu.
    split; [done|]. by apply UrlFacts.absolute_not_data.
Qed.

(** X7.  Every floor-plan image comes from a tab whose text does not
    contain [Options]: it is named after the tab, with [ Floorplan]
    appended, and its URL is the completed source of the tab's image, which
    is no [data:] URI.  There is at most one image per tab, and none at all
    when the floor-plan page fails to load. *)
Theorem floorplan_images_from_tabs env url :
  Forall
    (fun fi =>
       exists tab src,
         tab ∈ default [] (floorplan_tabs env url) /\
         contains (tab_text tab) "Options" = false /\
         fi_name fi = PyStr.strip (tab_text tab) +:+ " Floorplan" /\
         tab_img tab = Some (Some src) /\
         PyStr.startswith src "data:" = false /\
         fi_image_url fi = absolute src)
    (get_floorplan_images env url) /\
  length (get_floorplan_images env url)
  <= length (default [] (floorplan_tabs env url)).
Proof.
  unfold get_floorplan_images.
  destruct (floorplan_tabs env url) as [tabs|]; simpl; [|split; [done|lia]].
  split.
  - apply Forall_forall. intros fi Hfi.
    apply list_elem_of_In, in_flat_map in Hfi as (tab & Htab & Hfi).
    apply list_elem_of_In in Htab, Hfi.
    apply ImageFacts.tab_image_inv in Hfi as (Ho & Hn & src & Hs & Hd & Hu).
    by exists tab, src.
  - apply ImageFacts.flat_map_length_le, ImageFacts.tab_image_length.
Qed.

(** ** Floor plans *)

Module PlanFacts.

Lemma homeplan_of_name env name card hp :
  homeplan_of env name card = Some hp -> hp_name hp = name.
Proof.
  unfold homeplan_of.
  destruct (c_link card) as [[href|]|]; [|done|done].
  destruct (c_price card) as [price|]; [|done].
  destruct (c_beds card) as [[beds|]|]; [|done|done].
  destruct (c_baths card) as [[baths|]|]; [|done|done].
  destruct (c_sqft card) as [[sqft|]|]; [|done|done].
  destruct (c_img card) as [img|]; [|done].
  by intros [= <-].
Qed.

Lemma homeplan_of_none env name card :
  homeplan_of env name card = None <-> plan_card_complete card = false.
Proof.
  unfold homeplan_of, plan_card_complete.
  destruct (c_link card) as [[href|]|]; [|done|done].
  destruct (c_price card) as [price|]; [|done].
  destruct (c_beds card) as [[beds|]|]; [|done|done].
  destruct (c_baths card) as [[baths|]|]; [|done|done].
  destruct (c_sqft card) as [[sqft|]|]; [|done|done].
  destruct (c_img card) as [img|]; done.
Qed.

Lemma first_named_later name cards pre card c :
  first_named name cards pre card ->
  card_name c <> Some name ->
  first_named name (c :: cards) (c :: pre) card.
Proof.
  intros (post & -> & Hn & Hpre) Hc. exists post.
  split; [done|]. split; [done|].
  simpl. rewrite not_elem_of_cons. split; [congruence|done].
Qed.

(** The plans built from [cards] when the names in [seen] were met before. *)
Lemma homeplans_from_spec env cards : forall seen hps,
  homeplans_from env cards seen = Some hps ->
  NoDup (map hp_name hps) /\
  (forall name,
     name ∈ map hp_name hps <->
     (name ∉ seen) /\ Some name ∈ map card_name cards) /\
  (forall hp, hp ∈ hps ->
     exists pre card,
       first_named (hp_name hp) cards pre card /\
       homeplan_of env (hp_name hp) card = Some hp).
Proof.
  induction cards as [|card rest IH]; intros seen hps.
  - intros [= <-]. split; [apply NoDup_nil_2|]. split.
    + intros name. simpl. split; [by intros ?%elem_of_nil|].
      by intros [_ ?%elem_of_nil].
    + by intros hp ?%elem_of_nil.
  - cbn [homeplans_from map]. unfold card_name at 2.
    destruct (c_title card) as [title|] eqn:Htitle; [|done].
    cbn [fmap option_fmap option_map].
    assert (card_name card = Some (PyStr.strip title)) as Hname.
    { unfold card_name. by rewrite Htitle. }
    case_bool_decide as Hseen.
    + intros (Hnd & Hmem & Hall)%IH. split; [done|]. split.
      * intros name. rewrite Hmem, elem_of_cons. split.
        -- intros [Hn Hin]. split; [done|by right].
        -- intros [Hn [[= Heq]|Hin]]; [congruence|done].
      * intros hp Hhp. destruct (Hall hp Hhp) as (pre & c & Hfirst & Hof).
        exists (card :: pre), c.
        split; [|done]. apply first_named_later; [done|].
        rewrite Hname. intros [= Heq].
        assert (hp_name hp ∈ map hp_name hps) as Hin.
        { apply list_elem_of_fmap. by exists hp. }
        apply Hmem in Hin as [Hin _]. congruence.
    + destruct (homeplan_of env _ card) as [hp0|] eqn:Hof; [|done].
      destruct (homeplans_from env rest _) as [more|] eqn:Hmore; [|done].
      intros [= <-]. apply IH in Hmore as (Hnd & Hmem & Hall).
      pose proof (homeplan_of_name _ _ _ _ Hof) as Hn0.
      cbn [map]. rewrite Hn0. split; [|split].
      * apply NoDup_cons. split; [|done]. rewrite Hmem.
        intros [Hns _]. apply Hns, elem_of_union. left.
        by apply elem_of_singleton.
      * intros name. rewrite !elem_of_cons, Hmem.
        rewrite elem_of_union, elem_of_singleton.
        destruct (decide (name = PyStr.strip title)) as [->|Hne].
        -- split; [|by left]. intros _. split; [done|by left].
        -- split.
           ++ intros [?|[Hns ?]]; [done|]. split; [|by right].
              intros ?. apply Hns. by right.
           ++ intros [Hns [[= ?]|?]]; [congruence|]. right. split; [|done].
              by intros [?|?].
      * intros hp [->|Hhp]%elem_of_cons.
        -- exists [], card. rewrite Hn0. split; [|done].
           exists rest. split; [done|]. split; [done|].
           simpl. apply not_elem_of_nil.
        -- destruct (Hall hp Hhp) as (pre & c & Hfirst & Hofc).
           exists (card :: pre), c. split; [|done].
           apply first_named_later; [done|]. rewrite Hname. intros [= Heq].
           assert (hp_name hp ∈ map hp_name more) as Hin.
           { apply list_elem_of_fmap. by exists hp. }
           apply Hmem in Hin as [Hin _]. apply Hin, elem_of_union. left.
           by apply elem_of_singleton.
Qed.

(** When the loop over the cards raises. *)
Lemma homeplans_from_none env cards : forall seen,
  homeplans_from env cards seen = None <->
  exists pre card post,
    cards = pre ++ card :: post /\
    (c_title card = None \/
     exists name, card_name card = Some name /\ (name ∉ seen) /\
       (Some name ∉ map card_name pre) /\ plan_card_complete card = false).
Proof.
  induction cards as [|card rest IH]; intros seen.
  - split; [done|]. intros (pre & c & post & E & _). by destruct pre.
  - cbn [homeplans_from].
    destruct (c_title card) as [title|] eqn:Htitle.
    2: { split; [|done]. intros _. exists [], card, rest. split; [done|by left]. }
    assert (card_name card = Some (PyStr.strip title)) as Hname.
    { unfold card_name. by rewrite Htitle. }
    assert (forall s' : gset string,
      (PyStr.strip title ∈ s') -> (forall n, n ∈ seen -> n ∈ s') ->
      (forall n, n ∈ s' -> n ∈ seen \/ n = PyStr.strip title) ->
      (exists pre c post, rest = pre ++ c :: post /\
        (c_title c = None \/
         exists name, card_name c = Some name /\ (name ∉ s') /\
           (Some name ∉ map card_name pre) /\ plan_card_complete c = false))
      <->
      (exists pre c post, card :: rest = pre ++ c :: post /\ pre <> [] /\
        (c_title c = None \/
         exists name, card_name c = Some name /\ (name ∉ seen) /\
           (Some name ∉ map card_name pre) /\ plan_card_complete c = false)))
      as Hshift.
    { intros s' Hin Hsub Hsup. split.
      - intros (pre & c & post & -> & Hc). exists (card :: pre), c, post.
        split; [done|]. split; [done|].
        destruct Hc as [?|(name & Hn & Hs & Hp & Hcomp)]; [by left|right].
        exists name. split; [done|]. split; [by intros ?%Hsub|].
        split; [|done]. simpl. rewrite not_elem_of_cons, Hname.
        split; [|done]. intros [= ->]. done.
      - intros (pre & c & post & E & Hne & Hc).
        destruct pre as [|c0 pre]; [done|]. injection E as <- ->.
        exists pre, c, post. split; [done|].
        destruct Hc as [?|(name & Hn & Hs & Hp & Hcomp)]; [by left|right].
        exists name. simpl in Hp. rewrite not_elem_of_cons, Hname in Hp.
        destruct Hp as [Hp1 Hp2]. split; [done|]. split; [|done].
        intros [?| ->]%Hsup; [done|]. done. }
    case_bool_decide as Hseen.
    + rewrite IH, (Hshift seen); [|done|done|by left]. split.
      * intros (pre & c & post & E & _ & Hc). by exists pre, c, post.
      * intros (pre & c & post & E & Hc). exists pre, c, post.
        split; [done|]. split; [|done]. intros ->. injection E as <- ->.
        destruct Hc as [?|(name & Hn & Hs & _)]; [congruence|].
        rewrite Hname in Hn. injection Hn as <-. done.
    + destruct (homeplan_of env _ card) as [hp0|] eqn:Hof.
      * assert (plan_card_complete card = true) as Hcomp.
        { destruct (plan_card_complete card) eqn:Hc; [done|].
          apply (homeplan_of_none env (PyStr.strip title)) in Hc. congruence. }
        destruct (homeplans_from env rest _) as [more|] eqn:Hmore.
        -- split; [done|]. intros (pre & c & post & E & Hc).
           assert (homeplans_from env rest ({[PyStr.strip title]} ∪ seen) = None)
             as Hnone; [|congruence].
           apply IH, (Hshift ({[PyStr.strip title]} ∪ seen)).
           ++ apply elem_of_union. left. by apply elem_of_singleton.
           ++ intros n ?. apply elem_of_union. by right.
           ++ intros n [->%elem_of_singleton|?]%elem_of_union; [by right|by left].
           ++ exists pre, c, post. split; [done|]. split; [|done].
              intros ->. injection E as <- ->.
              destruct Hc as [?|(name & Hn & Hs & _ & ?)]; congruence.
        -- split; [|done]. intros _.
           apply IH, (Hshift ({[PyStr.strip title]} ∪ seen)) in Hmore
             as (pre & c & post & E & _ & Hc).
           ++ by exists pre, c, post.
           ++ apply elem_of_union. left. by apply elem_of_singleton.
           ++ intros n ?. apply elem_of_union. by right.
           ++ intros n [->%elem_of_singleton|?]%elem_of_union; [by right|by left].
      * split; [|done]. intros _. exists [], card, rest. split; [done|right].
        exists (PyStr.strip title). split; [done|]. split; [done|].
        split; [simpl; apply not_elem_of_nil|].
        by apply (homeplan_of_none env (PyStr.strip title)).
Qed.

Lemma homeplans_from_skip env pre card post name : forall seen,
  card_name card = Some name ->
  name ∈ seen \/ Some name ∈ map card_name pre ->
  homeplans_from env (pre ++ card :: post) seen
  = homeplans_from env (pre ++ post) seen.
Proof.
  intros seen Hname. revert seen.
  assert (exists title, c_title card = Some title /\ name = PyStr.strip title)
    as (title & Htitle & ->).
  { unfold card_name in Hname. destruct (c_title card) as [title|]; [|done].
    injection Hname as <-. eauto. }
  induction pre as [|c pre IH]; intros seen Hin.
  - destruct Hin as [Hin|Hin]; [|by apply elem_of_nil in Hin].
    cbn [app homeplans_from]. rewrite Htitle.
    by rewrite bool_decide_eq_true_2.
  - cbn [app homeplans_from].
    destruct (c_title c) as [t0|] eqn:Ht0; [|done].
    assert (card_name c = Some (PyStr.strip t0)) as Hc.
    { unfold card_name. by rewrite Ht0. }
    case_bool_decide as Hseen.
    + apply IH. destruct Hin as [?|Hin]; [by left|].
      simpl in Hin. rewrite elem_of_cons, Hc in Hin.
      destruct Hin as [[= ->]|?]; [by left|by right].
    + destruct (homeplan_of env _ c) as [hp|]; [|done].
      rewrite IH; [done|].
      rewrite elem_of_union, elem_of_singleton.
      destruct Hin as [?|Hin]; [by left; right|].
      simpl in Hin. rewrite elem_of_cons, Hc in Hin.
      destruct Hin as [[= ->]|?]; [by left; left|by right].
Qed.

Lemma homeplans_from_length env cards : forall seen hps,
  homeplans_from env cards seen = Some hps -> length hps <= length cards.
Proof.
  induction cards as [|card rest IH]; intros seen hps.
  - by intros [= <-].
  - cbn [homeplans_from]. destruct (c_title card) as [title|]; [|done].
    case_bool_decide.
    + intros ?%IH. simpl. lia.
    + destruct (homeplan_of env _ card) as [hp|]; [|done].
      destruct (homeplans_from env rest _) as [more|] eqn:Hmore; [|done].
      intros [= <-]. apply IH in Hmore. simpl. lia.
Qed.

End PlanFacts.

(** X8.  The floor plans of a page have pairwise different names, and
    their names are exactly the names the cards show.  Each plan is built
    from the first card that shows its name, so that there are at most as
    many plans as cards. *)
Theorem homeplans_one_per_name env p hps :
  extract_homeplans env p = Some hps ->
  NoDup (map hp_name hps) /\
  (forall name,
     name ∈ map hp_name hps <-> Some name ∈ map card_name (p_cards p)) /\
  Forall
    (fun hp =>
       exists pre card,
         first_named (hp_name hp) (p_cards p) pre card /\
         homeplan_of env (hp_name hp) card = Some hp)
    hps /\
  length hps <= length (p_cards p).
Proof.
  unfold extract_homeplans. intros H.
  pose proof (PlanFacts.homeplans_from_length _ _ _ _ H) as Hlen.
  apply PlanFacts.homeplans_from_spec in H as (Hnd & Hmem & Hall).
  split; [done|]. split; [|split; [by apply Forall_forall|done]].
  intros name. rewrite Hmem. split; [by intros [_ ?]|].
  intros ?. split; [apply not_elem_of_empty|done].
Qed.

Lemma homeplans_one_per_name_witness :
  exists hps,
    extract_homeplans (Fixture.env Fixture.no_link GeoNotFound)
      Fixture.no_link = Some hps /\
    NoDup (map hp_name hps) /\ length hps <= 2.
Proof.
  eexists. split; [vm_compute; reflexivity|].
  destruct (homeplans_one_per_name
              (Fixture.env Fixture.no_link GeoNotFound) Fixture.no_link _
              ltac:(vm_compute; reflexivity)) as (Hnd & _ & _ & Hlen).
  split; [exact Hnd|exact Hlen].
Defined.

(** X9.  [extract_homeplans] raises exactly when some card has no title,
    or when a card that is the first to show its name lacks one of the
    elements read without a guard: the details link with its [href], the
    price, a spec icon with its span, or the plan image. *)
Theorem homeplans_fail_iff env p :
  extract_homeplans env p = None <->
  exists pre card post,
    p_cards p = pre ++ card :: post /\
    (c_title card = None \/
     exists name,
       card_name card = Some name /\
       (Some name ∉ map card_name pre) /\
       plan_card_complete card = false).
Proof.
  unfold extract_homeplans. rewrite PlanFacts.homeplans_from_none. split.
  - intros (pre & card & post & E & [?|(name & ? & _ & ? & ?)]);
      exists pre, card, post; split; eauto 6.
  - intros (pre & card & post & E & [?|(name & ? & ? & ?)]);
      exists pre, card, post; split; try done; [by left|right].
    exists name. split; [done|]. split; [apply not_elem_of_empty|done].
Qed.

(** X10.  A card that shows the name of an earlier card adds nothing to
    the floor plans: apart from its title nothing of it is read, so that
    the page without that card gives the same result, an error included. *)
Theorem repeated_plan_card_ignored env p p' pre card post name :
  p_cards p = pre ++ card :: post ->
  p_cards p' = pre ++ post ->
  card_name card = Some name ->
  Some name ∈ map card_name pre ->
  extract_homeplans env p = extract_homeplans env p'.
Proof.
  unfold extract_homeplans. intros -> -> Hname Hin.
  eapply PlanFacts.homeplans_from_skip; [done|by right].
Qed.

Lemma repeated_plan_card_ignored_witness :
  plan_card_complete (Fixture.card "Avery" None (Some "$352,000")
                        "1,950 sq ft" (Some "15 Elm Way | Lot 15")) = false /\
  extract_homeplans (Fixture.env Fixture.no_link GeoNotFound) Fixture.no_link
  = extract_homeplans (Fixture.env Fixture.no_link GeoNotFound)
      Fixture.one_home.
Proof.
  split; [reflexivity|].
  eapply (repeated_plan_card_ignored _ Fixture.no_link Fixture.one_home
            [Fixture.card "Avery" (Some "/homes/lot-12---avery/")
               (Some "$350,000") "1,950 sq ft" (Some "12 Elm Way | Lot 12")]
            _ [] "Avery").
  - reflexivity.
  - reflexivity.
  - vm_compute; reflexivity.
  - vm_compute. apply list_elem_of_here.
Defined.

(** ** The record as a whole *)

Module RecordFacts.

(** Every step of a successful [fetch_page]. *)
Lemma fetch_page_parts env url r :
  fetch_page env url = Some r ->
  exists p st,
    is_Some (PyStr.second_last (PyStr.split url "/")) /\
    browse env url = Some p /\
    community_name_of p = Some (name r) /\
    price_from r = price_from_of p /\
    price_range (details r) = price_from_of p /\
    location_of env p = Some (address r, location r) /\
    phone_of p = Some (phone r) /\
    description r = description_of p /\
    images r
    = match get_first_valid_image (p_carousel p) with
      | Some main_image =>
          if PyStr.truthy main_image then [main_image] else []
      | None => []
      end /\
    extract_homeplans env p = Some (homeplans r) /\
    homesites_loop env (latitude (location r)) (longitude (location r))
      (p_cards p) (loop_start url) = Some st /\
    homesites r = ls_homesites st /\
    nearby_places p = Some (nearbyplaces r).
Proof.
  unfold fetch_page. intros H.
  destruct (PyStr.second_last _) as [community_name|]; [|done].
  destruct (browse env url) as [p|]; [|done].
  destruct (community_name_of p) as [nm|] eqn:Hname; [|done].
  destruct (location_of env p) as [[a loc]|] eqn:Hloc; [|done].
  destruct (phone_of p) as [ph|] eqn:Hphone; [|done].
  destruct (extract_homeplans env p) as [plans|] eqn:Hplans; [|done].
  destruct (homesites_loop _ _ _ _ _) as [st|] eqn:Hloop; [|done].
  destruct (nearby_places p) as [near|] eqn:Hnear; [|done].
  injection H as <-. simpl. exists p, st.
  split; [by eexists|]. by repeat (split; [done|]).
Qed.

Lemma homesite_step_shown env lat lon st qmi st' :
  homesite_step env lat lon st qmi = Some st' ->
  exists h,
    ls_homesites st' = ls_homesites st ++ [h] /\ shown_as env qmi h.
Proof.
  unfold homesite_step. intros H. cbv zeta in H.
  destruct (street_field qmi) as [full_address|]; [|done].
  destruct (spec_field PyNum.int id _ _) as [[beds bedv]|]; [|done].
  destruct (spec_field (py_float env) id _ _) as [[baths bathv]|]; [|done].
  destruct (spec_field PyNum.int (PyStr.remove_chr ",") _ _)
    as [[sqft sqftv]|]; [|done].
  destruct (link_field _ _ _ _) as [[[url' hs_url'] imgs]|] eqn:Hlink; [|done].
  destruct (lot_field _) as [lot|]; [|done].
  injection H as <-. simpl. eexists. split; [reflexivity|].
  unfold link_field in Hlink.
  destruct (c_link qmi) as [[href|]|] eqn:Hl; [|done|];
    injection Hlink as <- <- <-; split; simpl; rewrite ?Hl; try done.
  by intros ? [= <-].
Qed.

Lemma homesites_loop_shown env lat lon cards : forall st st',
  homesites_loop env lat lon cards st = Some st' ->
  exists hs,
    ls_homesites st' = ls_homesites st ++ hs /\
    Forall2 (shown_as env) cards hs.
Proof.
  induction cards as [|qmi rest IH]; intros st st'; simpl.
  - intros [= <-]. exists []. rewrite app_nil_r. split; [done|constructor].
  - destruct (homesite_step env lat lon st qmi) as [st1|] eqn:Hstep; [|done].
    intros Hrest. apply homesite_step_shown in Hstep as (h & Hh & Hshown).
    apply IH in Hrest as (hs & Hhs & Hall).
    exists (h :: hs). rewrite Hhs, Hh, <- app_assoc. split; [done|].
    by constructor.
Qed.

Lemma fetch_page_shown env url r p :
  fetch_page env url = Some r ->
  browse env url = Some p ->
  Forall2 (shown_as env) (p_cards p) (homesites r).
Proof.
  intros H Hp.
  apply fetch_page_parts in H
    as (p' & st & _ & Hp' & _ & _ & _ & _ & _ & _ & _ & _ & Hloop & -> & _).
  rewrite Hp in Hp'. injection Hp' as <-.
  by apply homesites_loop_shown in Hloop as (hs & -> & Hall).
Qed.

End RecordFacts.

(** X11.  A record has one homesite for every quick move-in card of the
    page, in the order of the page: the homesite shows the card's plan
    name, price, image, flags and completed details link, its status is
    [Move-in Ready], and its images are those of its own page when the card
    has a details link, else the card's image.  The floor plans, one per name, are never more than
    the homesites. *)
Theorem homesites_follow_cards env url r p :
  fetch_page env url = Some r ->
  browse env url = Some p ->
  Forall2 (shown_as env) (p_cards p) (homesites r) /\
  length (homesites r) = length (p_cards p) /\
  length (homeplans r) <= length (homesites r).
Proof.
  intros H Hp.
  pose proof (RecordFacts.fetch_page_shown _ _ _ _ H Hp) as Hall.
  split; [done|]. apply Forall2_length in Hall as Hlen.
  split; [done|].
  apply RecordFacts.fetch_page_parts in H
    as (p' & st & _ & Hp' & _ & _ & _ & _ & _ & _ & _ & Hplans & _).
  rewrite Hp in Hp'. injection Hp' as <-.
  apply PlanFacts.homeplans_from_length in Hplans. lia.
Qed.

Lemma homesites_follow_cards_witness :
  exists r,
    fetch_page Sample.env Fixture.listing_url = Some r /\
    map hs_images (homesites r)
    = [["https://www.centurycommunities.com/media/g1.jpg";
        "https://cdn.example.com/g2.jpg"];
       ["https://www.centurycommunities.com/media/plan.jpg"]] /\
    length (homesites r) = 2 /\
    length (homeplans r) <= length (homesites r).
Proof.
  eexists. split; [vm_compute; reflexivity|]. split; [reflexivity|].
  destruct (homesites_follow_cards Sample.env Fixture.listing_url
              _ Sample.page ltac:(vm_compute; reflexivity) eq_refl)
    as (_ & Hlen & Hle).
  split; [exact Hlen|exact Hle].
Defined.

Module LinkShape.

Lemma floorplan_images_absolute env url :
  Forall (fun fi => is_absolute (fi_image_url fi))
    (get_floorplan_images env url).
Proof.
  unfold get_floorplan_images.
  destruct (floorplan_tabs env url) as [tabs|]; [|done].
  apply Forall_flat_map, Forall_forall. intros tab _.
  apply Forall_forall. intros fi Hfi.
  apply ImageFacts.tab_image_inv in Hfi as (_ & _ & src & _ & _ & ->).
  apply UrlFacts.absolute_is_absolute.
Qed.

Lemma homeplan_of_links env name card hp :
  homeplan_of env name card = Some hp -> plan_links_absolute hp.
Proof.
  unfold homeplan_of.
  destruct (c_link card) as [[href|]|]; [|done|done].
  destruct (c_price card) as [price|]; [|done].
  destruct (c_beds card) as [[beds|]|]; [|done|done].
  destruct (c_baths card) as [[baths|]|]; [|done|done].
  destruct (c_sqft card) as [[sqft|]|]; [|done|done].
  destruct (c_img card) as [img|]; [|done].
  intros [= <-]. unfold plan_links_absolute. simpl.
  split; [apply UrlFacts.absolute_is_absolute|].
  split; [|apply floorplan_images_absolute].
  destruct (default "" img) as [|c src] eqn:Himg; [by left|right].
  cbn [PyStr.truthy andb].
  destruct (PyStr.startswith (String c src) "http") eqn:Hs; simpl; [done|].
  apply UrlFacts.origin_absolute.
Qed.

Lemma image_field_absolute qmi : absolute_if_any (image_field qmi).
Proof.
  unfold image_field. destruct (c_img qmi) as [[src|]|]; try done.
  destruct (PyStr.truthy src); [|done].
  apply UrlFacts.absolute_is_absolute.
Qed.

Lemma shown_links_absolute env qmi h :
  shown_as env qmi h -> homesite_links_absolute h.
Proof.
  intros Hs. unfold homesite_links_absolute.
  rewrite (sa_url _ _ _ Hs), (sa_image_url _ _ _ Hs).
  pose proof (image_field_absolute qmi) as Himg.
  split; [|split; [done|]].
  - destruct (c_link qmi ≫= id) as [href|]; [|done].
    apply UrlFacts.absolute_is_absolute.
  - destruct (c_link qmi) as [[href|]|] eqn:Hl.
    + rewrite (sa_images_linked _ _ _ Hs href Hl).
      split; [apply ImageFacts.homesite_images_absolute|].
      apply ImageFacts.homesite_images_length.
    + by destruct (sa_href _ _ _ Hs).
    + rewrite (sa_images_unlinked _ _ _ Hs Hl).
      destruct (image_field qmi) as [u|]; simpl; [|split; [done|lia]].
      split; [by apply Forall_singleton|lia].
Qed.

End LinkShape.

(** X12.  Every link of a record starts with [http]: the main image, the
    URL, the image and the floor-plan images of every floor plan (a plan
    image may be the empty string instead), and the URL, the image and the
    images of every homesite.  A record has at most one main image, and a
    homesite at most twelve images. *)
Theorem record_links_absolute env url r :
  fetch_page env url = Some r ->
  Forall is_absolute (images r) /\
  length (images r) <= 1 /\
  Forall plan_links_absolute (homeplans r) /\
  Forall homesite_links_absolute (homesites r).
Proof.
  intros H.
  destruct (RecordFacts.fetch_page_parts _ _ _ H)
    as (p & st & _ & Hp & _ & _ & _ & _ & _ & _ & Himg & Hplans & _).
  pose proof (RecordFacts.fetch_page_shown _ _ _ _ H Hp) as Hshown.
  rewrite Himg. split; [|split; [|split]].
  - destruct (get_first_valid_image (p_carousel p)) as [u|] eqn:Hu; [|done].
    destruct (PyStr.truthy u); [|done].
    apply Forall_singleton.
    by eapply ImageFacts.first_valid_image_absolute.
  - destruct (get_first_valid_image (p_carousel p)) as [u|]; [|simpl; lia].
    destruct (PyStr.truthy u); simpl; lia.
  - apply PlanFacts.homeplans_from_spec in Hplans as (_ & _ & Hall).
    apply Forall_forall. intros hp Hhp.
    destruct (Hall hp Hhp) as (pre & card & _ & Hof).
    by eapply LinkShape.homeplan_of_links.
  - apply (Forall2_Forall_r _ _ _ _ Hshown), Forall_forall.
    intros qmi _ h. apply LinkShape.shown_links_absolute.
Qed.

Lemma record_links_absolute_witness :
  exists r,
    fetch_page Sample.env Fixture.listing_url = Some r /\
    images r = ["https://www.centurycommunities.com/media/main.jpg"] /\
    Forall plan_links_absolute (homeplans r) /\
    Forall homesite_links_absolute (homesites r).
Proof.
  eexists. split; [vm_compute; reflexivity|]. split; [reflexivity|].
  destruct (record_links_absolute Sample.env Fixture.listing_url _
              ltac:(vm_compute; reflexivity))
    as (_ & _ & Hplans & Hsites).
  split; [exact Hplans|exact Hsites].
Defined.

(** ** Splitting *)

Module SplitFacts.

Lemma contains_chars_cons p c l :
  contains_chars p (c :: l) = false ->
  PyStr.startswith_chars p (c :: l) = false /\ contains_chars p l = false.
Proof. cbn [contains_chars]. by intros [? ?]%orb_false_iff. Qed.

(** Without an occurrence of the separator there is one field. *)
Lemma split_go_whole sep l : forall cur,
  contains_chars sep l = false ->
  PyStr.split_go sep l 0 cur = [rev cur ++ l].
Proof.
  induction l as [|c l IH]; intros cur Hc.
  - simpl. by rewrite app_nil_r.
  - apply contains_chars_cons in Hc as [Hs Hc].
    cbn [PyStr.split_go]. rewrite Hs, (IH _ Hc). simpl.
    by rewrite <- app_assoc.
Qed.

Lemma split_whole s sep :
  contains s sep = false -> PyStr.split s sep = [s].
Proof.
  unfold contains, PyStr.split. intros Hc.
  rewrite (split_go_whole _ _ [] Hc). simpl.
  by rewrite ExtractFacts.text_chars.
Qed.

End SplitFacts.

(** X13.  A URL without a slash has no second-to-last path segment:
    [fetch_page] gives up on it before anything is loaded, whatever the
    site would have answered. *)
Theorem url_without_slash_gives_nothing env url :
  contains url "/" = false -> fetch_page env url = None.
Proof.
  intros Hc. unfold fetch_page.
  by rewrite (SplitFacts.split_whole _ _ Hc).
Qed.

Lemma url_without_slash_gives_nothing_witness :
  fetch_page (Fixture.env Fixture.one_home GeoNotFound) "oakhurst-manor"
  = None.
Proof.
  apply (url_without_slash_gives_nothing
           (Fixture.env Fixture.one_home GeoNotFound) "oakhurst-manor").
  vm_compute. reflexivity.
Defined.

(** ** Coordinates *)

Module CoordFacts.

Lemma geocoded_paired env address lat lon :
  geocoded env address = (lat, lon) -> (lat = None <-> lon = None).
Proof.
  unfold geocoded. destruct (get_coordinates env address) as [la lo].
  destruct la as [x|], lo as [y|]; simpl;
    try destruct (PyNum.float_truthy x); try destruct (PyNum.float_truthy y);
    simpl; by intros [= <- <-].
Qed.

Lemma resolve_coordinates_paired env p address lat lon :
  resolve_coordinates env p address = Some (lat, lon) ->
  (lat = None <-> lon = None).
Proof.
  unfold resolve_coordinates.
  destruct (scan_scripts env (p_scripts p)) as [[[x y]|]|]; [| |done].
  - by intros [= <- <-].
  - destruct (p_map p) as [[data_lat data_lng]|].
    + destruct (py_float env data_lat) as [x|]; [|done].
      destruct (py_float env data_lng) as [y|]; [|done].
      by intros [= <- <-].
    + intros [= H]. by apply geocoded_paired in H.
Qed.

Lemma location_of_paired env p a loc :
  location_of env p = Some (a, loc) ->
  (latitude loc = None <-> longitude loc = None).
Proof.
  unfold location_of. destruct (p_address p) as [t|].
  - destruct (resolve_coordinates _ _ _) as [[lat lon]|] eqn:Hr; [|done].
    intros [= <- <-]. simpl. by eapply resolve_coordinates_paired.
  - by intros [= <- <-].
Qed.

Lemma get_coordinates_paired env address :
  (get_coordinates env address).1 = None <->
  (get_coordinates env address).2 = None.
Proof.
  unfold get_coordinates.
  destruct (geocode env _) as [x y| |]; [done| |done].
  destruct (Re.search _ _) as [m|]; [|done].
  destruct (Re.group_text 1 m) as [g1|]; [|done].
  destruct (Re.group_text 2 m) as [g2|]; [|done].
  by destruct (geocode env _).
Qed.

End CoordFacts.

(** X14.  The coordinates of a record come in pairs: the latitude is
    absent exactly when the longitude is.  Every homesite of the record
    carries the record's own coordinates. *)
Theorem coordinates_come_in_pairs env url r :
  fetch_page env url = Some r ->
  (latitude (location r) = None <-> longitude (location r) = None) /\
  Forall
    (fun h =>
       hs_latitude h = latitude (location r) /\
       hs_longitude h = longitude (location r))
    (homesites r).
Proof.
  intros H.
  apply LoopFacts.fetch_page_inv in H as (p & a & _ & Hloc & _ & Hall & _).
  split; [by eapply CoordFacts.location_of_paired|].
  apply (Forall2_Forall_r _ _ _ _ Hall), Forall_forall.
  intros qmi _ h Hb.
  split; [apply (bf_latitude _ _ _ _ _ Hb)|apply (bf_longitude _ _ _ _ _ Hb)].
Qed.

Lemma coordinates_come_in_pairs_witness :
  exists r,
    fetch_page
      (Fixture.env Fixture.three_homes (GeoFound 33.5%float (-84.25)%float))
      Fixture.listing_url = Some r /\
    Forall
      (fun h =>
         hs_latitude h = latitude (location r) /\
         hs_longitude h = longitude (location r))
      (homesites r).
Proof.
  eexists. split; [vm_compute; reflexivity|].
  destruct (coordinates_come_in_pairs
              (Fixture.env Fixture.three_homes
                 (GeoFound 33.5%float (-84.25)%float))
              Fixture.listing_url _ ltac:(vm_compute; reflexivity))
    as (_ & Hall).
  exact Hall.
Defined.

(** ** Stripped texts *)

Module StripFacts.

Lemma last_rev {A} (l : list A) : last (rev l) = head l.
Proof. destruct l as [|a l]; [done|]. simpl. apply last_snoc. Qed.

Lemma head_rev {A} (l : list A) : head (rev l) = last l.
Proof. by rewrite <- (rev_involutive l) at 2; rewrite last_rev. Qed.

Lemma lstrip_head l c : head (PyStr.lstrip l) = Some c -> Chr.is_space c = false.
Proof.
  induction l as [|a l IH]; simpl; [done|].
  destruct (Chr.is_space a) eqn:Ha; [done|]. by intros [= <-].
Qed.

Lemma lstrip_fixed l :
  (forall c, head l = Some c -> Chr.is_space c = false) ->
  PyStr.lstrip l = l.
Proof.
  destruct l as [|a l]; simpl; [done|].
  intros H. by rewrite (H a eq_refl).
Qed.

(** [lstrip] keeps the end of a list that it does not empty. *)
Lemma lstrip_last l c :
  last (PyStr.lstrip l) = Some c -> last l = Some c.
Proof.
  induction l as [|a l IH]; [done|]. cbn [PyStr.lstrip].
  destruct (Chr.is_space a); [|done].
  intros Hl. specialize (IH Hl). by destruct l.
Qed.

Lemma strip_chars_head l c :
  head (PyStr.strip_chars l) = Some c -> Chr.is_space c = false.
Proof.
  unfold PyStr.strip_chars. rewrite head_rev. intros Hl.
  apply lstrip_last in Hl. rewrite last_rev in Hl.
  by apply lstrip_head in Hl.
Qed.

Lemma strip_chars_last l c :
  last (PyStr.strip_chars l) = Some c -> Chr.is_space c = false.
Proof.
  unfold PyStr.strip_chars. rewrite last_rev. apply lstrip_head.
Qed.

Lemma strip_chars_fixed l :
  (forall c, head l = Some c -> Chr.is_space c = false) ->
  (forall c, last l = Some c -> Chr.is_space c = false) ->
  PyStr.strip_chars l = l.
Proof.
  intros Hh Hl. unfold PyStr.strip_chars.
  rewrite (lstrip_fixed l Hh), lstrip_fixed, rev_involutive; [done|].
  intros c. rewrite head_rev. apply Hl.
Qed.

Lemma strip_idempotent s : PyStr.strip (PyStr.strip s) = PyStr.strip s.
Proof.
  unfold PyStr.strip. rewrite ExtractFacts.chars_text.
  rewrite strip_chars_fixed; [done| |].
  - apply strip_chars_head.
  - apply strip_chars_last.
Qed.

(** A stripped text is never the no-break space alone. *)
Lemma strip_not_nbsp s : String.eqb (PyStr.strip s) nbsp = false.
Proof.
  apply String.eqb_neq. intros Heq.
  assert (PyStr.chars (PyStr.strip s) = PyStr.chars nbsp) as Hc by by rewrite Heq.
  unfold PyStr.strip in Hc. rewrite ExtractFacts.chars_text in Hc.
  pose proof (strip_chars_head (PyStr.chars s) (ascii_of_nat 160)) as Hh.
  rewrite Hc in Hh. by specialize (Hh eq_refl).
Qed.

End StripFacts.

(** ** Nearby places *)

Module PlaceFacts.

Lemma truthy_nonempty s : PyStr.truthy s = true <-> s <> "".
Proof. by destruct s. Qed.

Lemma places_of_plain category_name names :
  places_of category_name names
  = plain_place category_name
      <$> filter (fun n => n <> "") (PyStr.strip <$> names).
Proof.
  unfold places_of. induction names as [|t names IH]; [done|].
  cbn [flat_map fmap list_fmap]. rewrite filter_cons, IH.
  rewrite StripFacts.strip_not_nbsp, andb_true_r.
  destruct (PyStr.strip t) as [|c s] eqn:Hs; [done|].
  cbn [PyStr.truthy]. by rewrite decide_True by done.
Qed.

Lemma places_of_well_formed t names :
  Forall place_well_formed (places_of (PyStr.strip t) names).
Proof.
  rewrite places_of_plain. apply Forall_fmap, Forall_forall.
  intros n [Hne (t' & -> & _)%list_elem_of_fmap]%list_elem_of_filter.
  unfold place_well_formed, stripped. simpl.
  by rewrite !StripFacts.strip_idempotent.
Qed.

Lemma section_places_well_formed s l :
  section_places s = Some l -> Forall place_well_formed l.
Proof.
  unfold section_places. destruct (ns_heading s) as [[t|]|]; [|done|].
  - destruct (ns_places s) as [names|]; intros [= <-]; [|done].
    apply places_of_well_formed.
  - by intros [= <-].
Qed.

Lemma sections_places_well_formed sections : forall l,
  sections_places sections = Some l -> Forall place_well_formed l.
Proof.
  induction sections as [|s rest IH]; intros l; simpl.
  - by intros [= <-].
  - destruct (section_places s) as [here|] eqn:Hs; [|done].
    destruct (sections_places rest) as [more|]; [|done].
    intros [= <-]. apply Forall_app. split; [|by apply IH].
    by eapply section_places_well_formed.
Qed.

End PlaceFacts.

(** X15.  Every nearby place of a record has a name that is not empty, a
    name and a category without whitespace at either end, and no distance,
    rating or number of reviews. *)
Theorem nearby_places_well_formed env url r :
  fetch_page env url = Some r ->
  Forall place_well_formed (nearbyplaces r).
Proof.
  intros H.
  apply RecordFacts.fetch_page_parts in H
    as (p & st & _ & _ & _ & _ & _ & _ & _ & _ & _ & _ & _ & _ & Hnear).
  unfold nearby_places in Hnear. destruct (p_nearby p) as [sections|].
  - by eapply PlaceFacts.sections_places_well_formed.
  - by injection Hnear as <-.
Qed.

Lemma nearby_places_well_formed_witness :
  exists r,
    fetch_page Sample.env Fixture.listing_url = Some r /\
    map np_name (nearbyplaces r) = ["Oak Elementary"; "Pine High"] /\
    Forall place_well_formed (nearbyplaces r).
Proof.
  eexists. split; [vm_compute; reflexivity|]. split; [reflexivity|].
  apply (nearby_places_well_formed Sample.env Fixture.listing_url).
  vm_compute. reflexivity.
Defined.

(** X16.  The places of a category are the paragraphs of its section whose
    stripped text is not empty, each recorded with that text and the
    category alone.  The comparison with a lone no-break space never
    decides, since stripping removes that character as well. *)
Theorem blank_places_skipped category_name names :
  places_of category_name names
  = plain_place category_name
      <$> filter (fun n => n <> "") (PyStr.strip <$> names).
Proof. apply PlaceFacts.places_of_plain. Qed.

(** ** The description *)

(** X17.  The description of a record is absent only when neither the
    overview section nor the description block has a paragraph.  A
    paragraph of the overview that is not blank is the description,
    whatever the description block holds; the block is used when the
    overview has no paragraph or a blank one. *)
Theorem description_prefers_overview env url r p :
  fetch_page env url = Some r ->
  browse env url = Some p ->
  (description r = None <->
   p_overview p ≫= id = None /\ p_description p ≫= id = None) /\
  match p_overview p ≫= id, p_description p ≫= id with
  | Some t, Some t' =>
      description r = Some (if PyStr.truthy (squeeze t) then squeeze t
                            else squeeze t')
  | Some t, None => description r = Some (squeeze t)
  | None, Some t' => description r = Some (squeeze t')
  | None, None => description r = None
  end.
Proof.
  intros H Hp.
  apply RecordFacts.fetch_page_parts in H
    as (p' & st & _ & Hp' & _ & _ & _ & _ & _ & -> & _).
  rewrite Hp in Hp'. injection Hp' as <-.
  unfold description_of.
  destruct (p_overview p) as [[t|]|], (p_description p) as [[t'|]|]; simpl;
    try destruct (PyStr.truthy (squeeze t)); simpl; split; try done;
    try (split; [done|by intros [? ?]]).
Qed.

Lemma description_prefers_overview_witness :
  exists r,
    fetch_page Sample.env Fixture.listing_url = Some r /\
    description r = Some "A quiet community.".
Proof.
  eexists. split; [vm_compute; reflexivity|].
  destruct (description_prefers_overview Sample.env Fixture.listing_url _
              Sample.page ltac:(vm_compute; reflexivity) eq_refl)
    as (_ & Hd).
  exact Hd.
Defined.

(** ** Texts of the record *)

Module TextFacts.

Lemma strip_stripped s : stripped (PyStr.strip s).
Proof. apply StripFacts.strip_idempotent. Qed.

Lemma fmap_strip_stripped o : stripped_if_any (PyStr.strip <$> o).
Proof. destruct o; [apply strip_stripped|done]. Qed.

Lemma nonblank_lines_stripped t line :
  line ∈ nonblank_lines t -> stripped line.
Proof.
  unfold nonblank_lines.
  intros [_ (part & -> & _)%list_elem_of_fmap]%list_elem_of_filter.
  apply strip_stripped.
Qed.

Lemma community_name_stripped p name :
  community_name_of p = Some name -> stripped_if_any name.
Proof.
  unfold community_name_of. destruct (p_listing_h1 p) as [[t|]|]; [| |done].
  - destruct (head (nonblank_lines t)) as [first|] eqn:Hh; [|done].
    intros [= <-]. apply head_Some_elem_of in Hh.
    by eapply nonblank_lines_stripped.
  - by intros [= <-].
Qed.

Lemma phone_stripped p phone :
  phone_of p = Some phone -> stripped_if_any phone.
Proof.
  unfold phone_of. destruct (p_phone p) as [[t|]|]; [|done|].
  - intros [= <-]. apply strip_stripped.
  - by intros [= <-].
Qed.

Lemma homeplan_of_stripped env title card hp :
  homeplan_of env (PyStr.strip title) card = Some hp ->
  plan_texts_stripped hp.
Proof.
  unfold homeplan_of.
  destruct (c_link card) as [[href|]|]; [|done|done].
  destruct (c_price card) as [price|]; [|done].
  destruct (c_beds card) as [[beds|]|]; [|done|done].
  destruct (c_baths card) as [[baths|]|]; [|done|done].
  destruct (c_sqft card) as [[sqft|]|]; [|done|done].
  destruct (c_img card) as [img|]; [|done].
  intros [= <-]. unfold plan_texts_stripped. simpl.
  repeat split; apply strip_stripped.
Qed.

Lemma shown_stripped env qmi h :
  shown_as env qmi h ->
  stripped_if_any (hs_plan h) /\ stripped_if_any (hs_price h).
Proof.
  intros Hs. rewrite (sa_plan _ _ _ Hs), (sa_price _ _ _ Hs).
  split; apply fmap_strip_stripped.
Qed.

Lemma built_stripped env lat lon qmi h :
  built_from env lat lon qmi h -> stripped_if_any (hs_name h).
Proof.
  intros Hb. destruct (c_street qmi) as [t|] eqn:Ht.
  - destruct (bf_address_some _ _ _ _ _ Hb t Ht)
      as (street & (field & _ & ->) & -> & _).
    apply strip_stripped.
  - by destruct (bf_address_none _ _ _ _ _ Hb Ht) as [-> _].
Qed.

End TextFacts.

(** X18.  The texts a record takes from the page carry no whitespace at
    either end: the community's name and phone, the name, price, bedrooms,
    bathrooms and square footage of every floor plan, and the street text,
    plan name and price of every homesite. *)
Theorem record_texts_stripped env url r :
  fetch_page env url = Some r ->
  stripped_if_any (name r) /\
  stripped_if_any (phone r) /\
  Forall plan_texts_stripped (homeplans r) /\
  Forall homesite_texts_stripped (homesites r).
Proof.
  intros H.
  destruct (RecordFacts.fetch_page_parts _ _ _ H)
    as (p & st & _ & Hp & Hname & _ & _ & _ & Hphone & _ & _ & Hplans & _).
  pose proof (RecordFacts.fetch_page_shown _ _ _ _ H Hp) as Hshown.
  destruct (LoopFacts.fetch_page_inv _ _ _ H)
    as (p' & a & Hp' & _ & _ & Hbuilt & _).
  rewrite Hp in Hp'. injection Hp' as <-.
  split; [by eapply TextFacts.community_name_stripped|].
  split; [by eapply TextFacts.phone_stripped|]. split.
  - apply PlanFacts.homeplans_from_spec in Hplans as (_ & _ & Hall).
    apply Forall_forall. intros hp Hhp.
    destruct (Hall hp Hhp) as (pre & card & (post & _ & Hn & _) & Hof).
    unfold card_name in Hn. destruct (c_title card) as [title|]; [|done].
    injection Hn as Hn. rewrite <- Hn in Hof.
    by eapply TextFacts.homeplan_of_stripped.
  - unfold homesite_texts_stripped. apply Forall_and. split.
    + apply (Forall2_Forall_r _ _ _ _ Hbuilt), Forall_forall.
      intros qmi _ h. apply TextFacts.built_stripped.
    + apply (Forall2_Forall_r _ _ _ _ Hshown), Forall_forall.
      intros qmi _ h. apply TextFacts.shown_stripped.
Qed.

Lemma record_texts_stripped_witness :
  exists r,
    fetch_page Sample.env Fixture.listing_url = Some r /\
    name r = Some "Oakhurst Manor" /\
    phone r = Some "770-555-0100" /\
    Forall plan_texts_stripped (homeplans r) /\
    Forall homesite_texts_stripped (homesites r).
Proof.
  eexists. split; [vm_compute; reflexivity|].
  split; [reflexivity|]. split; [reflexivity|].
  destruct (record_texts_stripped Sample.env Fixture.listing_url _
              ltac:(vm_compute; reflexivity)) as (_ & _ & Hplans & Hsites).
  split; [exact Hplans|exact Hsites].
Defined.

(** ** The shape of the extracted values *)

Module ShapeFacts.
Import Re ExtractFacts.

Lemma leftmost_matches r s v : leftmost_match r s v -> matches r v.
Proof. by intros (pre & post & _ & H & _). Qed.

Lemma leading_matches g tail s v : leading_group g tail s v -> matches g v.
Proof. by intros (pre & rest & post & _ & H & _). Qed.

Lemma digit_facts c :
  Chr.is_digit c = true ->
  Chr.is_space c = false /\ c <> "+"%char /\ c <> "-"%char /\
  (0 <= PyNum.digit_val c)%Z.
Proof.
  destruct c as [[] [] [] [] [] [] [] []]; vm_compute; intros H;
    try discriminate H; repeat split; congruence.
Qed.

Lemma int_digits_digits l : forall acc seen,
  digits_only l -> (0 <= acc)%Z -> l <> [] \/ seen = true ->
  exists n, PyNum.int_digits l acc seen = Some n /\ (0 <= n)%Z.
Proof.
  induction l as [|c l IH]; intros acc seen Hd Hacc Hne.
  - destruct Hne as [?| ->]; [done|]. by exists acc.
  - unfold digits_only in Hd. simpl in Hd.
    apply andb_true_iff in Hd as [Hc Hd]. cbn [PyNum.int_digits].
    rewrite Hc. apply IH; [done| |by right].
    destruct (digit_facts c Hc) as (_ & _ & _ & ?). lia.
Qed.

Lemma digits_trimmed l c :
  digits_only l -> (head l = Some c \/ last l = Some c) ->
  Chr.is_space c = false.
Proof.
  intros Hd Hc.
  assert (c ∈ l) as Hin.
  { destruct Hc as [?|Hl]; [by apply head_Some_elem_of|].
    apply last_Some in Hl as (l' & ->). apply elem_of_app. right. by left. }
  unfold digits_only in Hd. rewrite forallb_forall in Hd.
  apply list_elem_of_In, Hd in Hin. by apply digit_facts in Hin as (? & _).
Qed.

Lemma digit_count_digits l :
  digits_only l -> PyNum.digit_count l = N.of_nat (length l).
Proof.
  unfold PyNum.digit_count, digits_only. intros Hd. do 2 f_equal.
  induction l as [|c l IH]; [done|]. simpl in Hd.
  apply andb_true_iff in Hd as [Hc Hd].
  by rewrite filter_cons, decide_True, IH.
Qed.

(** A text that starts with a digit has no sign. *)
Lemma int_unsigned v c l :
  PyStr.chars v = c :: l -> digits_only (c :: l) ->
  PyNum.int v = PyNum.int_literal (c :: l).
Proof.
  intros Hv Hd. unfold PyNum.int.
  rewrite Hv, StripFacts.strip_chars_fixed.
  2: { intros a Ha. eapply digits_trimmed; eauto. }
  2: { intros a Ha. eapply digits_trimmed; eauto. }
  assert (Chr.is_digit c = true) as Hc.
  { unfold digits_only in Hd. simpl in Hd.
    by apply andb_true_iff in Hd as [? _]. }
  destruct c as [[] [] [] [] [] [] [] []];
    try (vm_compute in Hc; discriminate Hc); reflexivity.
Qed.

(** [int] reads a run of digits exactly when it is within the limit. *)
Lemma int_of_digits v :
  PyStr.chars v <> [] -> digits_only (PyStr.chars v) ->
  (reads_as_natural v <-> within_digit_limit v).
Proof.
  intros Hne Hd. unfold reads_as_natural, within_digit_limit.
  destruct (PyStr.chars v) as [|c l] eqn:Hv; [done|].
  rewrite (int_unsigned v c l Hv Hd). unfold PyNum.int_literal.
  rewrite (digit_count_digits _ Hd).
  destruct (N.leb_spec (N.of_nat (length (c :: l))) PyNum.max_str_digits)
    as [Hle|Hgt].
  - split; [done|]. intros _.
    destruct (int_digits_digits (c :: l) 0 false Hd) as (n & Hn & Hpos);
      [lia|by left|].
    by exists n.
  - split; [by intros (n & ? & _)|]. intros Hle. lia.
Qed.

Lemma decimal_matches v : matches decimal_re (PyStr.chars v) -> decimal_shaped v.
Proof.
  unfold decimal_re, Opt. intros H.
  apply matches_seq in H as (whole & frac & Hv & [Hne Hw]%matches_plus & Hf).
  exists whole, frac. split; [done|]. split; [done|]. split; [done|].
  apply matches_alt in Hf as [Hf| ->%matches_eps]; [right|by left].
  apply matches_seq in Hf
    as (pt & after & -> & ->%matches_chr & [Hna Ha]%matches_plus).
  by exists after.
Qed.

Lemma remove_commas_digits g :
  forallb digit_or_comma g = true ->
  digits_only (PyStr.chars (PyStr.remove_chr "," (PyStr.text g))).
Proof.
  unfold PyStr.remove_chr, digits_only. rewrite !chars_text. intros Hg.
  apply forallb_forall. intros c Hc.
  apply list_elem_of_In, list_elem_of_filter in Hc as [Hcomma Hin].
  rewrite forallb_forall in Hg. apply list_elem_of_In, Hg in Hin.
  unfold digit_or_comma in Hin. rewrite Hcomma, orb_false_r in Hin. done.
Qed.

Lemma extract_price_shaped text v :
  extract_price text = Some v -> price_shaped v.
Proof.
  destruct text as [t|]; [|done]. intros Hv.
  pose proof (extract_price_spec t) as Hprice. rewrite Hv in Hprice.
  apply leftmost_matches, matches_seq in Hprice
    as (d & amount & Hc & ->%matches_chr & Ha%matches_plus).
  by exists amount.
Qed.

End ShapeFacts.

(** X19.  What the extractors return is well formed: a price is a dollar
    sign followed by digits and commas; a number of bedrooms is a run of
    digits, which [int] reads exactly when they are no more than it accepts
    (4300); a number of bathrooms is a run of digits, optionally with a
    point and more digits; a square footage holds digits only, and [int]
    reads it exactly when it is not empty and within the same limit.  The
    square footage is empty when the group in front of the unit was made of
    commas alone. *)
Theorem extracted_values_shaped text :
  match extract_price text with
  | Some v => price_shaped v
  | None => True
  end /\
  match (extract_beds_baths text).1 with
  | Some v =>
      PyStr.chars v <> [] /\ digits_only (PyStr.chars v) /\
      (reads_as_natural v <-> within_digit_limit v)
  | None => True
  end /\
  match (extract_beds_baths text).2 with
  | Some v => decimal_shaped v
  | None => True
  end /\
  match extract_sqft text with
  | Some v =>
      digits_only (PyStr.chars v) /\
      (reads_as_natural v <-> v <> "" /\ within_digit_limit v)
  | None => True
  end.
Proof.
  destruct text as [t|]; [|done].
  pose proof (ExtractFacts.extract_beds_spec t) as Hbeds.
  pose proof (ExtractFacts.extract_baths_spec t) as Hbaths.
  pose proof (ExtractFacts.extract_sqft_spec t) as Hsqft.
  split; [|split; [|split]].
  - destruct (extract_price (Some t)) as [v|] eqn:Hv; [|done].
    by eapply ShapeFacts.extract_price_shaped.
  - destruct (extract_beds_baths (Some t)).1 as [v|]; [|done].
    apply ShapeFacts.leading_matches, ExtractFacts.matches_plus in Hbeds
      as [Hne Hd].
    split; [done|]. split; [done|]. by apply ShapeFacts.int_of_digits.
  - destruct (extract_beds_baths (Some t)).2 as [v|]; [|done].
    by apply ShapeFacts.leading_matches, ShapeFacts.decimal_matches in Hbaths.
  - destruct (extract_sqft (Some t)) as [v|]; [|done].
    destruct Hsqft as (g & Hg & ->).
    apply ShapeFacts.leading_matches, ExtractFacts.matches_plus in Hg
      as [_ Hg].
    pose proof (ShapeFacts.remove_commas_digits g Hg) as Hd.
    split; [done|].
    destruct (PyStr.remove_chr "," (PyStr.text g)) as [|c v] eqn:Hv.
    + split; [by intros (n & ? & _)|by intros [? _]].
    + rewrite ShapeFacts.int_of_digits; [|done|done].
      split; [by intros ?|by intros [_ ?]].
Qed.

(** X20.  The price range of a record is its starting price, and a
    starting price reads [From], a space, a dollar sign, then digits and
    commas. *)
Theorem price_from_shaped env url r :
  fetch_page env url = Some r ->
  price_range (details r) = price_from r /\
  match price_from r with
  | Some s => exists price, s = "From " +:+ price /\ price_shaped price
  | None => True
  end.
Proof.
  intros H.
  apply RecordFacts.fetch_page_parts in H
    as (p & st & _ & _ & _ & -> & -> & _).
  split; [done|]. unfold price_from_of.
  destruct (p_price p) as [t|]; [|done].
  destruct (extract_price _) as [price|] eqn:Hprice; [|done].
  destruct (PyStr.truthy price); [|done].
  exists price. split; [done|]. by eapply ShapeFacts.extract_price_shaped.
Qed.

Lemma price_from_shaped_witness :
  exists r,
    fetch_page Sample.env Fixture.listing_url = Some r /\
    price_from r = Some "From $312,990" /\
    price_range (details r) = price_from r.
Proof.
  eexists. split; [vm_compute; reflexivity|]. split; [reflexivity|].
  destruct (price_from_shaped Sample.env Fixture.listing_url _
              ltac:(vm_compute; reflexivity)) as (Hrange & _).
  exact Hrange.
Defined.

(** ** Splitting and joining *)

Module SplitJoin.
Import ExtractFacts UrlFacts.

Lemma startswith_chars_app p l :
  PyStr.startswith_chars p l = true <-> exists rest, l = p ++ rest.
Proof.
  revert l. induction p as [|a p IH]; intros l; simpl.
  - split; [by exists l|done].
  - destruct l as [|b l]; [split; [done|by intros (? & ?)]|].
    rewrite andb_true_iff, IH. unfold Chr.eqb. rewrite Ascii.eqb_eq. split.
    + intros [-> (rest & ->)]. by exists rest.
    + intros (rest & [= -> ->]). split; [done|by exists rest].
Qed.

Lemma split_go_nonempty sep l : forall skip cur,
  PyStr.split_go sep l skip cur <> [].
Proof.
  induction l as [|c l IH]; intros skip cur; simpl; [done|].
  destruct skip; [|apply IH].
  destruct (PyStr.startswith_chars sep (c :: l)); [done|apply IH].
Qed.

Lemma join_cons sep f fs :
  fs <> [] ->
  PyStr.chars (PyStr.join sep (map PyStr.text (f :: fs)))
  = f ++ PyStr.chars sep ++ PyStr.chars (PyStr.join sep (map PyStr.text fs)).
Proof.
  destruct fs as [|g fs]; [done|]. intros _.
  cbn [map PyStr.join]. by rewrite !chars_append, chars_text.
Qed.

(** Joining the fields gives back what was split. *)
Lemma split_go_join sep l : sep <> [] -> forall skip cur,
  PyStr.chars
    (PyStr.join (PyStr.text sep) (map PyStr.text (PyStr.split_go sep l skip cur)))
  = rev cur ++ drop skip l.
Proof.
  intros Hsep. induction l as [|c l IH]; intros skip cur.
  - simpl. by rewrite chars_text, drop_nil, app_nil_r.
  - cbn [PyStr.split_go]. destruct skip as [|n]; [|by rewrite IH].
    destruct (PyStr.startswith_chars sep (c :: l)) eqn:Hs.
    + rewrite join_cons by apply split_go_nonempty.
      rewrite IH, chars_text. simpl.
      apply startswith_chars_app in Hs as (rest & Hrest).
      destruct sep as [|a sep]; [done|]. injection Hrest as <- ->.
      simpl. rewrite Nat.sub_0_r, drop_app_length. done.
    + rewrite IH. simpl. by rewrite <- app_assoc.
Qed.

Lemma split_join s sep :
  sep <> "" -> PyStr.join sep (PyStr.split s sep) = s.
Proof.
  intros Hsep. unfold PyStr.split.
  assert (PyStr.chars sep <> []) as Hc.
  { intros Hc. apply Hsep. by rewrite <- (text_chars sep), Hc. }
  pose proof (split_go_join (PyStr.chars sep) (PyStr.chars s) Hc 0 []) as H.
  rewrite text_chars, drop_0 in H. cbn [rev app] in H.
  apply (f_equal PyStr.text) in H. by rewrite !text_chars in H.
Qed.

(** No field holds the separator. *)
Lemma startswith_chars_shorter p b l :
  PyStr.startswith_chars p b = true -> PyStr.startswith_chars p (b ++ l) = true.
Proof.
  rewrite !startswith_chars_app. intros (rest & ->).
  exists (rest ++ l). by rewrite app_assoc.
Qed.

Lemma contains_chars_false p l :
  contains_chars p l = false <->
  forall a b, l = a ++ b -> PyStr.startswith_chars p b = false.
Proof.
  induction l as [|c l IH]; cbn [contains_chars].
  - rewrite orb_false_r. split.
    + intros H a b Hab. symmetry in Hab.
      by apply app_eq_nil in Hab as [_ ->].
    + intros H. by apply (H [] []).
  - rewrite orb_false_iff, IH. split.
    + intros [H1 H2] [|a0 a] b Hab.
      * simpl in Hab. by subst.
      * injection Hab as <- ->. by eapply H2.
    + intros H. split; [by apply (H [])|].
      intros a b ->. by apply (H (c :: a)).
Qed.

Lemma split_go_fields sep l : sep <> [] -> forall skip cur,
  (forall a b, rev cur = a ++ b -> b <> [] ->
               PyStr.startswith_chars sep (b ++ drop skip l) = false) ->
  (skip <> 0 -> cur = []) ->
  Forall (fun f => contains_chars sep f = false)
    (PyStr.split_go sep l skip cur).
Proof.
  intros Hsep.
  assert (forall cur l',
    (forall a b, rev cur = a ++ b -> b <> [] ->
                 PyStr.startswith_chars sep (b ++ l') = false) ->
    contains_chars sep (rev cur) = false) as Hfield.
  { intros cur l' Hcur. apply contains_chars_false. intros a b Hab.
    destruct b as [|c b]; [by destruct sep|].
    destruct (PyStr.startswith_chars sep (c :: b)) eqn:Hs; [|done].
    apply (startswith_chars_shorter _ _ l') in Hs.
    by rewrite (Hcur a (c :: b) Hab) in Hs. }
  induction l as [|c l IH]; intros skip cur Hcur Hskip.
  - simpl. apply Forall_singleton. by apply (Hfield cur (drop skip [])).
  - cbn [PyStr.split_go]. destruct skip as [|n].
    + destruct (PyStr.startswith_chars sep (c :: l)) eqn:Hs.
      * apply Forall_cons. split; [by apply (Hfield cur (c :: l))|].
        apply IH; [|done]. intros a b Hab Hb. symmetry in Hab.
        by apply app_eq_nil in Hab as [_ ->].
      * apply IH; [|done]. intros a b Hab Hb. simpl in Hab.
        destruct (decide (b = [c])) as [->|Hne]; [done|].
        assert (exists b', b = b' ++ [c] /\ b' <> []) as (b' & -> & Hb').
        { destruct b as [|x b] using rev_ind; [done|].
          rewrite app_assoc in Hab. apply app_inj_tail in Hab as [_ ->].
          exists b. split; [done|]. by intros ->. }
        rewrite app_assoc in Hab. apply app_inj_tail in Hab as [Hab _].
        rewrite <- app_assoc. by apply (Hcur a b' Hab).
    + rewrite (Hskip ltac:(done)). apply IH; [|done].
      intros a b Hab Hb. symmetry in Hab.
      by apply app_eq_nil in Hab as [_ ->].
Qed.

Lemma split_fields s sep f :
  sep <> "" -> f ∈ PyStr.split s sep -> contains f sep = false.
Proof.
  intros Hsep. unfold PyStr.split, contains.
  intros (g & -> & Hg)%list_elem_of_fmap. rewrite chars_text.
  assert (PyStr.chars sep <> []) as Hc.
  { intros Hc. apply Hsep. by rewrite <- (text_chars sep), Hc. }
  pose proof (split_go_fields (PyStr.chars sep) (PyStr.chars s) Hc 0 []) as H.
  rewrite Forall_forall in H. apply H; [|done|done].
  intros a b Hab Hb. symmetry in Hab. by apply app_eq_nil in Hab as [_ ->].
Qed.

End SplitJoin.

(** X21.  A lot identifier is the leading field of the second-to-last
    path segment of its URL: the segment holds no slash, the identifier
    holds no [---], and the segment is the identifier alone or the
    identifier followed by [---] and the rest. *)
Theorem lot_id_is_leading_field url lot_id :
  lot_id_of url = Some lot_id ->
  exists segment,
    PyStr.second_last (PyStr.split url "/") = Some segment /\
    contains segment "/" = false /\
    contains lot_id "---" = false /\
    (segment = lot_id \/ exists rest, segment = lot_id +:+ "---" +:+ rest).
Proof.
  unfold lot_id_of.
  destruct (PyStr.second_last _) as [segment|] eqn:Hseg; [|done].
  intros Hh. exists segment. split; [done|].
  assert (segment ∈ PyStr.split url "/") as Hin.
  { unfold PyStr.second_last in Hseg. apply list_elem_of_In, in_rev.
    destruct (rev _) as [|x [|y k]]; [done|done|].
    injection Hseg as ->. right. by left. }
  split; [by apply SplitJoin.split_fields in Hin|].
  split; [apply SplitJoin.split_fields with (s := segment);
          [done|by apply head_Some_elem_of]|].
  pose proof (SplitJoin.split_join segment "---" ltac:(done)) as Hj.
  destruct (PyStr.split segment "---") as [|f [|g fs]]; [done| |];
    injection Hh as ->.
  - by left.
  - right. by eexists.
Qed.

Lemma lot_id_is_leading_field_witness :
  exists segment,
    PyStr.second_last
      (PyStr.split "https://www.centurycommunities.com/homes/lot-12---avery/"
         "/") = Some segment /\
    contains segment "/" = false /\
    contains "lot-12" "---" = false /\
    (segment = "lot-12" \/ exists rest, segment = "lot-12" +:+ "---" +:+ rest).
Proof.
  apply (lot_id_is_leading_field
           "https://www.centurycommunities.com/homes/lot-12---avery/" "lot-12").
  vm_compute. reflexivity.
Defined.

(** ** The address element and the coordinates *)

(** X22.  The coordinates are looked for only under the address element:
    on a page without it the record has no address, no city, state or
    market and no coordinates, whatever the scripts, the map element or
    the geocoding service would have given, and so has every homesite. *)
Theorem no_address_no_location env url r p :
  fetch_page env url = Some r ->
  browse env url = Some p ->
  p_address p = None ->
  address r = None /\
  loc_address (location r) = no_address_parts /\
  latitude (location r) = None /\
  longitude (location r) = None /\
  Forall (fun h => hs_latitude h = None /\ hs_longitude h = None)
    (homesites r).
Proof.
  intros H Hp Ha.
  apply LoopFacts.fetch_page_inv in H
    as (p' & a & Hp' & Hloc & Haddr & Hall & _).
  rewrite Hp in Hp'. injection Hp' as <-.
  unfold location_of in Hloc. rewrite Ha in Hloc.
  injection Hloc as <- Hl. rewrite <- Hl in *. simpl in *.
  repeat (split; [done|]).
  apply (Forall2_Forall_r _ _ _ _ Hall), Forall_forall.
  intros qmi _ h Hb.
  split; [apply (bf_latitude _ _ _ _ _ Hb)|apply (bf_longitude _ _ _ _ _ Hb)].
Qed.

Lemma no_address_no_location_witness :
  exists r,
    fetch_page Unaddressed.env Fixture.listing_url = Some r /\
    p_map Unaddressed.page = Some ("33.5", "-84.25") /\
    latitude (location r) = None /\
    longitude (location r) = None.
Proof.
  eexists. split; [vm_compute; reflexivity|]. split; [reflexivity|].
  destruct (no_address_no_location Unaddressed.env Fixture.listing_url _
              Unaddressed.page ltac:(vm_compute; reflexivity) eq_refl eq_refl)
    as (_ & _ & Hlat & Hlon & _).
  split; [exact Hlat|exact Hlon].
Defined.

(** ** The numbers of a homesite *)

Module SpecFacts.

Lemma spec_field_read {N} (parse : string -> option N) clean elem values o
    values' :
  spec_field parse clean elem values = Some (o, values') ->
  spec_read parse clean elem o.
Proof.
  unfold spec_field, spec_value, spec_read.
  destruct elem as [span|]; [|by intros [= <- _]].
  destruct span as [t|]; [|done].
  destruct (first_word (PyStr.strip t)) as [word|] eqn:Hw; [|done].
  destruct (parse (clean word)) as [n|] eqn:Hn; [|done].
  intros [= <- _]. exists t, word. rewrite Hn. eauto.
Qed.

Lemma homesite_step_specs env lat lon st qmi st' :
  homesite_step env lat lon st qmi = Some st' ->
  exists h,
    ls_homesites st' = ls_homesites st ++ [h] /\ specs_read env qmi h.
Proof.
  unfold homesite_step. intros H. cbv zeta in H.
  destruct (street_field qmi) as [full_address|]; [|done].
  destruct (spec_field PyNum.int id _ _) as [[beds bedv]|] eqn:Hbeds; [|done].
  destruct (spec_field (py_float env) id _ _) as [[baths bathv]|] eqn:Hbaths;
    [|done].
  destruct (spec_field PyNum.int (PyStr.remove_chr ",") _ _)
    as [[sqft sqftv]|] eqn:Hsqft; [|done].
  destruct (link_field _ _ _ _) as [[[url' hs_url'] imgs]|]; [|done].
  destruct (lot_field _) as [lot|]; [|done].
  injection H as <-. simpl. eexists. split; [reflexivity|].
  apply spec_field_read in Hbeds, Hbaths, Hsqft.
  by repeat split.
Qed.

Lemma homesites_loop_specs env lat lon cards : forall st st',
  homesites_loop env lat lon cards st = Some st' ->
  exists hs,
    ls_homesites st' = ls_homesites st ++ hs /\
    Forall2 (specs_read env) cards hs.
Proof.
  induction cards as [|qmi rest IH]; intros st st'; simpl.
  - intros [= <-]. exists []. rewrite app_nil_r. split; [done|constructor].
  - destruct (homesite_step env lat lon st qmi) as [st1|] eqn:Hstep; [|done].
    intros Hrest. apply homesite_step_specs in Hstep as (h & Hh & Hread).
    apply IH in Hrest as (hs & Hhs & Hall).
    exists (h :: hs). rewrite Hhs, Hh, <- app_assoc. split; [done|].
    by constructor.
Qed.

End SpecFacts.

(** X23.  In a record, the bedrooms, bathrooms and square footage of a
    homesite are present exactly when its card has the icon.  The value is
    the first word of the stripped text of the span after the icon, for
    the square footage with its commas removed, and it is a number [int]
    (for the bathrooms [float]) reads: with a missing span, a blank text or
    a word that is no number there is no record. *)
Theorem homesite_numbers_read env url r p :
  fetch_page env url = Some r ->
  browse env url = Some p ->
  Forall2 (specs_read env) (p_cards p) (homesites r).
Proof.
  intros H Hp.
  apply RecordFacts.fetch_page_parts in H
    as (p' & st & _ & Hp' & _ & _ & _ & _ & _ & _ & _ & _ & Hloop & -> & _).
  rewrite Hp in Hp'. injection Hp' as <-.
  by apply SpecFacts.homesites_loop_specs in Hloop as (hs & -> & Hall).
Qed.

Lemma homesite_numbers_read_witness :
  exists r,
    fetch_page Sample.env Fixture.listing_url = Some r /\
    map hs_sqft (homesites r) = [Some "1950"; Some "1950"] /\
    Forall2 (specs_read Sample.env) (p_cards Sample.page) (homesites r).
Proof.
  eexists. split; [vm_compute; reflexivity|]. split; [reflexivity|].
  apply (homesite_numbers_read Sample.env Fixture.listing_url _ Sample.page).
  - vm_compute. reflexivity.
  - reflexivity.
Defined.

(** ** Floor plans and homesites of one record *)

Module MirrorFacts.

Lemma shown_plans env cards hs :
  Forall2 (shown_as env) cards hs -> map hs_plan hs = map card_name cards.
Proof.
  induction 1 as [|qmi h cards hs Hs _ IH]; [done|].
  simpl. by rewrite IH, (sa_plan _ _ _ Hs).
Qed.

Lemma shown_at env pre card post hs :
  Forall2 (shown_as env) (pre ++ card :: post) hs ->
  exists h, h ∈ hs /\ shown_as env card h.
Proof.
  intros (hs1 & hs2 & _ & H2 & ->)%Forall2_app_inv_l.
  apply Forall2_cons_inv_l in H2 as (h & hs3 & Hs & _ & ->).
  exists h. split; [|done]. apply elem_of_app. right. by left.
Qed.

Lemma homeplan_of_card env name card hp :
  homeplan_of env name card = Some hp ->
  exists href price,
    c_link card = Some (Some href) /\ c_price card = Some price /\
    hp_url hp = absolute href /\
    hd_price (hp_details hp) = PyStr.strip price.
Proof.
  unfold homeplan_of.
  destruct (c_link card) as [[href|]|]; [|done|done].
  destruct (c_price card) as [price|]; [|done].
  destruct (c_beds card) as [[beds|]|]; [|done|done].
  destruct (c_baths card) as [[baths|]|]; [|done|done].
  destruct (c_sqft card) as [[sqft|]|]; [|done|done].
  destruct (c_img card) as [img|]; [|done].
  intros [= <-]. by exists href, price.
Qed.

End MirrorFacts.

(** X24.  Floor plans and homesites of a record mirror each other: every
    homesite names a plan, the plans named by the homesites are exactly the
    floor plans, and each floor plan has the name, the URL and the price of
    one of the homesites. *)
Theorem plans_mirror_homesites env url r :
  fetch_page env url = Some r ->
  (forall name,
     Some name ∈ map hs_plan (homesites r) <->
     name ∈ map hp_name (homeplans r)) /\
  (None ∉ map hs_plan (homesites r)) /\
  Forall
    (fun hp =>
       exists h,
         h ∈ homesites r /\
         hs_plan h = Some (hp_name hp) /\
         hs_url h = Some (hp_url hp) /\
         hs_price h = Some (hd_price (hp_details hp)))
    (homeplans r).
Proof.
  intros H.
  destruct (RecordFacts.fetch_page_parts _ _ _ H)
    as (p & st & _ & Hp & _ & _ & _ & _ & _ & _ & _ & Hplans & _).
  pose proof (RecordFacts.fetch_page_shown _ _ _ _ H Hp) as Hshown.
  pose proof (MirrorFacts.shown_plans _ _ _ Hshown) as Hnames.
  pose proof Hplans as Hsome.
  apply PlanFacts.homeplans_from_spec in Hplans as (_ & Hmem & Hall).
  split; [|split].
  - intros name. rewrite Hnames, Hmem. split; [|by intros [_ ?]].
    intros ?. split; [apply not_elem_of_empty|done].
  - rewrite Hnames. intros (card & Hnone & Hin)%list_elem_of_fmap.
    apply list_elem_of_split in Hin as (pre & post & Hcards).
    assert (extract_homeplans env p = None) as Hfail; [|congruence].
    unfold extract_homeplans. apply PlanFacts.homeplans_from_none.
    exists pre, card, post. split; [done|left].
    unfold card_name in Hnone. by destruct (c_title card).
  - apply Forall_forall. intros hp Hhp.
    destruct (Hall hp Hhp) as (pre & card & (post & Hcards & Hn & _) & Hof).
    rewrite Hcards in Hshown.
    apply MirrorFacts.shown_at in Hshown as (h & Hin & Hs).
    apply MirrorFacts.homeplan_of_card in Hof
      as (href & price & Hl & Hpr & -> & ->).
    exists h. split; [done|].
    rewrite (sa_plan _ _ _ Hs), (sa_url _ _ _ Hs), (sa_price _ _ _ Hs).
    by rewrite Hn, Hl, Hpr.
Qed.

Lemma plans_mirror_homesites_witness :
  exists r,
    fetch_page Sample.env Fixture.listing_url = Some r /\
    map hp_name (homeplans r) = ["Avery"] /\
    map hs_plan (homesites r) = [Some "Avery"; Some "Avery"] /\
    (None ∉ map hs_plan (homesites r)).
Proof.
  eexists. split; [vm_compute; reflexivity|].
  split; [reflexivity|]. split; [reflexivity|].
  destruct (plans_mirror_homesites Sample.env Fixture.listing_url _
              ltac:(vm_compute; reflexivity)) as (_ & Hnone & _).
  exact Hnone.
Defined.

(** ** The address sent to the geocoding service *)

Module CleanFacts.
Import ExtractFacts.

Lemma eqb_comma c : Chr.eqb c "," = Chr.eqb "," c.
Proof. unfold Chr.eqb. apply Ascii.eqb_sym. Qed.

Lemma collapse_run_head l :
  PyStr.startswith_chars (PyStr.chars ",") (collapse_commas l true) = false.
Proof.
  induction l as [|c l IH]; [done|]. cbn [collapse_commas].
  destruct (Chr.eqb c ",") eqn:Hc; [done|].
  cbn [PyStr.chars list_ascii_of_string PyStr.startswith_chars].
  by rewrite <- eqb_comma, Hc.
Qed.

Lemma collapse_no_run l : forall in_run,
  contains_chars (PyStr.chars ",,") (collapse_commas l in_run) = false.
Proof.
  induction l as [|c l IH]; intros in_run; [done|]. cbn [collapse_commas].
  destruct (Chr.eqb c ",") eqn:Hc.
  - destruct in_run; [apply IH|].
    cbn [contains_chars]. rewrite IH, orb_false_r.
    pose proof (collapse_run_head l) as Hh.
    cbn [PyStr.chars list_ascii_of_string PyStr.startswith_chars] in *.
    by rewrite Hh, andb_false_r.
  - cbn [contains_chars]. rewrite IH, orb_false_r.
    cbn [PyStr.chars list_ascii_of_string PyStr.startswith_chars].
    by rewrite <- eqb_comma, Hc.
Qed.

Lemma collapse_fixed l : forall in_run,
  (in_run = true ->
   PyStr.startswith_chars (PyStr.chars ",") l = false) ->
  contains_chars (PyStr.chars ",,") l = false ->
  collapse_commas l in_run = l.
Proof.
  induction l as [|c l IH]; intros in_run Hrun Hc; [done|].
  apply SplitFacts.contains_chars_cons in Hc as [Hs Hc].
  cbn [collapse_commas]. destruct (Chr.eqb c ",") eqn:Hcomma.
  - destruct in_run.
    + specialize (Hrun eq_refl).
      cbn [PyStr.chars list_ascii_of_string PyStr.startswith_chars] in Hrun.
      by rewrite <- eqb_comma, Hcomma in Hrun.
    + rewrite IH; [done| |done]. intros _.
      cbn [PyStr.chars list_ascii_of_string PyStr.startswith_chars] in *.
      by rewrite <- eqb_comma, Hcomma in Hs.
  - by rewrite IH.
Qed.

Lemma lstrip_suffix l : exists pre, l = pre ++ PyStr.lstrip l.
Proof.
  induction l as [|c l [pre IH]]; [by exists []|]. simpl.
  destruct (Chr.is_space c); [|by exists []].
  exists (c :: pre). simpl. by rewrite <- IH.
Qed.

Lemma strip_chars_infix l :
  exists pre post, l = pre ++ PyStr.strip_chars l ++ post.
Proof.
  unfold PyStr.strip_chars.
  destruct (lstrip_suffix l) as [pre Hpre].
  destruct (lstrip_suffix (rev (PyStr.lstrip l))) as [q Hq].
  exists pre, (rev q). rewrite <- rev_app_distr, <- Hq, rev_involutive. done.
Qed.

Lemma contains_chars_infix p pre l post :
  contains_chars p (pre ++ l ++ post) = false -> contains_chars p l = false.
Proof.
  rewrite !SplitJoin.contains_chars_false. intros H a b ->.
  destruct (PyStr.startswith_chars p b) eqn:Hs; [|done].
  apply (SplitJoin.startswith_chars_shorter _ _ post) in Hs.
  rewrite <- (H (pre ++ a) (b ++ post)); [done|].
  by rewrite <- !app_assoc.
Qed.

Lemma clean_address_chars address :
  contains_chars (PyStr.chars ",,") (PyStr.chars (clean_address address))
  = false.
Proof.
  unfold clean_address, PyStr.strip. rewrite !chars_text.
  destruct (strip_chars_infix
              (collapse_commas (PyStr.chars address) false))
    as (pre & post & Hi).
  apply (contains_chars_infix _ pre _ post). rewrite <- Hi.
  apply collapse_no_run.
Qed.

Lemma clean_address_idempotent address :
  clean_address (clean_address address) = clean_address address.
Proof.
  unfold clean_address at 1.
  rewrite collapse_fixed; [|done|apply clean_address_chars].
  rewrite text_chars. unfold clean_address.
  apply StripFacts.strip_idempotent.
Qed.

End CleanFacts.

(** X25.  [get_coordinates] looks at its argument only through the
    cleaned address: runs of commas collapsed to one comma, whitespace at
    both ends removed.  The cleaned address holds no two commas in a row,
    and cleaning it again changes nothing, so that the result for an
    address and for its cleaned form are the same.  The result is a pair of
    coordinates or no coordinate at all. *)
Theorem geocoding_sees_cleaned_address env address :
  get_coordinates env address
  = get_coordinates env (clean_address address) /\
  contains (clean_address address) ",," = false /\
  stripped (clean_address address) /\
  ((get_coordinates env address).1 = None <->
   (get_coordinates env address).2 = None).
Proof.
  split; [|split; [|split]].
  - unfold get_coordinates. fold (clean_address address).
    fold (clean_address (clean_address address)).
    by rewrite CleanFacts.clean_address_idempotent.
  - apply CleanFacts.clean_address_chars.
  - apply StripFacts.strip_idempotent.
  - apply CoordFacts.get_coordinates_paired.
Qed.
